(** * Metrics engine of the outdoor-advertising simulator (src/app.py)

    The engine is the part of [app.py] between the widgets: the per-unit
    adjustment [calculate_metrics_row] (section 4.2 of the script), the
    correction factor of the full selection and of the displayed subset
    (4.3, 4.4.1), the frequency metric, and the demographic allocation of
    the second tab (4.4.2).

    The script computes on pandas columns of IEEE binary64 numbers in which
    a missing cell is NaN.  The embedding is written once, over an interface
    [PyNum] of the operations the script uses, and read at two instances:
    - [float], Rocq's primitive binary64 numbers: what the script computes;
    - [exact], rationals extended with NaN: the same program with every
      rounding removed, the reading in which identities "up to rounding"
      are equalities. *)

From Stdlib Require Import ZArith QArith Qcanon Bool List String Lia.
From Stdlib Require Import Permutation.
From Stdlib Require Import Sorted.
From Stdlib Require Import Floats Uint63.
Import ListNotations.

Set Warnings "-inexact-float".
Close Scope Qc_scope.
Close Scope Q_scope.

(** ** Numbers *)

Class PyNum (num : Type) : Type := {
  lit : Q -> num;                 (* a numeric literal of the script *)
  nan : num;                      (* the missing cell *)
  fadd : num -> num -> num;
  fsub : num -> num -> num;
  fmul : num -> num -> num;
  fdiv : num -> num -> num;       (* quotient of columns and of numpy scalars *)
  fgt : num -> num -> bool;       (* [x > y]; false when either side is NaN *)
  fis0 : num -> bool;             (* [x == 0] *)
  isnull : num -> bool            (* [pd.isnull x] *)
}.

Arguments lit {num _} q%_Q.

Declare Scope num_scope.
Delimit Scope num_scope with num.
Infix "+" := fadd : num_scope.
Infix "-" := fsub : num_scope.
Infix "*" := fmul : num_scope.
Infix "/" := fdiv : num_scope.
Infix ">?" := fgt (at level 70, no associativity) : num_scope.

(** An integer below 2^53 in absolute value as a binary64 number (exact). *)
Definition Z2F (z : Z) : float :=
  match z with
  | Z0 => PrimFloat.zero
  | Zpos _ => PrimFloat.of_uint63 (Uint63.of_Z z)
  | Zneg p => PrimFloat.opp (PrimFloat.of_uint63 (Uint63.of_Z (Zpos p)))
  end.

(** A decimal literal [n/d] of the script denotes the binary64 number nearest
    to it.  Numerator and denominator of every literal of [app.py] are
    integers below 2^53, hence exact, and the quotient is correctly
    rounded. *)
Definition float_lit (q : Q) : float :=
  PrimFloat.div (Z2F (Qnum q)) (Z2F (Zpos (Qden q))).

#[export] Instance float_PyNum : PyNum float := {|
  lit := float_lit;
  nan := PrimFloat.nan;
  fadd := PrimFloat.add;
  fsub := PrimFloat.sub;
  fmul := PrimFloat.mul;
  fdiv := PrimFloat.div;
  fgt := fun x y => PrimFloat.ltb y x;
  fis0 := fun x => PrimFloat.eqb x PrimFloat.zero;
  isnull := PrimFloat.is_nan
|}.

(** Exact numbers: a rational, or [None] for NaN.  NaN is absorbing, every
    comparison with NaN is false, and a quotient by zero has no rational
    value and is represented like NaN. *)
Definition exact : Type := option Qc.

Definition exact_lift2 (f : Qc -> Qc -> Qc) (x y : exact) : exact :=
  match x, y with
  | Some a, Some b => Some (f a b)
  | _, _ => None
  end.

Definition exact_div (x y : exact) : exact :=
  match x, y with
  | Some a, Some b => if Qeq_bool b 0 then None else Some (Qcdiv a b)
  | _, _ => None
  end.

Definition exact_gt (x y : exact) : bool :=
  match x, y with
  | Some a, Some b => negb (Qle_bool a b)
  | _, _ => false
  end.

#[export] Instance exact_PyNum : PyNum exact := {|
  lit := fun q => Some (Q2Qc q);
  nan := None;
  fadd := exact_lift2 Qcplus;
  fsub := exact_lift2 Qcminus;
  fmul := exact_lift2 Qcmult;
  fdiv := exact_div;
  fgt := exact_gt;
  fis0 := fun x => match x with Some a => Qeq_bool a 0 | None => false end;
  isnull := fun x => match x with Some _ => false | None => true end
|}.

(** The value of an exact number, NaN counting for zero as it does in a
    column sum, and the sum of a list of rationals. *)
Definition val (x : exact) : Qc :=
  match x with Some q => q | None => Q2Qc 0 end.
Arguments val x%_num.

Fixpoint qsum (l : list Qc) : Qc :=
  match l with
  | [] => Q2Qc 0
  | q :: l' => Qcplus q (qsum l')
  end.

(** ** Python values *)

(** What a Python expression of the engine can raise. *)
Inductive py_exn : Type := KeyError | IndexError | ZeroDivisionError.

Inductive result (A : Type) : Type :=
| Ok (a : A)
| Raise (e : py_exn).
Arguments Ok {A} a.
Arguments Raise {A} e.

(** A dictionary with string keys, in the order it is written. *)
Fixpoint dict_get {V : Type} (d : list (string * V)) (k : string) : option V :=
  match d with
  | [] => None
  | (k', v) :: d' => if (k' =? k)%string then Some v else dict_get d' k
  end.

(** [k in d] *)
Definition dict_mem {V : Type} (d : list (string * V)) (k : string) : bool :=
  match dict_get d k with Some _ => true | None => false end.

(** [d[k]] *)
Definition dict_getitem {V : Type} (d : list (string * V)) (k : string)
  : result V :=
  match dict_get d k with Some v => Ok v | None => Raise KeyError end.

(** [s.empty] *)
Definition is_empty {A : Type} (s : list A) : bool :=
  match s with [] => true | _ :: _ => false end.

(** ** The engine *)

Section Engine.

Context {num : Type} `{PyNum num}.
Local Open Scope num_scope.
Local Open Scope string_scope.

(** One row of [merged]: a unit of the selected month with its package type
    and its digital attributes joined on.  [shelter_type] and [media_type]
    were made strings at load time ([astype(str)]); [stay_time] and
    [share_of_time] are NaN where the unit has no digital record;
    [package_type] is [None] where the row holds no package type, in which
    case [row.get] answers ['P'] or a NaN that, like ['P'], differs from
    ['D']. *)
Record kpi_row : Type := {
  ftr_idn : string;
  shelter_type : string;
  media_type : string;
  package_type : option string;
  stay_time : num;
  share_of_time : num;
  rots : num;
  reach : num
}.

(** [max(a, b)] of Python: the first argument unless the second is greater. *)
Definition py_max (a b : num) : num := if b >? a then b else a.

(** The calculation options of the [calc_mode] select box. *)
Definition mode_default : string := "기본".
Definition mode_no_digital_formula : string := "디지털 공식 미적용".
Definition mode_digital_full_slot : string := "디지털 풀 구좌".

(** [time_factor = (max(stay_time - 1, 0) + 30) / 30.0] *)
Definition time_factor (stay : num) : num :=
  (py_max (stay - lit 1) (lit 0) + lit 30) / lit 30.

(** The local [share_of_time] of the digital branch: the constant of the
    full-slot option, else the cell of the row. *)
Definition share_used (calc_mode : string) (row : kpi_row) : num :=
  if calc_mode =? mode_digital_full_slot then lit 0.05
  else share_of_time row.

Definition apply_digital_formula (row : kpi_row) : bool :=
  let pkg_type := match package_type row with Some p => p | None => "P" end in
  (pkg_type =? "D") || (media_type row =? "디지털").

(** [calculate_metrics_row]: the pair is the series
    [[adj_rots, adj_reach]]. *)
Definition calculate_metrics_row (calc_mode : string) (row : kpi_row)
  : num * num :=
  let k_rots := rots row in
  let k_reach := reach row in
  if calc_mode =? mode_no_digital_formula then (k_rots, k_reach)
  else
    let s_type := shelter_type row in
    let m_type := media_type row in
    (* Case A *)
    if (s_type =? "관광안내판") && (m_type =? "포스터")
    then (k_rots / lit 2, k_reach / lit 2)
    else
      (* Case B *)
      if apply_digital_formula row then
        if negb (isnull (stay_time row)) then
          let share := share_used calc_mode row in
          let tf := time_factor (stay_time row) in
          (tf * k_rots * share * lit 0.5, tf * k_reach * share * lit 0.5)
        else (k_rots, k_reach)
      else
        (* Case C *)
        (k_rots, k_reach).

(** The rows on which [calculate_metrics_row] evaluates the formula of the
    digital branch: the formula is not switched off, the row is not a case
    A row, the package or the media type is digital, and the stay time is
    present. *)
Definition digital_formula_used (calc_mode : string) (row : kpi_row) : bool :=
  negb (calc_mode =? mode_no_digital_formula)
  && negb ((shelter_type row =? "관광안내판") && (media_type row =? "포스터"))
  && apply_digital_formula row
  && negb (isnull (stay_time row)).

(** *** Adjusted table (4.2) *)

(** A row of [merged] once the columns [adj_rots] and [adj_reach] are
    assigned; [final_df] holds rows of the same shape. *)
Record merged_row : Type := {
  base : kpi_row;
  adj_rots : num;
  adj_reach : num
}.

(** [merged.apply(calculate_metrics_row, axis=1)] and the two column
    assignments that follow it. *)
Definition apply_metrics (calc_mode : string) (merged : list kpi_row)
  : list merged_row :=
  map (fun row =>
         let m := calculate_metrics_row calc_mode row in
         {| base := row; adj_rots := fst m; adj_reach := snd m |})
      merged.

(** [Series.sum()]: NaN cells are skipped and the empty sum is zero.  The
    additions are made here from left to right; numpy may associate them
    otherwise, which changes a binary64 sum by rounding only and an exact
    sum not at all. *)
Definition pd_sum (col : list num) : num :=
  fold_left fadd (filter (fun x => negb (isnull x)) col) (lit 0).

(** *** Correction factor (4.3 and 4.4.1) *)

Definition region_pkg_weights : list (string * num) :=
  [ ("강남D", lit 0.5430); ("서초D", lit 0.7165); ("이태원D", lit 0.3311);
    ("종로D", lit 0.4892); ("종로중구MD", lit 0.5442) ].

Definition region_pkg_weights_map : list (string * num) :=
  [ ("강남D", lit 0.5430); ("서초D", lit 0.7165); ("이태원D", lit 0.3311);
    ("종로D", lit 0.4892); ("종로중구MD", lit 0.5442) ].

(** A row of [factor_df].  The quantity is a number of media units. *)
Record factor_row : Type := {
  quantity : nat;
  correction_factor : num
}.

(** [factor_df['quantity'].max()]: NaN, here [None], on a table without
    rows. *)
Definition quantity_max (df : list factor_row) : option nat :=
  match df with
  | [] => None
  | r :: rs => Some (fold_left Nat.max (map quantity rs) (quantity r))
  end.

(** [min(n, max_qty)] of Python: the first argument unless the second is
    smaller; a NaN is never smaller. *)
Definition lookup_qty (n : nat) (max_qty : option nat) : nat :=
  match max_qty with
  | Some m => if (m <? n)%nat then m else n
  | None => n
  end.

(** [factor_df.loc[factor_df['quantity'] == q, 'correction_factor']] *)
Definition found_val (df : list factor_row) (q : nat) : list num :=
  map correction_factor (filter (fun r => (quantity r =? q)%nat) df).

(** [s.values[0]] *)
Definition values_0 (s : list num) : result num :=
  match s with
  | v :: _ => Ok v
  | [] => Raise IndexError
  end.

(** Lines 489-509: the correction of the full selection.  [factor_df] is
    [None] when the table could not be loaded. *)
Definition correction_val (total_shelters : nat) (filter_mode : string)
    (selected_package_option : string) (factor_df : option (list factor_row))
  : result num :=
  if (0 <? total_shelters)%nat then
    if (filter_mode =? "패키지")
       && dict_mem region_pkg_weights selected_package_option
    then dict_getitem region_pkg_weights selected_package_option
    else
      match factor_df with
      | Some df =>
          let max_qty := quantity_max df in
          let q := lookup_qty total_shelters max_qty in
          let found := found_val df q in
          if negb (is_empty found) then values_0 found else Ok (lit 0)
      | None => Ok (lit 0)
      end
  else Ok (lit 0).

(** Lines 554-567: the same resolution on the number of displayed rows. *)
Definition cur_correction (cur_count : nat) (filter_mode : string)
    (selected_package_option : string) (factor_df : option (list factor_row))
  : result num :=
  if (0 <? cur_count)%nat then
    if (filter_mode =? "패키지")
       && dict_mem region_pkg_weights_map selected_package_option
    then dict_getitem region_pkg_weights_map selected_package_option
    else
      match factor_df with
      | Some df =>
          let max_qty := quantity_max df in
          let q := lookup_qty cur_count max_qty in
          let found := found_val df q in
          if negb (is_empty found) then values_0 found else Ok (lit 0)
      | None => Ok (lit 0)
      end
  else Ok (lit 0).

(** *** Totals and frequency (4.4.1) *)

Definition cur_rots (final_df : list merged_row) : num :=
  pd_sum (map adj_rots final_df).

Definition cur_reach (final_df : list merged_row) : num :=
  pd_sum (map adj_reach final_df).

(** [final_cur_reach = cur_reach * cur_correction] *)
Definition final_cur_reach (final_df : list merged_row) (correction : num)
  : num :=
  cur_reach final_df * correction.

(** The quotient [x / y] of two Python numbers, which raises on a zero
    divisor.  (A numpy scalar would answer inf or NaN with a warning; the
    model takes the stricter of the two readings.) *)
Definition py_truediv (x y : num) : result num :=
  if fis0 y then Raise ZeroDivisionError else Ok (x / y).

(** [freq = (cur_rots / final_cur_reach) if final_cur_reach > 0 else 0] *)
Definition freq (rots_total reach_total : num) : result num :=
  if reach_total >? lit 0 then py_truediv rots_total reach_total
  else Ok (lit 0).

(** *** Demographic allocation (4.4.2) *)

(** A row of [demographics].  [demo_rots] and [demo_reach] are its columns
    [rots] and [reach]; gender and age bracket are present on every
    record. *)
Record demo_row : Type := {
  demo_month : string;
  demo_ftr_idn : string;
  gender : string;
  age : Z;
  demo_rots : num;
  demo_reach : num
}.

(** [demo_mask], lines 641-646. *)
Definition demo_mask (selected_month : string)
    (final_selected_idns : list string) (selected_gender : string)
    (selected_age_code : Z) (d : demo_row) : bool :=
  (demo_month d =? selected_month)
  && existsb (String.eqb (demo_ftr_idn d)) final_selected_idns
  && (if negb (selected_gender =? "전체") then gender d =? selected_gender
      else true)
  && (if negb (selected_age_code =? 0)%Z then (age d =? selected_age_code)%Z
      else true).

Definition target_demo (demographics : list demo_row)
    (selected_month : string) (final_selected_idns : list string)
    (selected_gender : string) (selected_age_code : Z) : list demo_row :=
  filter (demo_mask selected_month final_selected_idns selected_gender
            selected_age_code) demographics.

(** Lines 431-437, under an active demographic filter: the raw values of a
    unit are replaced by the sums of its filtered demographic records, 0
    when it has none ([groupby('ftr_idn').sum()], the left merge and
    [fillna(0)]). *)
Definition with_demo_totals (demo_subset : list demo_row) (u : kpi_row)
  : kpi_row :=
  let own := filter (fun d => demo_ftr_idn d =? ftr_idn u) demo_subset in
  {| ftr_idn := ftr_idn u; shelter_type := shelter_type u;
     media_type := media_type u; package_type := package_type u;
     stay_time := stay_time u; share_of_time := share_of_time u;
     rots := pd_sum (map demo_rots own);
     reach := pd_sum (map demo_reach own) |}.

(** [np.where(final_df['reach'] > 0,
              final_df['adj_reach'] / final_df['reach'], 1.0)] *)
Definition calc_ratio (r : merged_row) : num :=
  if reach (base r) >? lit 0 then adj_reach r / reach (base r) else lit 1.

(** [final_df[['ftr_idn', 'calc_ratio']].set_index('ftr_idn')] *)
Definition ratio_map (final_df : list merged_row) : list (string * num) :=
  map (fun r => (ftr_idn (base r), calc_ratio r)) final_df.

(** A row of [target_demo] with the columns added to it. *)
Record joined_row : Type := {
  demo : demo_row;
  ratio : num          (* the column [calc_ratio] *)
}.

(** [target_demo.join(ratio_map, on='ftr_idn')], a left join: a row is
    repeated for every entry with its identifier and kept once, with NaN,
    when there is none. *)
Definition join_ratio (td : list demo_row) (rm : list (string * num))
  : list joined_row :=
  flat_map
    (fun d =>
       match filter (fun e => fst e =? demo_ftr_idn d) rm with
       | [] => [ {| demo := d; ratio := nan |} ]
       | hits => map (fun e => {| demo := d; ratio := snd e |}) hits
       end)
    td.

(** [target_demo['calc_ratio'].fillna(1.0)] *)
Definition fillna_ratio (j : joined_row) : joined_row :=
  {| demo := demo j;
     ratio := if isnull (ratio j) then lit 1 else ratio j |}.

Definition adj_demo_rots (j : joined_row) : num :=
  demo_rots (demo j) * ratio j.

Definition adj_demo_reach (j : joined_row) : num :=
  demo_reach (demo j) * ratio j.

(** A row of a summary: the group and the sums of its two columns. *)
Record summ_row (K : Type) : Type := {
  group : K;
  sum_adj_demo_rots : num;
  sum_adj_demo_reach : num
}.
Arguments group {K} s.
Arguments sum_adj_demo_rots {K} s.
Arguments sum_adj_demo_reach {K} s.

Section Groupby.

Variable K : Type.
Variable keqb : K -> K -> bool.
Variable kleb : K -> K -> bool.

(** The distinct values of a column, in the order of their first
    appearance. *)
Fixpoint unique (l : list K) : list K :=
  match l with
  | [] => []
  | k :: l' => k :: filter (fun k' => negb (keqb k k')) (unique l')
  end.

Fixpoint insert_key (k : K) (l : list K) : list K :=
  match l with
  | [] => [k]
  | x :: l' => if kleb k x then k :: l else x :: insert_key k l'
  end.

Definition sort_keys (l : list K) : list K := fold_right insert_key [] l.

(** [df.groupby(key)[['adj_demo_rots', 'adj_demo_reach']].sum()
       .reset_index()]: one row per value of the key, in increasing
    order. *)
Definition groupby_sum (key : joined_row -> K) (df : list joined_row)
  : list (summ_row K) :=
  map (fun k =>
         let g := filter (fun j => keqb (key j) k) df in
         {| group := k;
            sum_adj_demo_rots := pd_sum (map adj_demo_rots g);
            sum_adj_demo_reach := pd_sum (map adj_demo_reach g) |})
      (sort_keys (unique (map key df))).

End Groupby.

(** [summ['adj_demo_reach'] = summ['adj_demo_reach'] * cur_correction] *)
Definition apply_correction {K : Type} (correction : num)
    (summ : list (summ_row K)) : list (summ_row K) :=
  map (fun s =>
         {| group := group s;
            sum_adj_demo_rots := sum_adj_demo_rots s;
            sum_adj_demo_reach := sum_adj_demo_reach s * correction |})
      summ.

(** [target_demo] once the ratio is joined on, filled in and applied
    (lines 652-659). *)
Definition allocate (td : list demo_row) (final_df : list merged_row)
  : list joined_row :=
  map fillna_ratio (join_ratio td (ratio_map final_df)).

(** [gender_summ] and [age_summ] with the correction applied to their
    reach (lines 661-666). *)
Definition gender_summ (td : list demo_row) (final_df : list merged_row)
    (correction : num) : list (summ_row string) :=
  apply_correction correction
    (groupby_sum string String.eqb String.leb (fun j => gender (demo j))
                 (allocate td final_df)).

Definition age_summ (td : list demo_row) (final_df : list merged_row)
    (correction : num) : list (summ_row Z) :=
  apply_correction correction
    (groupby_sum Z Z.eqb Z.leb (fun j => age (demo j))
                 (allocate td final_df)).

(** Lines 650-666; [None] is the branch of the message that no demographic
    row matches the selection. *)
Definition tab2 (td : list demo_row) (final_df : list merged_row)
    (correction : num)
  : option (list (summ_row string) * list (summ_row Z)) :=
  if negb (is_empty td)
  then Some (gender_summ td final_df correction,
             age_summ td final_df correction)
  else None.

End Engine.

Arguments kpi_row num : clear implicits.
Arguments demo_row num : clear implicits.
Arguments joined_row num : clear implicits.
Arguments summ_row num K : clear implicits.
Arguments group {num K} s.
Arguments sum_adj_demo_rots {num K} s.
Arguments sum_adj_demo_reach {num K} s.
Arguments merged_row num : clear implicits.
Arguments factor_row num : clear implicits.

(** ** Sample data *)

(** The unit of the numeric scenarios of the adjustment: package type D,
    stay time 10, raw values (1000, 500). *)
Definition scenario_unit (id s_type m_type : string) (share : float)
  : kpi_row float :=
  {| ftr_idn := id; shelter_type := s_type; media_type := m_type;
     package_type := Some "D"%string; stay_time := lit 10;
     share_of_time := share; rots := lit 1000; reach := lit 500 |}.

(** A poster on a tourist information board that also has a digital
    package and a digital record. *)
Definition tourist_unit : kpi_row float :=
  {| ftr_idn := "10445"; shelter_type := "관광안내판"; media_type := "포스터";
     package_type := Some "D"%string; stay_time := lit 10;
     share_of_time := lit 0.2; rots := lit 1000; reach := lit 500 |}.

(** A digital unit with stay time 1 (time factor 1), share 0.1 and raw
    values (3, 1). *)
Definition rounding_unit {num : Type} `{PyNum num} : kpi_row num :=
  {| ftr_idn := "10334"; shelter_type := "가로변 쉘터";
     media_type := "디지털"; package_type := Some "D"%string;
     stay_time := lit 1; share_of_time := lit 0.1;
     rots := lit 3; reach := lit 1 |}.

(** A displayed selection of two units with the demographic records of
    their month: a digital unit whose records add up to its raw values
    (1000, 500) and a poster unit with a single record. *)
Definition sample_units : list (kpi_row exact) :=
  [ {| ftr_idn := "10567"; shelter_type := "가로변 쉘터";
       media_type := "디지털"; package_type := Some "D"%string;
       stay_time := lit 10; share_of_time := lit 0.2;
       rots := lit 1000; reach := lit 500 |};
    {| ftr_idn := "10445"; shelter_type := "환승센터";
       media_type := "포스터"; package_type := Some "P"%string;
       stay_time := nan; share_of_time := nan;
       rots := lit 10; reach := lit 4 |} ].

Definition sample_demographics : list (demo_row exact) :=
  [ {| demo_month := "202401"; demo_ftr_idn := "10567"; gender := "M";
       age := 2; demo_rots := lit 600; demo_reach := lit 300 |};
    {| demo_month := "202401"; demo_ftr_idn := "10567"; gender := "F";
       age := 3; demo_rots := lit 400; demo_reach := lit 200 |};
    {| demo_month := "202401"; demo_ftr_idn := "10445"; gender := "F";
       age := 2; demo_rots := lit 10; demo_reach := lit 4 |};
    {| demo_month := "202312"; demo_ftr_idn := "10445"; gender := "M";
       age := 5; demo_rots := lit 7; demo_reach := lit 3 |} ].

Definition sample_target_demo : list (demo_row exact) :=
  target_demo sample_demographics "202401" ["10567"; "10445"]%string
              "전체" 0.

(** The same selection as the script computes it, in binary64, when the
    digital record of the first unit has a stay time and no share of time:
    every demographic record belongs to a displayed unit and the records of
    each unit add up to its raw reach. *)
Definition missing_share_units : list (kpi_row float) :=
  [ scenario_unit "10567" "가로변 쉘터" "포스터" nan;
    {| ftr_idn := "10445"; shelter_type := "환승센터";
       media_type := "포스터"; package_type := Some "P"%string;
       stay_time := nan; share_of_time := nan;
       rots := lit 10; reach := lit 4 |} ].

Definition missing_share_demographics : list (demo_row float) :=
  [ {| demo_month := "202401"; demo_ftr_idn := "10567"; gender := "M";
       age := 2; demo_rots := lit 600; demo_reach := lit 300 |};
    {| demo_month := "202401"; demo_ftr_idn := "10567"; gender := "F";
       age := 3; demo_rots := lit 400; demo_reach := lit 200 |};
    {| demo_month := "202401"; demo_ftr_idn := "10445"; gender := "F";
       age := 2; demo_rots := lit 10; demo_reach := lit 4 |} ].

Definition missing_share_target_demo : list (demo_row float) :=
  target_demo missing_share_demographics "202401"
              ["10567"; "10445"]%string "전체" 0.

(** A correction table with a gap at 3 and its largest bucket at 4. *)
Definition sample_factor_df {num : Type} `{PyNum num}
  : list (factor_row num) :=
  [ {| quantity := 1; correction_factor := lit 1 |};
    {| quantity := 2; correction_factor := lit 0.9 |};
    {| quantity := 4; correction_factor := lit 0.7 |} ].

(** ** Presentation helpers (sections 2 and 3.3 of the script) *)

(** The dictionary [colors] of [get_color_by_type]. *)
Definition colors : list (string * string) :=
  [ ("가로변 쉘터", "#153b5d"); ("중앙차로버스 쉘터", "#00b8bc");
    ("환승센터", "#ffc000"); ("관광안내판", "#fc766a");
    ("마을버스 쉘터", "#3247a6") ]%string.

(** [colors.get(shelter_type, '#808080')] *)
Definition get_color_by_type (s_type : string) : string :=
  match dict_get colors s_type with
  | Some c => c
  | None => "#808080"%string
  end.

(** The function [getRadiusByLevel] of the map page, on the integer zoom
    levels of the map. *)
Definition getRadiusByLevel (level : Z) : Z :=
  if (level <=? 5)%Z then 50%Z
  else if (level <=? 8)%Z then 150%Z
  else 300%Z.

(** The label dictionaries of the demographic filter and of the charts. *)
Definition gender_map : list (string * string) :=
  [ ("전체", "전체"); ("남성", "M"); ("여성", "F") ]%string.

Definition age_map_inv : list (string * Z) :=
  [ ("전체", 0); ("10대 이하", 1); ("20대", 2); ("30대", 3); ("40대", 4);
    ("50대", 5); ("60대", 6); ("70대 이상", 7) ]%string%Z.

Definition age_map_disp : list (Z * string) :=
  [ (1, "10대 이하"); (2, "20대"); (3, "30대"); (4, "40대"); (5, "50대");
    (6, "60대"); (7, "70대 이상") ]%string%Z.

Definition gender_map_disp : list (string * string) :=
  [ ("M", "남성"); ("F", "여성") ]%string.

(** A dictionary with integer keys; [Series.map(d)] answers NaN, here
    [None], on a key that is missing. *)
Fixpoint zdict_get {V : Type} (d : list (Z * V)) (k : Z) : option V :=
  match d with
  | [] => None
  | (k', v) :: d' => if (k' =? k)%Z then Some v else zdict_get d' k
  end.

(** ** Direct selection of media (section 3.2 of the script) *)

(** The text typed into the identifier box, as the list of its Unicode code
    points: [strip] is defined on code points. *)
Definition text : Type := list N.

Definition comma : N := 44.
Definition newline : N := 10.

(** [str.isspace] on one character: the white space of Python 3. *)
Definition py_isspace (c : N) : bool :=
  ((9 <=? c) && (c <=? 13) || (28 <=? c) && (c <=? 32)
   || (c =? 133) || (c =? 160) || (c =? 5760)
   || (8192 <=? c) && (c <=? 8202)
   || (c =? 8232) || (c =? 8233) || (c =? 8239) || (c =? 8287)
   || (c =? 12288))%N.

Fixpoint lstrip (s : text) : text :=
  match s with
  | [] => []
  | c :: s' => if py_isspace c then lstrip s' else s
  end.

Definition rstrip (s : text) : text := rev (lstrip (rev s)).

(** [s.strip()] *)
Definition strip (s : text) : text := rstrip (lstrip s).

(** [s.replace(a, b)] for single characters. *)
Definition replace_char (a b : N) (s : text) : text :=
  map (fun c => if (c =? a)%N then b else c) s.

(** [s.split(sep)] for a single character: the pieces between the
    separators, the empty ones included; one empty piece for the empty
    text. *)
Fixpoint split (sep : N) (s : text) : list text :=
  match s with
  | [] => [[]]
  | c :: s' =>
      if (c =? sep)%N then [] :: split sep s'
      else match split sep s' with
           | piece :: pieces => (c :: piece) :: pieces
           | [] => [[c]]
           end
  end.

(** [[x.strip() for x in input_text.replace('\n', ',').split(',')
      if x.strip()]] *)
Definition raw_ids (input_text : text) : list text :=
  map strip
      (filter (fun x => negb (is_empty (strip x)))
              (split comma (replace_char newline comma input_text))).

(** [sep.join(pieces)] *)
Fixpoint join (sep : N) (pieces : list text) : text :=
  match pieces with
  | [] => []
  | [x] => x
  | x :: rest => x ++ sep :: join sep rest
  end.

Definition text_eqb (a b : text) : bool :=
  if list_eq_dec N.eq_dec a b then true else false.

(** [kpi[(kpi['month'] == selected_month) & (kpi['ftr_idn'].isin(raw_ids))]
       ['ftr_idn'].unique()], on the columns [month] and [ftr_idn] of
    [kpi]. *)
Definition found_ids (kpi_keys : list (string * text))
    (selected_month : string) (ids : list text) : list text :=
  unique text text_eqb
    (map snd
         (filter (fun k => (fst k =? selected_month)%string
                           && existsb (text_eqb (snd k)) ids)
                 kpi_keys)).

(** An identifier as [raw_ids] delivers them: not empty, without white
    space at either end, without comma and without line break. *)
Definition clean_id (x : text) : Prop :=
  x <> [] /\ strip x = x /\ ~ In comma x /\ ~ In newline x.

(** What the identifier box leads to (lines 356-391): the selection
    [final_selected_idns] and the two counts of the confirmation message,
    or no selection.  An empty text and an empty month are false. *)
Definition direct_selection (kpi_keys : list (string * text))
    (selected_month : string) (input_text : text)
  : list text * option (nat * nat) :=
  if negb (is_empty input_text) && negb (selected_month =? "")%string then
    let ids := raw_ids input_text in
    let found := found_ids kpi_keys selected_month ids in
    if (0 <? List.length found)%nat
    then (found, Some (List.length ids, List.length found))
    else ([], None)
  else ([], None).

(** ** The detail table of the second tab (lines 700-702) *)

(** The pairs (age, gender) of [groupby(['age', 'gender'])], equal
    componentwise and ordered by age, then by gender. *)
Definition age_gender_eqb (k1 k2 : Z * string) : bool :=
  (fst k1 =? fst k2)%Z && (snd k1 =? snd k2)%string.

Definition age_gender_leb (k1 k2 : Z * string) : bool :=
  if (fst k1 =? fst k2)%Z then String.leb (snd k1) (snd k2)
  else (fst k1 <=? fst k2)%Z.

(** [pivot_demo], with the correction applied to its reach. *)
Definition pivot_demo {num : Type} `{PyNum num} (td : list (demo_row num))
    (final_df : list (merged_row num)) (correction : num)
  : list (summ_row num (Z * string)) :=
  apply_correction correction
    (groupby_sum (Z * string) age_gender_eqb age_gender_leb
                 (fun j => (age (demo j), gender (demo j)))
                 (allocate td final_df)).

(** ** Full-selection totals and the top-N view (4.3 and 4.4.1) *)

Section TopN.

Context {num : Type} `{PyNum num}.
Local Open Scope num_scope.

(** [sum_adj_rots], [sum_adj_reach] and [final_total_reach] of the full
    selection (lines 485-511). *)
Definition sum_adj_rots (merged : list (merged_row num)) : num :=
  pd_sum (map adj_rots merged).

Definition sum_adj_reach (merged : list (merged_row num)) : num :=
  pd_sum (map adj_reach merged).

Definition final_total_reach (merged : list (merged_row num))
    (correction : num) : num :=
  sum_adj_reach merged * correction.

(** [sort_target = 'adj_rots' if sort_col_ui == 'ROTS' else 'adj_reach'] *)
Definition sort_target (sort_col_ui : string) : merged_row num -> num :=
  if (sort_col_ui =? "ROTS")%string then adj_rots else adj_reach.

(** The order [sort_values(key, ascending=False)] delivers: no row is
    followed by a row with a greater key, and the rows without a key come
    last.  Which of two rows with equal keys comes first is left open, as
    pandas leaves it. *)
Definition sorted_desc (key : merged_row num -> num)
    (l : list (merged_row num)) : Prop :=
  StronglySorted
    (fun a b => fgt (key b) (key a) = false
                /\ (isnull (key a) = true -> isnull (key b) = true))
    l.

(** Lines 545-549: [final_df], given the sort of pandas. *)
Definition displayed
    (sort_values : (merged_row num -> num) ->
                   list (merged_row num) -> list (merged_row num))
    (sort_col_ui : string) (top_n : nat) (merged : list (merged_row num))
  : list (merged_row num) :=
  let final_df := sort_values (sort_target sort_col_ui) merged in
  if (0 <? top_n)%nat then firstn top_n final_df else final_df.

(** A sort with this contract, by insertion, to run [displayed]. *)
Definition goes_before (key : merged_row num -> num)
    (x h : merged_row num) : bool :=
  if isnull (key x) then false
  else if isnull (key h) then true
  else fgt (key x) (key h).

Fixpoint insert_desc (key : merged_row num -> num) (x : merged_row num)
    (l : list (merged_row num)) : list (merged_row num) :=
  match l with
  | [] => [x]
  | h :: l' =>
      if goes_before key x h then x :: l else h :: insert_desc key x l'
  end.

Definition sort_values_desc (key : merged_row num -> num)
    (l : list (merged_row num)) : list (merged_row num) :=
  fold_right (insert_desc key) [] l.

(** Lines 551-583: the five numbers of the header, or the exception that
    stops the script. *)
Record header : Type := {
  h_count : nat;
  h_rots : num;
  h_reach : num;
  h_freq : num;
  h_correction : num
}.

Definition metrics_header (final_df : list (merged_row num))
    (filter_mode selected_package_option : string)
    (factor_df : option (list (factor_row num))) : result header :=
  let cur_count := List.length final_df in
  match cur_correction cur_count filter_mode selected_package_option
                       factor_df with
  | Raise e => Raise e
  | Ok correction =>
      let reach_total := final_cur_reach final_df correction in
      match freq (cur_rots final_df) reach_total with
      | Raise e => Raise e
      | Ok f =>
          Ok {| h_count := cur_count; h_rots := cur_rots final_df;
                h_reach := reach_total; h_freq := f;
                h_correction := correction |}
      end
  end.

End TopN.

Arguments header num : clear implicits.

(** ** The tables and their merge (section 4.1 of the script) *)

(** [pd.merge(left, right, how='left')] on the keys compared by [on]: the
    rows of [left] in their order, each once for every row of [right] with
    its keys, in the order of [right], and once with missing cells when
    there is none. *)
Definition left_merge {L R O : Type} (on : L -> R -> bool)
    (combine : L -> option R -> O) (left : list L) (right : list R)
  : list O :=
  flat_map
    (fun l =>
       match filter (on l) right with
       | [] => [combine l None]
       | r :: hits => map (fun r' => combine l (Some r')) (r :: hits)
       end)
    left.

Section Tables.

Context {num : Type} `{PyNum num}.
Local Open Scope string_scope.

(** The rows of [kpi], [digital] and [shelter_info], with the columns the
    script reads. *)
Record kpi_rec : Type := {
  k_month : string;
  k_ftr_idn : string;
  k_shelter_name : string;
  k_shelter_type : string;
  k_media_type : string;
  k_rots : num;
  k_reach : num
}.

Record digital_rec : Type := {
  dg_month : string;
  dg_ftr_idn : string;
  dg_stay_time : num;
  dg_share_of_time : num
}.

Record shelter_rec : Type := {
  sh_ftr_idn : string;
  sh_longitude : num;
  sh_latitude : num;
  sh_grade : string
}.

(** [kpi[(kpi['month'] == selected_month)
         & (kpi['ftr_idn'].isin(final_selected_idns))]] *)
Definition target_kpi (kpi : list kpi_rec) (selected_month : string)
    (final_selected_idns : list string) : list kpi_rec :=
  filter (fun k => (k_month k =? selected_month)
                   && existsb (String.eqb (k_ftr_idn k)) final_selected_idns)
         kpi.

(** [is_demo_filtered] *)
Definition is_demo_filtered (selected_gender : string)
    (selected_age_code : Z) : bool :=
  negb (selected_gender =? "전체") || negb (selected_age_code =? 0)%Z.

(** Lines 422-437: under an active filter, with [demographics] loaded, the
    raw values of the unit become the sums of its filtered records. *)
Definition demo_totals (demo_subset : list (demo_row num)) (k : kpi_rec)
  : kpi_rec :=
  let own := filter (fun d => demo_ftr_idn d =? k_ftr_idn k) demo_subset in
  {| k_month := k_month k; k_ftr_idn := k_ftr_idn k;
     k_shelter_name := k_shelter_name k;
     k_shelter_type := k_shelter_type k; k_media_type := k_media_type k;
     k_rots := pd_sum (map demo_rots own);
     k_reach := pd_sum (map demo_reach own) |}.

(** A row of [merged] with the columns of the map beside those of the
    calculation. *)
Record geo_row : Type := {
  row : kpi_row num;
  shelter_name : string;
  longitude : num;
  latitude : num;
  grade : option string
}.

(** Lines 419-441: [merged].  [pkg_mapping] holds the columns [ftr_idn] and
    [package_type]; [demographics] is [None] when the table is not
    loaded. *)
Definition merged (kpi : list kpi_rec) (digital : list digital_rec)
    (shelter_info : list shelter_rec)
    (demographics : option (list (demo_row num)))
    (pkg_mapping : list (string * string))
    (selected_month : string) (final_selected_idns : list string)
    (selected_gender : string) (selected_age_code : Z) : list geo_row :=
  let target := target_kpi kpi selected_month final_selected_idns in
  let target :=
    match demographics with
    | Some demo =>
        if is_demo_filtered selected_gender selected_age_code
        then map (demo_totals
                    (target_demo demo selected_month final_selected_idns
                                 selected_gender selected_age_code))
                 target
        else target
    | None => target
    end in
  let with_pkg :=
    left_merge (fun k p => k_ftr_idn k =? fst p)
               (fun k p => (k, option_map snd p))
               target pkg_mapping in
  let with_digital :=
    left_merge (fun kp d => (k_month (fst kp) =? dg_month d)
                            && (k_ftr_idn (fst kp) =? dg_ftr_idn d))
               (fun kp d =>
                  let k := fst kp in
                  ({| ftr_idn := k_ftr_idn k;
                      shelter_type := k_shelter_type k;
                      media_type := k_media_type k;
                      package_type := snd kp;
                      stay_time := match d with
                                   | Some d => dg_stay_time d
                                   | None => nan
                                   end;
                      share_of_time := match d with
                                       | Some d => dg_share_of_time d
                                       | None => nan
                                       end;
                      rots := k_rots k; reach := k_reach k |},
                   k_shelter_name k))
               with_pkg digital in
  left_merge (fun rn s => ftr_idn (fst rn) =? sh_ftr_idn s)
             (fun rn s =>
                {| row := fst rn; shelter_name := snd rn;
                   longitude := match s with
                                | Some s => sh_longitude s
                                | None => nan
                                end;
                   latitude := match s with
                               | Some s => sh_latitude s
                               | None => nan
                               end;
                   grade := option_map sh_grade s |})
             with_digital shelter_info.

End Tables.

Arguments kpi_rec num : clear implicits.
Arguments digital_rec num : clear implicits.
Arguments shelter_rec num : clear implicits.
Arguments geo_row num : clear implicits.

(** ** The choice of a package and its storage (sections 3.1 and 3.2) *)

(** [needle in hay] on strings. *)
Fixpoint contains (needle hay : string) : bool :=
  String.prefix needle hay
  || match hay with
     | EmptyString => false
     | String _ hay' => contains needle hay'
     end.

(** [df.drop_duplicates(key)]: of the rows with one key, the first. *)
Fixpoint drop_duplicates {A : Type} (key : A -> string) (l : list A)
  : list A :=
  match l with
  | [] => []
  | a :: l' =>
      a :: filter (fun b => negb (key a =? key b)%string)
                  (drop_duplicates key l')
  end.

(** A row of the table [package]. *)
Record package_rec : Type := {
  package_name : string;
  pkg_type : string;          (* the column [package_type] *)
  pkg_ftr_idn : string
}.

Section PackageChoice.

Context {num : Type} `{PyNum num}.
Local Open Scope string_scope.

(** Lines 272-289: [pkg_mapping] and [pkg_shelters] for the chosen
    option. *)
Definition package_context (kpi : list (kpi_rec num))
    (package : list package_rec) (selected_month : string)
    (selected_package_option : string)
  : list (string * string) * list string :=
  if contains "전체 (" selected_package_option then
    let pkg_shelters :=
      unique string String.eqb
             (map k_ftr_idn
                  (filter (fun k => k_month k =? selected_month) kpi)) in
    (map (fun id => (id, if contains "디지털" selected_package_option
                         then "D" else "P"))
         pkg_shelters,
     pkg_shelters)
  else
    let pkg_filtered :=
      filter (fun p => package_name p =? selected_package_option) package in
    let pkg_mapping :=
      drop_duplicates fst
        (map (fun p => (pkg_ftr_idn p, pkg_type p)) pkg_filtered) in
    (pkg_mapping, unique string String.eqb (map fst pkg_mapping)).

(** Lines 291-314: the filters on installation type and media type, where
    ['전체'] stands for no filter. *)
Definition narrow_by_type (kpi : list (kpi_rec num))
    (selected_month : string) (pkg_shelters : list string)
    (selected_shelter_type selected_media_type : string) : list string :=
  if (0 <? List.length pkg_shelters)%nat then
    let ctx :=
      filter (fun k => (k_month k =? selected_month)
                       && existsb (String.eqb (k_ftr_idn k)) pkg_shelters)
             kpi in
    let ctx :=
      if negb (selected_shelter_type =? "전체")
      then filter (fun k => k_shelter_type k =? selected_shelter_type) ctx
      else ctx in
    let ctx :=
      if negb (selected_media_type =? "전체")
      then filter (fun k => k_media_type k =? selected_media_type) ctx
      else ctx in
    unique string String.eqb (map k_ftr_idn ctx)
  else pkg_shelters.

(** Lines 320-329: the search box.  [name_contains keyword name] is
    [str.contains(keyword, case=False, na=False)] of pandas on one name. *)
Definition narrow_by_search (name_contains : string -> string -> bool)
    (kpi : list (kpi_rec num)) (selected_month : string)
    (pkg_shelters : list string) (search_keyword : string) : list string :=
  if negb (search_keyword =? "") && (0 <? List.length pkg_shelters)%nat then
    unique string String.eqb
           (map k_ftr_idn
                (filter (fun k =>
                           (k_month k =? selected_month)
                           && existsb (String.eqb (k_ftr_idn k)) pkg_shelters
                           && name_contains search_keyword (k_shelter_name k))
                        kpi))
  else pkg_shelters.

(** Lines 253-331: [pkg_mapping] and [final_selected_idns] of package
    mode. *)
Definition package_selection (name_contains : string -> string -> bool)
    (kpi : list (kpi_rec num)) (package : list package_rec)
    (selected_month selected_package_option : string)
    (selected_shelter_type selected_media_type search_keyword : string)
  : list (string * string) * list string :=
  let ctx := package_context kpi package selected_month
                             selected_package_option in
  let pkg_shelters :=
    narrow_by_type kpi selected_month (snd ctx) selected_shelter_type
                   selected_media_type in
  (fst ctx,
   narrow_by_search name_contains kpi selected_month pkg_shelters
                    search_keyword).

End PackageChoice.

(** What the form that stores a package answers. *)
Inductive save_outcome : Type :=
| Saved | SaveFailed | NameExists | NameMissing | NotSubmitted.

(** [save_package_to_bq]: one row for every identifier, appended to the
    table when the load job succeeds ([job_ok]); the table is left as it is
    when the client is missing or the job fails. *)
Definition save_package_to_bq (job_ok : bool) (table : list package_rec)
    (pkg_name pkg_type0 : string) (id_list : list string)
  : bool * list package_rec :=
  if job_ok
  then (true,
        table ++ map (fun id => {| package_name := pkg_name;
                                   pkg_type := pkg_type0;
                                   pkg_ftr_idn := id |}) id_list)
  else (false, table).

(** Lines 371-386: the form.  [package] is the copy of the table the
    script has loaded ([None] when it has none), [table] the table itself. *)
Definition save_pkg_form (package : option (list package_rec))
    (table : list package_rec) (job_ok save_submitted : bool)
    (new_pkg_name real_pkg_type : string) (found : list string)
  : save_outcome * list package_rec :=
  if save_submitted then
    if negb (new_pkg_name =? "")%string then
      if match package with
         | Some p =>
             existsb (String.eqb new_pkg_name)
                     (unique string String.eqb (map package_name p))
         | None => false
         end
      then (NameExists, table)
      else
        let saved := save_package_to_bq job_ok table new_pkg_name
                                        real_pkg_type found in
        if fst saved then (Saved, snd saved) else (SaveFailed, snd saved)
    else (NameMissing, table)
  else (NotSubmitted, table).

(** ** More sample data *)

(** The identifiers 10567 and 10445 as typed text. *)
Definition sample_ids : list text :=
  [ [49; 48; 53; 54; 55]; [49; 48; 52; 52; 53] ]%N.

(** The two sample units with their adjusted values, in exact
    arithmetic. *)
Definition sample_merged : list (merged_row exact) :=
  apply_metrics mode_default sample_units.

(** Tables of one month with two units, the second without a digital
    record. *)
Definition sample_kpi : list (kpi_rec float) :=
  [ {| k_month := "202401"; k_ftr_idn := "10567";
       k_shelter_name := "강남역"; k_shelter_type := "가로변 쉘터";
       k_media_type := "디지털"; k_rots := lit 1000; k_reach := lit 500 |};
    {| k_month := "202401"; k_ftr_idn := "10445";
       k_shelter_name := "시청앞"; k_shelter_type := "환승센터";
       k_media_type := "포스터"; k_rots := lit 10; k_reach := lit 4 |} ]%string.

Definition sample_digital : list (digital_rec float) :=
  [ {| dg_month := "202401"; dg_ftr_idn := "10567";
       dg_stay_time := lit 10; dg_share_of_time := lit 0.2 |} ]%string.

Definition sample_shelter_info : list (shelter_rec float) :=
  [ {| sh_ftr_idn := "10567"; sh_longitude := lit 127.03;
       sh_latitude := lit 37.5; sh_grade := "A" |} ]%string.

Definition sample_pkg_mapping : list (string * string) :=
  [ ("10567", "D"); ("10445", "D") ]%string.

Definition sample_geo : list (geo_row float) :=
  merged sample_kpi sample_digital sample_shelter_info None
         sample_pkg_mapping "202401" ["10567"; "10445"]%string "전체" 0.

(** A package table in which one identifier of a package occurs twice,
    with different types. *)
Definition sample_package : list package_rec :=
  [ {| package_name := "강남D"; pkg_type := "D"; pkg_ftr_idn := "10567" |};
    {| package_name := "뷰티"; pkg_type := "P"; pkg_ftr_idn := "10445" |};
    {| package_name := "강남D"; pkg_type := "P"; pkg_ftr_idn := "10567" |} ]%string.

(** A record of a unit that is not displayed, and one displayed row. *)
Definition sample_cut_record : demo_row float :=
  {| demo_month := "202401"; demo_ftr_idn := "10445"; gender := "F";
     age := 2; demo_rots := lit 10; demo_reach := lit 4 |}%string.

Definition sample_shown : list (merged_row float) :=
  apply_metrics mode_default
                [scenario_unit "10567" "가로변 쉘터" "디지털" (lit 0.2)].

(** The first row of a sample table, for [nth]. *)
Definition hd_default (l : list (merged_row exact)) : merged_row exact :=
  hd {| base := rounding_unit; adj_rots := nan; adj_reach := nan |} l.

Definition hd_geo (l : list (geo_row float)) : geo_row float :=
  hd {| row := rounding_unit; shelter_name := ""; longitude := nan;
        latitude := nan; grade := None |} l.

(** ** The map of the main dashboard (lines 154-228 and 586-613) *)

Section MapView.

Context {num : Type} `{PyNum num}.

(** The format [f"{x:,.0f}"] of the two totals a marker shows. *)
Variable fmt : num -> string.

(** A row of [final_df]: a row of [merged] with its adjusted values. *)
Record final_row : Type := {
  f_geo : geo_row num;
  f_adj_rots : num;
  f_adj_reach : num
}.

(** [final_df[[...]].dropna(subset=['latitude', 'longitude'])] *)
Definition map_df (final_df : list final_row) : list final_row :=
  filter (fun r => negb (isnull (latitude (f_geo r)))
                   && negb (isnull (longitude (f_geo r))))
         final_df.

(** An entry of [k_data], the [pos] of the page. *)
Record position : Type := {
  pos_lat : num;
  pos_lng : num;
  pos_name : string;
  pos_color : string;
  pos_rots : string;
  pos_reach : string
}.

Definition k_data (map_df : list final_row) : list position :=
  map (fun r =>
         {| pos_lat := latitude (f_geo r);
            pos_lng := longitude (f_geo r);
            pos_name := shelter_name (f_geo r);
            pos_color := get_color_by_type (shelter_type (row (f_geo r)));
            pos_rots := fmt (f_adj_rots r);
            pos_reach := fmt (f_adj_reach r) |})
      map_df.

(** [Series.mean()]: the sum of the cells that are present over their
    number, NaN when none is present. *)
Definition pd_mean (col : list num) : num :=
  let present := filter (fun x => negb (isnull x)) col in
  if is_empty present then nan
  else (pd_sum col / lit (inject_Z (Z.of_nat (List.length present))))%num.

Definition clat (final_df : list final_row) : num :=
  if negb (is_empty (map_df final_df))
  then pd_mean (map (fun r => latitude (f_geo r)) (map_df final_df))
  else lit 37.5665.

Definition clon (final_df : list final_row) : num :=
  if negb (is_empty (map_df final_df))
  then pd_mean (map (fun r => longitude (f_geo r)) (map_df final_df))
  else lit 126.9780.

Definition czoom (final_df : list final_row) : Z :=
  if negb (is_empty (map_df final_df)) then 7%Z else 9%Z.

(** The page of [render_kakao_map]: the level of the map and its circles,
    one per position, in the order of [positions.forEach]. *)
Record circle : Type := {
  center : num * num;
  radius : Z;
  fillColor : string
}.

Record map_page : Type := {
  map_center : num * num;
  level : Z;
  circles : list circle
}.

Definition render_kakao_map (lat lon : num) (zoom_level : Z)
    (data : list position) : map_page :=
  {| map_center := (lat, lon);
     level := zoom_level;
     circles :=
       map (fun pos =>
              {| center := (pos_lat pos, pos_lng pos);
                 radius := getRadiusByLevel zoom_level;
                 fillColor := pos_color pos |})
           data |}.

(** The listener of [zoom_changed]: every circle gets the radius of the
    level the map is at. *)
Definition zoom_changed (page : map_page) : map_page :=
  {| map_center := map_center page;
     level := level page;
     circles :=
       map (fun c =>
              {| center := center c;
                 radius := getRadiusByLevel (level page);
                 fillColor := fillColor c |})
           (circles page) |}.

(** A change of the zoom: the map takes the new level and calls the
    listener. *)
Definition zoom_to (page : map_page) (new_level : Z) : map_page :=
  zoom_changed {| map_center := map_center page;
                  level := new_level;
                  circles := circles page |}.

Definition zooms (page : map_page) (levels : list Z) : map_page :=
  fold_left zoom_to levels page.

End MapView.

Arguments final_row num : clear implicits.
Arguments position num : clear implicits.
Arguments circle num : clear implicits.
Arguments map_page num : clear implicits.

(** Displayed rows for the map: one unit with a place, one without. *)
Definition sample_final {num : Type} `{PyNum num} : list (final_row num) :=
  [ {| f_geo := {| row := rounding_unit; shelter_name := "A";
                   longitude := lit 127; latitude := lit 37;
                   grade := None |};
       f_adj_rots := lit 10; f_adj_reach := lit 4 |};
    {| f_geo := {| row := rounding_unit; shelter_name := "B";
                   longitude := nan; latitude := nan; grade := None |};
       f_adj_rots := lit 10; f_adj_reach := lit 4 |};
    {| f_geo := {| row := rounding_unit; shelter_name := "C";
                   longitude := lit 126; latitude := lit 38;
                   grade := None |};
       f_adj_rots := lit 10; f_adj_reach := lit 4 |} ]%string.

(** The sample tables as displayed rows: the unit 10445 has no record in
    [shelter_info]. *)
Definition sample_final_geo : list (final_row float) :=
  map (fun g =>
         {| f_geo := g;
            f_adj_rots := fst (calculate_metrics_row mode_default (row g));
            f_adj_reach := snd (calculate_metrics_row mode_default (row g)) |})
      sample_geo.

Definition hd_final (l : list (final_row float)) : final_row float :=
  hd {| f_geo := hd_geo []; f_adj_rots := nan; f_adj_reach := nan |} l.
(** * Properties *)

(** ** The per-unit adjustment *)

Section Adjuster.

Context {num : Type} `{PyNum num}.
Local Open Scope num_scope.
Local Open Scope string_scope.

Lemma mode_other_than (calc_mode m : string) :
  calc_mode <> m -> (calc_mode =? m) = false.
Proof. intro Hne. now apply String.eqb_neq. Qed.

(** With the formula switched off every row passes through. *)
Lemma no_digital_formula_is_identity (row : kpi_row num) :
  calculate_metrics_row mode_no_digital_formula row = (rots row, reach row).
Proof. reflexivity. Qed.

(** C4. A poster on a tourist information board gets half of both raw
    values under every calculation option but the one that switches the
    formula off, whatever its package type, stay time and share: Case A is
    decided before the digital branch is looked at. *)
Theorem tourist_info_panel_poster_halved
    (calc_mode : string) (row : kpi_row num) :
  calc_mode <> mode_no_digital_formula ->
  shelter_type row = "관광안내판" ->
  media_type row = "포스터" ->
  calculate_metrics_row calc_mode row
  = (rots row / lit 2, reach row / lit 2).
Proof.
  intros Hmode Hs Hm. unfold calculate_metrics_row.
  rewrite (mode_other_than _ _ Hmode), Hs, Hm.
  reflexivity.
Qed.

(** On the rows of the digital branch both raw values are multiplied, from
    the left, by the time factor, the share and 0.5. *)
Lemma digital_formula_used_eq (calc_mode : string) (row : kpi_row num) :
  digital_formula_used calc_mode row = true ->
  calculate_metrics_row calc_mode row
  = (time_factor (stay_time row) * rots row
       * share_used calc_mode row * lit 0.5,
     time_factor (stay_time row) * reach row
       * share_used calc_mode row * lit 0.5).
Proof.
  unfold digital_formula_used, calculate_metrics_row.
  intros Hused. repeat (apply andb_prop in Hused as [Hused ?]).
  apply negb_true_iff in Hused. rewrite Hused.
  match goal with Ha : negb (_ && _) = true |- _ =>
    apply negb_true_iff in Ha; rewrite Ha end.
  match goal with Hb : apply_digital_formula row = true |- _ =>
    rewrite Hb end.
  match goal with Hc : negb (isnull _) = true |- _ => rewrite Hc end.
  reflexivity.
Qed.

(** A row of the digital branch without a stay time passes through. *)
Lemma missing_stay_time_passes_through (calc_mode : string)
    (row : kpi_row num) :
  (shelter_type row =? "관광안내판") && (media_type row =? "포스터") = false ->
  isnull (stay_time row) = true ->
  calculate_metrics_row calc_mode row = (rots row, reach row).
Proof.
  intros HA Hstay. unfold calculate_metrics_row. rewrite HA, Hstay.
  destruct (calc_mode =? mode_no_digital_formula); [reflexivity |].
  now destruct (apply_digital_formula row).
Qed.

(** C10. Under the full-slot option the outcome does not depend on the
    cell [share_of_time]: two rows that differ in nothing else, one of which
    may hold NaN there, get the same pair, and the share that enters the
    formula is the constant 0.05. *)
Theorem full_slot_ignores_share_of_time
    (id s_type m_type : string) (pkg : option string)
    (stay share1 share2 k_rots k_reach : num) :
  let row1 := {| ftr_idn := id; shelter_type := s_type; media_type := m_type;
                 package_type := pkg; stay_time := stay;
                 share_of_time := share1; rots := k_rots; reach := k_reach |} in
  let row2 := {| ftr_idn := id; shelter_type := s_type; media_type := m_type;
                 package_type := pkg; stay_time := stay;
                 share_of_time := share2; rots := k_rots; reach := k_reach |} in
  calculate_metrics_row mode_digital_full_slot row1
  = calculate_metrics_row mode_digital_full_slot row2
  /\ share_used mode_digital_full_slot row1 = lit 0.05
  /\ share_used mode_digital_full_slot row2 = lit 0.05.
Proof.
  repeat split.
Qed.

End Adjuster.

(** The literals of the scenarios are the binary64 numbers Rocq reads from
    the same decimals. *)
Lemma float_literals :
  (lit 0.05 : float) = 0.05%float /\ (lit 0.5 : float) = 0.5%float
  /\ (lit 1.3 : float) = 1.3%float /\ (lit 0.2 : float) = 0.2%float
  /\ (lit 32.5 : float) = 32.5%float /\ (lit 16.25 : float) = 16.25%float
  /\ (lit 0.5430 : float) = 0.543%float.
Proof. repeat split. Qed.

(** C9. In binary64, as the script computes: stay time 10 gives the time
    factor 1.3; with share 0.2 and package type D the row (1000, 500)
    becomes (130, 65) under the default option and (32.5, 16.25) under the
    full-slot option. *)
Theorem digital_formula_scenario (id s_type m_type : string) :
  ((s_type =? "관광안내판") && (m_type =? "포스터"))%string = false ->
  let unit := scenario_unit id s_type m_type (lit 0.2) in
  time_factor (stay_time unit) = lit 1.3
  /\ calculate_metrics_row mode_default unit = (lit 130, lit 65)
  /\ calculate_metrics_row mode_digital_full_slot unit
     = (lit 32.5, lit 16.25).
Proof.
  intros HA unit. unfold calculate_metrics_row.
  cbn [shelter_type media_type unit scenario_unit].
  rewrite HA. repeat split.
Qed.

Lemma digital_formula_scenario_witness :
  let unit := scenario_unit "10567" "가로변 쉘터" "디지털" (lit 0.2) in
  time_factor (stay_time unit) = lit 1.3
  /\ calculate_metrics_row mode_default unit = (lit 130, lit 65)
  /\ calculate_metrics_row mode_digital_full_slot unit
     = (lit 32.5, lit 16.25).
Proof.
  apply (digital_formula_scenario "10567" "가로변 쉘터" "디지털").
  reflexivity.
Defined.

Lemma tourist_info_panel_poster_halved_witness :
  calculate_metrics_row mode_digital_full_slot tourist_unit
  = (fdiv (rots tourist_unit) (lit 2), fdiv (reach tourist_unit) (lit 2)).
Proof.
  apply (tourist_info_panel_poster_halved mode_digital_full_slot
           tourist_unit).
  - discriminate.
  - reflexivity.
  - reflexivity.
Defined.

(** C2, as the code behaves.  A row of the digital branch with its stay
    time present and its share missing, under the default option:
    [float(row['share_of_time'])] is NaN and so are both products.  The raw
    pair (1000, 500) is not returned. *)
Theorem missing_share_of_time_yields_nan :
  let unit := scenario_unit "10567" "가로변 쉘터" "포스터" nan in
  apply_digital_formula unit = true
  /\ isnull (stay_time unit) = false
  /\ isnull (share_of_time unit) = true
  /\ calculate_metrics_row mode_default unit = (nan, nan)
  /\ PrimFloat.eqb (fst (calculate_metrics_row mode_default unit))
                   (rots unit) = false
  /\ PrimFloat.eqb (snd (calculate_metrics_row mode_default unit))
                   (reach unit) = false.
Proof. repeat split. Qed.

(** ** NaN in binary64 *)

(** A binary64 number is NaN exactly when its specification is. *)
Lemma float_is_nan_spec (x : float) :
  PrimFloat.is_nan x = true <-> Prim2SF x = S754_nan.
Proof.
  unfold PrimFloat.is_nan. rewrite FloatAxioms.eqb_spec, negb_true_iff.
  destruct (Prim2SF x) as [s | s | | s m e]; cbn.
  - split; discriminate.
  - destruct s; split; discriminate.
  - split; reflexivity.
  - unfold SFeqb, SFcompare.
    rewrite Z.compare_refl, Pos.compare_cont_refl.
    destruct s; split; discriminate.
Qed.

(** NaN is absorbing for the product. *)
Lemma float_mul_nan (x y : float) :
  PrimFloat.is_nan x = true \/ PrimFloat.is_nan y = true ->
  PrimFloat.is_nan (PrimFloat.mul x y) = true.
Proof.
  rewrite !float_is_nan_spec, FloatAxioms.mul_spec.
  intros [-> | ->]; [reflexivity |].
  now destruct (Prim2SF x).
Qed.

(** The defect behind C2 on every row, in binary64: where the digital
    formula is evaluated with the share read from the row, a missing share
    makes both adjusted values NaN. *)
Lemma missing_share_of_time_nan_everywhere (calc_mode : string)
    (row : kpi_row float) :
  digital_formula_used calc_mode row = true ->
  calc_mode <> mode_digital_full_slot ->
  isnull (share_of_time row) = true ->
  isnull (fst (calculate_metrics_row calc_mode row)) = true
  /\ isnull (snd (calculate_metrics_row calc_mode row)) = true.
Proof.
  intros Hused Hmode Hshare.
  rewrite (digital_formula_used_eq _ _ Hused). cbn [fst snd].
  unfold share_used. rewrite (mode_other_than _ _ Hmode).
  split; apply float_mul_nan; left; apply float_mul_nan; right; exact Hshare.
Qed.

(** ** The correction factor *)

Section Resolver.

Context {num : Type} `{PyNum num}.
Local Open Scope nat_scope.
Local Open Scope string_scope.

(** The two resolutions are one function of the number of rows. *)
Lemma cur_correction_eq (n : nat) (filter_mode selected : string)
    (factor_df : option (list (factor_row num))) :
  cur_correction n filter_mode selected factor_df
  = correction_val n filter_mode selected factor_df.
Proof. reflexivity. Qed.

Ltac one_resolution :=
  change (@cur_correction) with (@correction_val) in *.

Lemma dict_getitem_of_get {V : Type} (d : list (string * V)) (k : string)
    (v : V) :
  dict_get d k = Some v -> dict_mem d k = true /\ dict_getitem d k = Ok v.
Proof. unfold dict_mem, dict_getitem. now intros ->. Qed.

(** A key that is in the dictionary can be read. *)
Lemma dict_getitem_of_mem {V : Type} (d : list (string * V)) (k : string) :
  dict_mem d k = true -> exists v, dict_getitem d k = Ok v.
Proof.
  unfold dict_mem, dict_getitem.
  destruct (dict_get d k) as [v|]; [now exists v | discriminate].
Qed.

(** The maximum of the quantity column bounds the column and is the
    quantity of one of the rows. *)
Lemma fold_max_spec (l : list nat) (a : nat) :
  let m := fold_left Nat.max l a in
  (a <= m /\ Forall (fun x => x <= m) l) /\ (m = a \/ In m l).
Proof.
  revert a. induction l as [|x l IH]; intros a; cbn.
  - repeat split; auto.
  - destruct (IH (Nat.max a x)) as [[Ha Hl] Hin]. repeat split.
    + lia.
    + constructor; [lia | exact Hl].
    + destruct Hin as [-> | Hin]; [| now right; right].
      destruct (Nat.max_spec a x) as [[_ ->] | [_ ->]]; auto.
Qed.

Lemma quantity_max_attained (df : list (factor_row num)) (m : nat) :
  quantity_max df = Some m ->
  exists r, In r df /\ quantity r = m.
Proof.
  destruct df as [|r rs]; [discriminate |]. cbn. intros [= <-].
  destruct (fold_max_spec (map quantity rs) (quantity r)) as [_ [-> | Hin]].
  - exists r. auto.
  - apply in_map_iff in Hin as (r' & Hq & Hin). exists r'. auto.
Qed.

Lemma quantity_max_bounds (df : list (factor_row num)) (m : nat) :
  quantity_max df = Some m ->
  Forall (fun r => quantity r <= m) df.
Proof.
  destruct df as [|r rs]; [discriminate |]. cbn. intros [= <-].
  destruct (fold_max_spec (map quantity rs) (quantity r)) as [[Ha Hl] _].
  constructor; [exact Ha |].
  rewrite Forall_map in Hl. exact Hl.
Qed.

(** The first matching row is what [values[0]] reads. *)
Lemma found_val_find (df : list (factor_row num)) (q : nat) :
  match find (fun r => (quantity r =? q)%nat) df with
  | Some r => exists rest, found_val df q = correction_factor r :: rest
  | None => found_val df q = []
  end.
Proof.
  unfold found_val. induction df as [|r df IH]; cbn; [reflexivity |].
  destruct (quantity r =? q)%nat; cbn; [now eexists | exact IH].
Qed.

(** The resolution behind the named override, spelled out. *)
Lemma correction_val_by_quantity (n : nat) (filter_mode selected : string)
    (df : list (factor_row num)) :
  0 < n ->
  (filter_mode =? "패키지") && dict_mem region_pkg_weights selected = false ->
  correction_val n filter_mode selected (Some df)
  = match find (fun r => (quantity r =? lookup_qty n (quantity_max df))%nat) df
    with
    | Some r => Ok (correction_factor r)
    | None => Ok (lit 0)
    end.
Proof.
  intros Hn Hover. unfold correction_val.
  apply Nat.ltb_lt in Hn. rewrite Hn, Hover. cbv zeta.
  pose proof (found_val_find df (lookup_qty n (quantity_max df))) as Hf.
  destruct (find _ df) as [r|].
  - destruct Hf as [rest ->]. reflexivity.
  - rewrite Hf. reflexivity.
Qed.

(** C5, as the code has it.  On a selection that is not empty, a package
    name of [region_pkg_weights] chosen in package mode gives its fixed
    weight, in both resolutions and whatever the correction table holds;
    for ["강남D"] the weight is 0.5430. *)
Theorem named_package_override (n : nat) (selected : string) (w : num)
    (factor_df : option (list (factor_row num))) :
  0 < n ->
  dict_get region_pkg_weights selected = Some w ->
  correction_val n "패키지" selected factor_df = Ok w
  /\ cur_correction n "패키지" selected factor_df = Ok w
  /\ dict_get region_pkg_weights "강남D" = Some (lit 0.5430).
Proof.
  intros Hn Hw. one_resolution.
  destruct (dict_getitem_of_get _ _ _ Hw) as [Hmem Hget].
  assert (correction_val n "패키지" selected factor_df = Ok w) as Hc.
  { unfold correction_val. apply Nat.ltb_lt in Hn. rewrite Hn.
    rewrite String.eqb_refl, Hmem. exact Hget. }
  repeat split; exact Hc.
Qed.

(** C6. Without a named override, a selection larger than the largest
    quantity of the table gets the factor of the first row that holds this
    largest quantity. *)
Theorem correction_capped_at_max_quantity (n m : nat)
    (filter_mode selected : string) (df : list (factor_row num)) :
  (filter_mode =? "패키지") && dict_mem region_pkg_weights selected = false ->
  quantity_max df = Some m ->
  m < n ->
  lookup_qty n (quantity_max df) = m
  /\ exists r,
       find (fun r => (quantity r =? m)%nat) df = Some r
       /\ quantity r = m
       /\ correction_val n filter_mode selected (Some df)
          = Ok (correction_factor r)
       /\ cur_correction n filter_mode selected (Some df)
          = Ok (correction_factor r).
Proof.
  intros Hover Hmax Hlt.
  assert (lookup_qty n (quantity_max df) = m) as Hq.
  { rewrite Hmax. unfold lookup_qty.
    now rewrite (proj2 (Nat.ltb_lt m n) Hlt). }
  split; [exact Hq |].
  one_resolution. rewrite correction_val_by_quantity by (auto; lia).
  rewrite Hq.
  destruct (quantity_max_attained df m Hmax) as (r0 & Hin & Hr0).
  destruct (find (fun r => (quantity r =? m)%nat) df) as [r|] eqn:Hfind.
  - exists r. apply find_some in Hfind as [_ Hr]. apply Nat.eqb_eq in Hr.
    auto.
  - exfalso. apply (find_none _ _ Hfind) in Hin.
    rewrite Hr0, Nat.eqb_refl in Hin. discriminate.
Qed.

(** C7. The resolution never raises.  It answers 0 on an empty selection,
    and 0 when it reaches the table and no row holds the capped quantity. *)
Theorem correction_degenerate_and_gap (n : nat)
    (filter_mode selected : string)
    (factor_df : option (list (factor_row num))) :
  (exists v, correction_val n filter_mode selected factor_df = Ok v
             /\ cur_correction n filter_mode selected factor_df = Ok v)
  /\ (n = 0 -> correction_val n filter_mode selected factor_df = Ok (lit 0))
  /\ (forall df,
        factor_df = Some df ->
        0 < n ->
        (filter_mode =? "패키지") && dict_mem region_pkg_weights selected
        = false ->
        found_val df (lookup_qty n (quantity_max df)) = [] ->
        correction_val n filter_mode selected factor_df = Ok (lit 0)).
Proof.
  split; [| split].
  - one_resolution. unfold correction_val.
    destruct (0 <? n)%nat; [| now eexists].
    destruct (filter_mode =? "패키지"); cbn [andb].
    + destruct (dict_mem region_pkg_weights selected) eqn:Hmem.
      * destruct (dict_getitem_of_mem _ _ Hmem) as [v ->]. now exists v.
      * destruct factor_df as [df|]; [| now eexists]. cbv zeta.
        destruct (found_val df _); cbn; now eexists.
    + destruct factor_df as [df|]; [| now eexists]. cbv zeta.
      destruct (found_val df _); cbn; now eexists.
  - intros ->. reflexivity.
  - intros df -> Hn Hover Hgap. unfold correction_val.
    apply Nat.ltb_lt in Hn. rewrite Hn, Hover. cbv zeta.
    rewrite Hgap. reflexivity.
Qed.

End Resolver.

(** The claim that the named weight is returned for every selection size
    fails on the empty selection: the test on the number of rows comes
    first, and the factor is 0 there, in both resolutions. *)
Lemma named_package_on_empty_selection :
  dict_get region_pkg_weights "강남D" = Some (lit 0.5430 : float)
  /\ correction_val 0 "패키지" "강남D" (Some sample_factor_df)
     = Ok (lit 0 : float)
  /\ cur_correction 0 "패키지" "강남D" (Some sample_factor_df)
     = Ok (lit 0 : float)
  /\ PrimFloat.eqb (lit 0) (lit 0.5430) = false.
Proof. repeat split. Qed.

Lemma named_package_override_witness :
  correction_val 2 "패키지" "강남D" (Some sample_factor_df)
  = Ok (lit 0.5430 : float)
  /\ cur_correction 2 "패키지" "강남D" (Some sample_factor_df)
     = Ok (lit 0.5430 : float)
  /\ dict_get region_pkg_weights "강남D" = Some (lit 0.5430 : float).
Proof.
  apply (named_package_override 2 "강남D" (lit 0.5430 : float)
           (Some sample_factor_df)).
  - lia.
  - reflexivity.
Defined.

Lemma correction_capped_at_max_quantity_witness :
  lookup_qty 9 (quantity_max (sample_factor_df (num := float))) = 4
  /\ exists r : factor_row float,
       find (fun r => (quantity r =? 4)%nat) sample_factor_df = Some r
       /\ quantity r = 4
       /\ correction_val 9 "패키지" "전체 (디지털)" (Some sample_factor_df)
          = Ok (correction_factor r)
       /\ cur_correction 9 "패키지" "전체 (디지털)" (Some sample_factor_df)
          = Ok (correction_factor r).
Proof.
  apply (correction_capped_at_max_quantity 9 4 "패키지" "전체 (디지털)"
           (sample_factor_df (num := float))).
  - reflexivity.
  - reflexivity.
  - lia.
Defined.

(** The sample table has no row for 3 units. *)
Lemma correction_degenerate_and_gap_witness :
  correction_val 3 "관심 매체" "" (Some sample_factor_df)
  = Ok (lit 0 : float).
Proof.
  apply (proj2 (proj2 (correction_degenerate_and_gap
                         3 "관심 매체" "" (Some sample_factor_df)))
           sample_factor_df).
  - reflexivity.
  - lia.
  - reflexivity.
  - reflexivity.
Defined.

(** ** Frequency *)

(** A binary64 number greater than zero is not a zero. *)
Lemma float_gt_zero_nonzero (y : float) :
  PrimFloat.ltb PrimFloat.zero y = true ->
  PrimFloat.eqb y PrimFloat.zero = false.
Proof.
  rewrite FloatAxioms.ltb_spec, FloatAxioms.eqb_spec.
  replace (Prim2SF PrimFloat.zero) with (S754_zero false) by reflexivity.
  destruct (Prim2SF y) as [s | s | | s m e]; cbn; try discriminate;
    destruct s; auto.
Qed.

Lemma exact_gt_zero_nonzero (y : exact) :
  fgt y (lit 0) = true -> fis0 y = false.
Proof.
  destruct y as [q|]; cbn; [| reflexivity].
  intros Hgt. apply negb_true_iff in Hgt.
  destruct (Qeq_bool q 0) eqn:Hz; [| reflexivity].
  apply Qeq_bool_iff in Hz.
  assert (Qle_bool q 0%Q = true) as Hle.
  { apply Qle_bool_iff. rewrite Hz. apply Qle_refl. }
  congruence.
Qed.

(** C8. The frequency is the quotient of the two totals when the corrected
    reach is positive and 0 otherwise, and its division never raises: in
    binary64, in exact arithmetic, and in particular on the empty selection,
    whose correction factor and corrected reach are 0. *)
Theorem frequency_guarded :
  (forall rots_total reach_total : float,
      freq rots_total reach_total
      = Ok (if fgt reach_total (lit 0) then fdiv rots_total reach_total
            else lit 0))
  /\ (forall rots_total reach_total : exact,
         freq rots_total reach_total
         = Ok (if fgt reach_total (lit 0) then fdiv rots_total reach_total
               else lit 0))
  /\ (forall (filter_mode selected : string)
             (factor_df : option (list (factor_row float))),
         let final_df : list (merged_row float) := [] in
         cur_correction (List.length final_df) filter_mode selected factor_df
         = Ok (lit 0)
         /\ final_cur_reach final_df (lit 0) = lit 0
         /\ freq (cur_rots final_df) (final_cur_reach final_df (lit 0))
            = Ok (lit 0)).
Proof.
  split; [| split].
  - intros x y. unfold freq, py_truediv.
    destruct (fgt y (lit 0)) eqn:Hgt; [| reflexivity].
    cbn in Hgt |- *. now rewrite (float_gt_zero_nonzero y Hgt).
  - intros x y. unfold freq, py_truediv.
    destruct (fgt y (lit 0)) eqn:Hgt; [| reflexivity].
    now rewrite (exact_gt_zero_nonzero y Hgt).
  - intros. repeat split.
Qed.

(** ** Exact arithmetic *)

Section ExactNumbers.

Local Open Scope num_scope.

Lemma exact_mul_some (a b : Qc) :
  (Some a : exact) * Some b = Some (a * b)%Qc.
Proof. reflexivity. Qed.

Lemma exact_div_some (a b : Qc) :
  Qeq_bool b 0 = false -> (Some a : exact) / Some b = Some (a / b)%Qc.
Proof. intros Hb. cbn. unfold exact_div. now rewrite Hb. Qed.

Lemma Qeq_bool_false_neq (b : Qc) : Qeq_bool b 0 = false -> b <> Q2Qc 0.
Proof. intros Hb ->. cbn in Hb. discriminate. Qed.

Lemma exact_gt_some (x : exact) :
  fgt x (lit 0) = true -> exists q, x = Some q /\ Qeq_bool q 0 = false.
Proof.
  intros Hgt. pose proof (exact_gt_zero_nonzero x Hgt) as Hz.
  destruct x as [q|]; [| discriminate]. now exists q.
Qed.

Lemma exact_notnull (x : exact) : isnull x = false -> exists q, x = Some q.
Proof. destruct x as [q|]; [now exists q | discriminate]. Qed.

(** The time factor of a stay time that is present is a number. *)
Lemma time_factor_some (st : Qc) :
  exists tf, time_factor (Some st : exact) = Some tf.
Proof.
  unfold time_factor, py_max.
  destruct (fgt _ _); cbn; eexists; reflexivity.
Qed.

(** C3, as amended.  On a row of the digital branch whose share is present
    (the constant of the full-slot option, or a cell that is not NaN) and
    whose raw values are positive, the two quotients adjusted / raw are, in
    exact arithmetic, one number: time factor * share * 0.5. *)
Theorem adjustment_ratio_exact (calc_mode : string) (row : kpi_row exact) :
  digital_formula_used calc_mode row = true ->
  isnull (share_used calc_mode row) = false ->
  fgt (rots row) (lit 0) = true ->
  fgt (reach row) (lit 0) = true ->
  let m := calculate_metrics_row calc_mode row in
  let scale :=
    time_factor (stay_time row) * share_used calc_mode row * lit 0.5 in
  isnull scale = false
  /\ snd m / reach row = scale
  /\ fst m / rots row = scale.
Proof.
  intros Hused Hshare Hrots Hreach m scale. subst m scale.
  rewrite (digital_formula_used_eq _ _ Hused). cbn [fst snd].
  assert (isnull (stay_time row) = false) as Hstay.
  { unfold digital_formula_used in Hused.
    apply andb_prop in Hused as [_ Hs]. now apply negb_true_iff in Hs. }
  destruct (exact_notnull _ Hstay) as [st ->].
  destruct (exact_notnull _ Hshare) as [s ->].
  destruct (exact_gt_some _ Hrots) as (r & -> & Hr).
  destruct (exact_gt_some _ Hreach) as (c & -> & Hc).
  destruct (time_factor_some st) as [tf ->].
  change (lit 0.5 : exact) with (Some (Q2Qc 0.5)).
  rewrite !exact_mul_some, !exact_div_some by assumption.
  apply Qeq_bool_false_neq in Hr, Hc.
  repeat split; f_equal; field; assumption.
Qed.

Lemma adjustment_ratio_exact_witness :
  isnull (time_factor (stay_time (rounding_unit (num := exact)))
          * share_used mode_default rounding_unit * lit 0.5) = false
  /\ snd (calculate_metrics_row mode_default rounding_unit)
       / reach (rounding_unit (num := exact))
     = time_factor (stay_time rounding_unit)
       * share_used mode_default rounding_unit * lit 0.5
  /\ fst (calculate_metrics_row mode_default rounding_unit)
       / rots (rounding_unit (num := exact))
     = time_factor (stay_time rounding_unit)
       * share_used mode_default rounding_unit * lit 0.5.
Proof.
  apply (adjustment_ratio_exact mode_default rounding_unit); reflexivity.
Defined.

(** In binary64 the two quotients of C3 need not agree.  On the unit with
    stay time 1, share 0.1 and raw values (3, 1) under the default option,
    the reach quotient is 0.05, the common scale, and the ROTS quotient is
    the next binary64 number above it: Python's [==] answers False. *)
Lemma adjustment_ratio_rounds_apart :
  let unit : kpi_row float := rounding_unit in
  let m := calculate_metrics_row mode_default unit in
  digital_formula_used mode_default unit = true
  /\ fgt (rots unit) (lit 0) = true
  /\ fgt (reach unit) (lit 0) = true
  /\ time_factor (stay_time unit) * share_used mode_default unit * lit 0.5
     = 0.05%float
  /\ snd m / reach unit = 0.05%float
  /\ fst m / rots unit = 0.05000000000000001%float
  /\ PrimFloat.eqb (snd m / reach unit) (fst m / rots unit) = false.
Proof. repeat split. Qed.

End ExactNumbers.

Section ExactSums.

Local Open Scope Qc_scope.

Lemma qsum_zero {A : Type} (l : list A) :
  qsum (map (fun _ => 0) l) = 0.
Proof. induction l as [|a l IH]; cbn; [reflexivity | rewrite IH; ring]. Qed.

Lemma qsum_add {A : Type} (f g : A -> Qc) (l : list A) :
  qsum (map (fun a => f a + g a) l) = qsum (map f l) + qsum (map g l).
Proof. induction l as [|a l IH]; cbn; [ring | rewrite IH; ring]. Qed.

Lemma qsum_scale {A : Type} (c : Qc) (f : A -> Qc) (l : list A) :
  qsum (map (fun a => f a * c) l) = qsum (map f l) * c.
Proof. induction l as [|a l IH]; cbn; [ring | rewrite IH; ring]. Qed.

Lemma qsum_ext {A : Type} (f g : A -> Qc) (l : list A) :
  (forall a, In a l -> f a = g a) ->
  qsum (map f l) = qsum (map g l).
Proof.
  induction l as [|a l IH]; cbn; intros Hfg; [reflexivity |].
  rewrite (Hfg a), IH; auto.
Qed.

Lemma qsum_filter {A : Type} (p : A -> bool) (f : A -> Qc) (l : list A) :
  qsum (map f (filter p l)) = qsum (map (fun a => if p a then f a else 0) l).
Proof.
  induction l as [|a l IH]; cbn; [reflexivity |].
  destruct (p a); cbn; rewrite IH; ring.
Qed.

Lemma qsum_flat_map {A B : Type} (g : A -> list B) (f : B -> Qc)
    (l : list A) :
  qsum (map f (flat_map g l)) = qsum (map (fun a => qsum (map f (g a))) l).
Proof.
  induction l as [|a l IH]; cbn; [reflexivity |].
  rewrite map_app, <- IH.
  induction (g a) as [|b bs IHb]; cbn; [ring | rewrite IHb; ring].
Qed.

(** Summing over the pairs that satisfy [p], rows first or columns first. *)
Lemma qsum_swap {A B : Type} (p : A -> B -> bool) (F : A -> B -> Qc)
    (la : list A) (lb : list B) :
  qsum (map (fun a => qsum (map (F a) (filter (p a) lb))) la)
  = qsum (map (fun b => qsum (map (fun a => F a b)
                                  (filter (fun a => p a b) la))) lb).
Proof.
  induction la as [|a la IH]; cbn.
  - now rewrite qsum_zero.
  - rewrite IH, qsum_filter, <- qsum_add.
    apply qsum_ext. intros b _.
    destruct (p a b); cbn; ring.
Qed.

Section Regroup.

Variables (K A : Type) (keqb : K -> K -> bool).
Hypothesis keqb_eq : forall x y, keqb x y = true <-> x = y.

Lemma qsum_indicator (x : K) (v : Qc) (ks : list K) :
  NoDup ks -> In x ks ->
  qsum (map (fun k => if keqb x k then v else 0) ks) = v.
Proof.
  induction 1 as [|k ks Hnotin Hnd IH]; cbn; [contradiction |].
  intros [-> | Hin].
  - rewrite (proj2 (keqb_eq x x) eq_refl).
    rewrite (qsum_ext _ (fun _ => 0)), qsum_zero; [ring |].
    intros k Hk. destruct (keqb x k) eqn:E; [| reflexivity].
    apply keqb_eq in E. now subst k.
  - destruct (keqb x k) eqn:E.
    + apply keqb_eq in E. now subst k.
    + rewrite IH by assumption. ring.
Qed.

(** The sums of the groups add up to the sum of the column. *)
Lemma qsum_groups (key : A -> K) (f : A -> Qc) (ks : list K)
    (rows : list A) :
  NoDup ks ->
  (forall r, In r rows -> In (key r) ks) ->
  qsum (map (fun k => qsum (map f (filter (fun r => keqb (key r) k) rows)))
            ks)
  = qsum (map f rows).
Proof.
  intros Hnd. induction rows as [|r rows IH]; intros Hkeys; cbn.
  - apply qsum_zero.
  - rewrite <- IH by (intros; apply Hkeys; now right).
    rewrite <- (qsum_indicator (key r) (f r) ks Hnd) at 1
      by (apply Hkeys; now left).
    rewrite <- qsum_add. apply qsum_ext. intros k _.
    destruct (keqb (key r) k); cbn; ring.
Qed.

Lemma unique_In (l : list K) (x : K) : In x (unique K keqb l) <-> In x l.
Proof.
  induction l as [|k l IH]; cbn; [tauto |].
  rewrite filter_In, IH. split.
  - intros [-> | [Hin _]]; auto.
  - intros [-> | Hin]; [now left |].
    destruct (keqb k x) eqn:E.
    + apply keqb_eq in E. now left.
    + right. now split.
Qed.

Lemma unique_NoDup (l : list K) : NoDup (unique K keqb l).
Proof.
  induction l as [|k l IH]; cbn; constructor.
  - rewrite filter_In. intros [_ Hk].
    rewrite (proj2 (keqb_eq k k) eq_refl) in Hk. discriminate.
  - now apply NoDup_filter.
Qed.

Variable kleb : K -> K -> bool.

Lemma insert_key_perm (k : K) (l : list K) :
  Permutation (insert_key K kleb k l) (k :: l).
Proof.
  induction l as [|x l IH]; cbn; [reflexivity |].
  destruct (kleb k x); [reflexivity |].
  rewrite IH. apply perm_swap.
Qed.

Lemma sort_keys_perm (l : list K) : Permutation (sort_keys K kleb l) l.
Proof.
  induction l as [|k l IH]; cbn; [reflexivity |].
  now rewrite insert_key_perm, IH.
Qed.

(** The keys of a grouping: each value of the column once. *)
Lemma group_keys_spec (l : list K) :
  let ks := sort_keys K kleb (unique K keqb l) in
  NoDup ks /\ forall x, In x l -> In x ks.
Proof.
  cbv zeta. split.
  - apply (Permutation_NoDup (l := unique K keqb l)).
    + symmetry. apply sort_keys_perm.
    + apply unique_NoDup.
  - intros x Hx.
    apply (Permutation_in (l := unique K keqb l)).
    + symmetry. apply sort_keys_perm.
    + now apply unique_In.
Qed.

End Regroup.

End ExactSums.

(** ** Reconciliation of the demographic allocation *)

(** The adjusted reach of a row is its raw reach, its half, or its product
    with the time factor, the share and 0.5. *)
Lemma adj_reach_cases {num : Type} `{PyNum num} (calc_mode : string)
    (row : kpi_row num) :
  let a := snd (calculate_metrics_row calc_mode row) in
  a = reach row
  \/ a = fdiv (reach row) (lit 2)
  \/ a = fmul (fmul (fmul (time_factor (stay_time row)) (reach row))
                    (share_used calc_mode row)) (lit 0.5).
Proof.
  unfold calculate_metrics_row.
  destruct (calc_mode =? mode_no_digital_formula)%string; [now left |].
  destruct (_ && _); [now right; left |].
  destruct (apply_digital_formula row); [| now left].
  destruct (negb _); [now right; right | now left].
Qed.

Section Reconciliation.

Local Open Scope num_scope.

Lemma pd_sum_exact_from (l : list exact) (a : Qc) :
  fold_left fadd (filter (fun x => negb (isnull x)) l) (Some a)
  = Some (a + qsum (map val l))%Qc.
Proof.
  revert a. induction l as [|x l IH]; intros a; cbn [filter map qsum fold_left].
  - f_equal. ring.
  - destruct x as [q|]; cbn [isnull exact_PyNum negb val fold_left].
    + change (fadd (Some a) (Some q)) with (Some (a + q)%Qc).
      rewrite IH. f_equal. ring.
    + rewrite IH. f_equal. ring.
Qed.

(** A column sum in exact arithmetic is the sum of the values. *)
Lemma pd_sum_exact (l : list exact) : pd_sum l = Some (qsum (map val l)).
Proof.
  unfold pd_sum. change (lit 0 : exact) with (Some (Q2Qc 0)).
  rewrite pd_sum_exact_from. f_equal. ring.
Qed.

Lemma val_mul (x y : exact) : val (x * y) = (val x * val y)%Qc.
Proof. destruct x, y; cbn; ring. Qed.

Lemma val_half (x : exact) : val (x / lit 2) = (val x * Q2Qc (1 # 2))%Qc.
Proof.
  destruct x as [q|]; cbn; [| ring].
  apply Qc_is_canon. cbn. field.
Qed.

Lemma val_div_mul (a c : exact) :
  fgt c (lit 0) = true -> (val (a / c) * val c)%Qc = val a.
Proof.
  intros Hc. destruct (exact_gt_some c Hc) as (q & -> & Hq).
  destruct a as [p|].
  - rewrite exact_div_some by assumption. cbn [val].
    apply Qeq_bool_false_neq in Hq. field. assumption.
  - cbn. ring.
Qed.

Lemma val_zero (c : exact) :
  fgt c (lit 0) = false -> fgt (lit 0) c = false -> val c = Q2Qc 0.
Proof.
  destruct c as [q|]; [| reflexivity]. cbn.
  intros H1 H2. apply negb_false_iff in H1, H2.
  apply Qle_bool_iff in H1, H2.
  apply Qc_is_canon. apply Qle_antisym; assumption.
Qed.

(** What the ratio gives back: on a row whose raw reach is not negative,
    ratio times raw reach is the adjusted reach. *)
Lemma calc_ratio_spec (calc_mode : string) (row : kpi_row exact) :
  fgt (lit 0) (reach row) = false ->
  let r := {| base := row;
              adj_rots := fst (calculate_metrics_row calc_mode row);
              adj_reach := snd (calculate_metrics_row calc_mode row) |} in
  (val (calc_ratio r) * val (reach row))%Qc = val (adj_reach r).
Proof.
  intros Hneg r. unfold calc_ratio. subst r. cbn [base adj_reach].
  destruct (fgt (reach row) (lit 0)) eqn:Hpos.
  - now apply val_div_mul.
  - rewrite (val_zero _ Hpos Hneg).
    destruct (adj_reach_cases calc_mode row) as [-> | [-> | ->]].
    + rewrite (val_zero _ Hpos Hneg). ring.
    + rewrite val_half, (val_zero _ Hpos Hneg). ring.
    + rewrite !val_mul, (val_zero _ Hpos Hneg). ring.
Qed.

End Reconciliation.

Section Allocation.

Local Open Scope num_scope.

Lemma fillna_ratio_noop (l : list (joined_row exact)) :
  Forall (fun j => isnull (ratio j) = false) l ->
  map fillna_ratio l = l.
Proof.
  induction 1 as [|j l Hj _ IH]; cbn [map]; [reflexivity |].
  rewrite IH. f_equal. unfold fillna_ratio. rewrite Hj. now destruct j.
Qed.

(** The allocated reach of the rows joined to one demographic record. *)
Lemma joined_reach_of_record (d : demo_row exact)
    (rm : list (string * exact)) :
  qsum (map (fun j => val (adj_demo_reach j))
            (match filter (fun e => (fst e =? demo_ftr_idn d)%string) rm with
             | [] => [ {| demo := d; ratio := nan |} ]
             | hits => map (fun e => {| demo := d; ratio := snd e |}) hits
             end))
  = qsum (map (fun e => (val (demo_reach d) * val (snd e))%Qc)
              (filter (fun e => (fst e =? demo_ftr_idn d)%string) rm)).
Proof.
  destruct (filter _ rm) as [|e hits].
  - cbn [map qsum]. unfold adj_demo_reach. cbn [demo ratio].
    rewrite val_mul. change (val nan) with (Q2Qc 0). ring.
  - rewrite map_map. apply qsum_ext. intros e' _.
    unfold adj_demo_reach. cbn [demo ratio]. apply val_mul.
Qed.

(** The allocated reach of all records is the adjusted reach of the
    displayed rows. *)
Lemma allocated_reach_total (calc_mode : string)
    (units : list (kpi_row exact)) (td : list (demo_row exact)) :
  let final_df := apply_metrics calc_mode units in
  Forall (fun j => isnull (ratio j) = false)
         (join_ratio td (ratio_map final_df)) ->
  Forall (fun u =>
            pd_sum (map demo_reach
                        (filter (fun d => (demo_ftr_idn d =? ftr_idn u)%string)
                                td))
            = reach u) units ->
  Forall (fun u => fgt (lit 0) (reach u) = false) units ->
  qsum (map (fun j => val (adj_demo_reach j)) (allocate td final_df))
  = qsum (map (fun r => val (adj_reach r)) final_df).
Proof.
  intros final_df Hjoin Hsum Hneg. unfold allocate.
  rewrite (fillna_ratio_noop _ Hjoin). unfold join_ratio.
  rewrite qsum_flat_map.
  rewrite (qsum_ext _ _ td (fun d _ => joined_reach_of_record d _)).
  unfold ratio_map.
  rewrite (qsum_ext _
             (fun d => qsum (map (fun r => (val (demo_reach d)
                                            * val (calc_ratio r))%Qc)
                                 (filter (fun r => (ftr_idn (base r)
                                                    =? demo_ftr_idn d)%string)
                                         final_df)))).
  2:{ intros d _. rewrite filter_map_swap, map_map. reflexivity. }
  rewrite (qsum_swap
             (fun d r => (ftr_idn (base r) =? demo_ftr_idn d)%string)
             (fun d r => (val (demo_reach d) * val (calc_ratio r))%Qc)).
  subst final_df. unfold apply_metrics. rewrite !map_map.
  apply qsum_ext. intros u Hu. cbn [base].
  rewrite (qsum_scale (val (calc_ratio _)) (fun d => val (demo_reach d))).
  rewrite Forall_forall in Hsum, Hneg.
  pose proof (Hsum u Hu) as Hu_sum. rewrite pd_sum_exact in Hu_sum.
  rewrite map_map in Hu_sum.
  rewrite (filter_ext _ (fun d => (demo_ftr_idn d =? ftr_idn u)%string))
    by (intros d; apply String.eqb_sym).
  replace (qsum (map (fun d => val (demo_reach d)) _)) with (val (reach u))
    by (rewrite <- Hu_sum; reflexivity).
  rewrite Qcmult_comm. apply (calc_ratio_spec calc_mode u (Hneg u Hu)).
Qed.

(** Under an active demographic filter the raw reach of every unit is the
    sum of its records by construction: the second hypothesis of the
    reconciliation below then holds of itself. *)
Lemma demo_filter_sums_by_construction {num : Type} `{PyNum num}
    (td : list (demo_row num)) (units : list (kpi_row num)) :
  Forall (fun u =>
            pd_sum (map demo_reach
                        (filter (fun d => (demo_ftr_idn d =? ftr_idn u)%string)
                                td))
            = reach u)
         (map (with_demo_totals td) units).
Proof.
  apply Forall_forall. intros u Hu.
  apply in_map_iff in Hu as (u0 & <- & _). reflexivity.
Qed.

Section Grouping.

Variables (K : Type) (keqb kleb : K -> K -> bool).
Hypothesis keqb_eq : forall x y, keqb x y = true <-> x = y.

(** The corrected reach of the groups adds up to the corrected reach of
    the allocated rows. *)
Lemma grouped_reach_total (key : joined_row exact -> K)
    (df : list (joined_row exact)) (c : Qc) :
  pd_sum (map sum_adj_demo_reach
              (apply_correction (Some c) (groupby_sum K keqb kleb key df)))
  = Some (qsum (map (fun j => val (adj_demo_reach j)) df) * c)%Qc.
Proof.
  unfold apply_correction, groupby_sum. rewrite !map_map.
  cbn [sum_adj_demo_reach]. rewrite pd_sum_exact, map_map. f_equal.
  destruct (group_keys_spec K keqb keqb_eq kleb (map key df)) as [Hnd Hin].
  rewrite <- (qsum_groups K _ keqb keqb_eq key
                (fun j => val (adj_demo_reach j))
                (sort_keys K kleb (unique K keqb (map key df))) df Hnd)
    by (intros r Hr; apply Hin; now apply in_map).
  rewrite <- qsum_scale. apply qsum_ext. intros k _.
  rewrite pd_sum_exact, map_map. reflexivity.
Qed.

End Grouping.

(** X28.  What does hold of the reconciliation.  In exact arithmetic, for
    the displayed rows [final_df] adjusted under any calculation option:
    when every joined demographic record got a ratio that is a number (no
    displayed unit with a NaN adjusted reach among them), the reach of the
    records of each displayed unit adds up to the raw reach of the unit, no
    raw reach is negative and the correction factor is a number, the
    corrected reach of the gender groups, and likewise of the age groups,
    adds up to the corrected reach shown for the displayed rows. *)
Theorem demographic_reach_reconciles (calc_mode : string)
    (units : list (kpi_row exact)) (td : list (demo_row exact))
    (correction : exact) :
  let final_df := apply_metrics calc_mode units in
  Forall (fun j => isnull (ratio j) = false)
         (join_ratio td (ratio_map final_df)) ->
  Forall (fun u =>
            pd_sum (map demo_reach
                        (filter (fun d => (demo_ftr_idn d =? ftr_idn u)%string)
                                td))
            = reach u) units ->
  Forall (fun u => fgt (lit 0) (reach u) = false) units ->
  isnull correction = false ->
  pd_sum (map sum_adj_demo_reach (gender_summ td final_df correction))
  = final_cur_reach final_df correction
  /\ pd_sum (map sum_adj_demo_reach (age_summ td final_df correction))
     = final_cur_reach final_df correction.
Proof.
  intros final_df Hjoin Hsum Hneg Hcorr. subst final_df.
  destruct (exact_notnull _ Hcorr) as [c ->].
  unfold gender_summ, age_summ, final_cur_reach, cur_reach.
  rewrite (grouped_reach_total string String.eqb String.leb String.eqb_eq).
  rewrite (grouped_reach_total Z Z.eqb Z.leb Z.eqb_eq).
  rewrite pd_sum_exact, map_map, exact_mul_some.
  rewrite (allocated_reach_total calc_mode units td Hjoin Hsum Hneg).
  split; reflexivity.
Qed.

Lemma demographic_reach_reconciles_witness :
  pd_sum (map sum_adj_demo_reach
              (gender_summ sample_target_demo
                           (apply_metrics mode_default sample_units)
                           (lit 0.5)))
  = final_cur_reach (apply_metrics mode_default sample_units) (lit 0.5)
  /\ pd_sum (map sum_adj_demo_reach
                 (age_summ sample_target_demo
                           (apply_metrics mode_default sample_units)
                           (lit 0.5)))
     = final_cur_reach (apply_metrics mode_default sample_units) (lit 0.5).
Proof.
  apply (demographic_reach_reconciles mode_default sample_units
           sample_target_demo (lit 0.5)).
  - repeat constructor.
  - repeat constructor.
  - repeat constructor.
  - reflexivity.
Defined.

End Allocation.

(** C1, as the code behaves.  On a selection in which every demographic
    record belongs to a displayed unit and the records of each unit add up
    to its raw reach, the reconciliation fails as soon as a digital unit
    has a stay time and no share of time: its adjusted reach is NaN, so is
    its ratio, [fillna(1.0)] allocates its records unadjusted, and the
    column sum of the header skips the unit.  With the correction factor
    0.5 the gender groups and the age groups each add up to 252 where the
    header shows 2. *)
Theorem missing_share_breaks_reconciliation :
  let final_df := apply_metrics mode_default missing_share_units in
  let td := missing_share_target_demo in
  Forall (fun d => exists r, In r final_df
                             /\ ftr_idn (base r) = demo_ftr_idn d) td
  /\ Forall (fun u =>
               pd_sum (map demo_reach
                           (filter
                              (fun d => (demo_ftr_idn d =? ftr_idn u)%string)
                              td))
               = reach u) missing_share_units
  /\ map (fun r => isnull (adj_reach r)) final_df = [true; false]
  /\ map (fun j => isnull (ratio j)) (join_ratio td (ratio_map final_df))
     = [true; true; false]
  /\ map ratio (allocate td final_df) = [lit 1; lit 1; lit 1]
  /\ pd_sum (map sum_adj_demo_reach (gender_summ td final_df (lit 0.5)))
     = lit 252
  /\ pd_sum (map sum_adj_demo_reach (age_summ td final_df (lit 0.5)))
     = lit 252
  /\ final_cur_reach final_df (lit 0.5) = lit 2
  /\ PrimFloat.eqb
       (pd_sum (map sum_adj_demo_reach (gender_summ td final_df (lit 0.5))))
       (final_cur_reach final_df (lit 0.5)) = false.
Proof.
  cbv zeta. split; [| split].
  - vm_compute.
    repeat (constructor;
            [(eexists; split; [left; reflexivity | reflexivity])
             || (eexists; split; [right; left; reflexivity | reflexivity])
            |]).
    constructor.
  - repeat constructor.
  - repeat split; vm_compute; reflexivity.
Qed.

(** * Further properties of the script *)

(** ** Colours, radii and labels *)

Lemma dict_get_In {V : Type} (d : list (string * V)) (k : string) (v : V) :
  dict_get d k = Some v -> In (k, v) d.
Proof.
  induction d as [|[k' v'] d IH]; cbn; [discriminate |].
  destruct (k' =? k)%string eqn:E.
  - apply String.eqb_eq in E. intros [= ->]. left. now subst.
  - intros Hd. right. now apply IH.
Qed.

Lemma zdict_get_In {V : Type} (d : list (Z * V)) (k : Z) (v : V) :
  zdict_get d k = Some v -> In (k, v) d.
Proof.
  induction d as [|[k' v'] d IH]; cbn; [discriminate |].
  destruct (k' =? k)%Z eqn:E.
  - apply Z.eqb_eq in E. intros [= ->]. left. now subst.
  - intros Hd. right. now apply IH.
Qed.

Ltac each_entry H :=
  repeat (destruct H as [H | H]; [try (inversion H; subst; clear H) |]);
  try contradiction.

(** X1. The colour of a marker identifies the type of its installation:
    two types with the same colour are the same type as soon as one of them
    is a type of the legend, and a type that is not in the legend gets the
    grey [#808080], which no type of the legend has. *)
Theorem color_identifies_known_type (t1 t2 : string) :
  dict_mem colors t1 = true ->
  get_color_by_type t1 = get_color_by_type t2 ->
  t1 = t2 /\ get_color_by_type t1 <> "#808080"%string.
Proof.
  unfold dict_mem, get_color_by_type.
  destruct (dict_get colors t1) as [c1|] eqn:H1; [intros _ | discriminate].
  apply dict_get_In in H1.
  destruct (dict_get colors t2) as [c2|] eqn:H2.
  - apply dict_get_In in H2. intros <-.
    cbv [colors In] in H1, H2.
    each_entry H1; each_entry H2; split; (reflexivity || discriminate).
  - intros ->. cbv [colors In] in H1. each_entry H1; discriminate.
Qed.

Lemma color_identifies_known_type_witness :
  "환승센터"%string = "환승센터"%string
  /\ get_color_by_type "환승센터" <> "#808080"%string.
Proof.
  apply (color_identifies_known_type "환승센터" "환승센터"); reflexivity.
Defined.

(** X2. The radius of the circles never shrinks when the zoom level grows,
    and it is one of 50, 150 and 300. *)
Theorem radius_monotone (level1 level2 : Z) :
  (level1 <= level2)%Z ->
  (getRadiusByLevel level1 <= getRadiusByLevel level2)%Z
  /\ In (getRadiusByLevel level1) [50; 150; 300]%Z.
Proof.
  intros Hle. unfold getRadiusByLevel.
  destruct (Z.leb_spec level1 5), (Z.leb_spec level2 5),
    (Z.leb_spec level1 8), (Z.leb_spec level2 8); cbn; split; auto; lia.
Qed.

Lemma radius_monotone_witness :
  (getRadiusByLevel 5 <= getRadiusByLevel 6)%Z
  /\ In (getRadiusByLevel 5) [50; 150; 300]%Z.
Proof. apply (radius_monotone 5 6). lia. Defined.

(** X3. The labels of the demographic filter and of the charts agree.  An
    age label of the filter other than the one for all ages is sent to a
    code that the charts display under the same label, every label of the
    charts is sent back to its code by the filter, and the same holds of
    the two gender labels; the code 0 of all ages has no chart label. *)
Theorem filter_and_chart_labels_agree :
  (forall label code,
      dict_get age_map_inv label = Some code ->
      (code = 0%Z /\ label = "전체"%string)
      \/ zdict_get age_map_disp code = Some label)
  /\ (forall code label,
         zdict_get age_map_disp code = Some label ->
         dict_get age_map_inv label = Some code /\ (1 <= code <= 7)%Z)
  /\ zdict_get age_map_disp 0 = None
  /\ (forall label g,
         dict_get gender_map label = Some g ->
         (g = "전체"%string /\ label = "전체"%string)
         \/ dict_get gender_map_disp g = Some label)
  /\ (forall g label,
         dict_get gender_map_disp g = Some label ->
         dict_get gender_map label = Some g).
Proof.
  split; [| split; [| split; [reflexivity | split]]].
  - intros label code Hl. apply dict_get_In in Hl.
    cbv [age_map_inv In] in Hl. each_entry Hl; auto.
  - intros code label Hc. apply zdict_get_In in Hc.
    cbv [age_map_disp In] in Hc.
    each_entry Hc; (split; [reflexivity | lia]).
  - intros label g Hl. apply dict_get_In in Hl.
    cbv [gender_map In] in Hl. each_entry Hl; auto.
  - intros g label Hl. apply dict_get_In in Hl.
    cbv [gender_map_disp In] in Hl. each_entry Hl; reflexivity.
Qed.

(** ** The time factor and the quantity lookup *)

Lemma exact_gt_iff (a b : Qc) :
  fgt (Some a : exact) (Some b) = true <-> (b < a)%Qc.
Proof.
  change (fgt (Some a : exact) (Some b)) with (negb (Qle_bool a b)).
  rewrite negb_true_iff. split.
  - intros Hle. apply Qnot_le_lt. intros Hab.
    apply Qle_bool_iff in Hab. congruence.
  - intros Hlt. destruct (Qle_bool a b) eqn:E; [| reflexivity].
    apply Qle_bool_iff in E. now apply Qlt_not_le in Hlt.
Qed.

Lemma Qclt_sub_0 (a b : Qc) : (a - b < 0)%Qc <-> (a < b)%Qc.
Proof.
  rewrite (Qclt_minus_iff (a - b) 0), (Qclt_minus_iff a b).
  now replace (0 + - (a - b))%Qc with (b + - a)%Qc by ring.
Qed.

(** X4. In exact arithmetic the time factor of a stay time that is present
    is never below 1: it is 1 up to a stay time of 1 and grows by a
    thirtieth for every unit of stay time beyond 1. *)
Theorem time_factor_floor (st : Qc) :
  exists tf : Qc,
    time_factor (Some st : exact) = Some tf
    /\ (1 <= tf)%Qc
    /\ ((st <= 1)%Qc -> tf = 1%Qc)
    /\ ((1 < st)%Qc -> tf = (1 + (st - 1) / Q2Qc 30)%Qc).
Proof.
  unfold time_factor, py_max.
  change (fsub (Some st : exact) (lit 1)) with (Some (st - 1)%Qc : exact).
  change (lit 0 : exact) with (Some 0%Qc : exact).
  destruct (fgt (Some 0%Qc : exact) (Some (st - 1)%Qc)) eqn:Hgt.
  - apply exact_gt_iff in Hgt. apply -> Qclt_sub_0 in Hgt.
    exists 1%Qc. split; [| split; [| split]].
    + cbn. f_equal. field. discriminate.
    + apply Qcle_refl.
    + reflexivity.
    + intros H1. exfalso. apply (Qclt_not_le _ _ H1).
      now apply Qclt_le_weak.
  - assert (1 <= st)%Qc as Hst.
    { apply Qcnot_lt_le. intros Hlt. apply <- Qclt_sub_0 in Hlt.
      apply exact_gt_iff in Hlt. congruence. }
    exists ((st - 1 + Q2Qc 30) / Q2Qc 30)%Qc.
    split; [| split; [| split]].
    + reflexivity.
    + apply (Qcle_minus_iff 1).
      replace ((st - 1 + Q2Qc 30) / Q2Qc 30 + - (1))%Qc
        with ((st + - (1)) * / Q2Qc 30)%Qc by (field; discriminate).
      rewrite <- (Qcmult_0_l (/ Q2Qc 30)).
      apply Qcmult_le_compat_r; [now apply (Qcle_minus_iff 1 st) |].
      discriminate.
    + intros Hle. assert (st = 1%Qc) as -> by now apply Qcle_antisym.
      apply Qc_is_canon. reflexivity.
    + intros _. field. discriminate.
Qed.

Section ResolverInRange.

Context {num : Type} `{PyNum num}.
Local Open Scope nat_scope.
Local Open Scope string_scope.

(** X5. Within the range of the table nothing is interpolated: without a
    named override, a selection of [n] units, [n] at most the largest
    quantity, gets the factor of the first row whose quantity is exactly
    [n], and 0 when the table has no such row, whatever the rows of the
    neighbouring quantities hold.  Outside package mode the named weights
    are never used. *)
Theorem correction_exact_match (n m : nat) (filter_mode selected : string)
    (df : list (factor_row num)) :
  0 < n ->
  filter_mode <> "패키지" \/ dict_mem region_pkg_weights selected = false ->
  quantity_max df = Some m ->
  n <= m ->
  correction_val n filter_mode selected (Some df)
  = match find (fun r => (quantity r =? n)%nat) df with
    | Some r => Ok (correction_factor r)
    | None => Ok (lit 0)
    end.
Proof.
  intros Hn Hover Hmax Hle.
  rewrite correction_val_by_quantity; [| exact Hn |].
  - rewrite Hmax. unfold lookup_qty.
    destruct (Nat.ltb_spec m n); [lia | reflexivity].
  - destruct Hover as [Hmode | Hmem].
    + apply String.eqb_neq in Hmode. now rewrite Hmode.
    + rewrite Hmem. apply andb_false_r.
Qed.

End ResolverInRange.

Lemma correction_exact_match_witness :
  correction_val 3 "관심 매체" "강남D" (Some sample_factor_df)
  = match find (fun r => (quantity r =? 3)%nat)
               (sample_factor_df (num := float)) with
    | Some r => Ok (correction_factor r)
    | None => Ok (lit 0)
    end.
Proof.
  apply (correction_exact_match 3 4 "관심 매체" "강남D"
           (sample_factor_df (num := float))).
  - lia.
  - left. discriminate.
  - reflexivity.
  - lia.
Defined.

(** ** The identifier box *)

Section IdentifierBox.

Lemma lstrip_In (s : text) (c : N) : In c (lstrip s) -> In c s.
Proof.
  induction s as [|x s IH]; cbn; [tauto |].
  destruct (py_isspace x); cbn; auto.
Qed.

Lemma strip_In (s : text) (c : N) : In c (strip s) -> In c s.
Proof.
  unfold strip, rstrip. intros Hc.
  apply in_rev, lstrip_In, in_rev in Hc. now apply lstrip_In.
Qed.

Lemma lstrip_head (s : text) :
  match lstrip s with
  | [] => True
  | c :: _ => py_isspace c = false
  end.
Proof.
  induction s as [|x s IH]; cbn; [exact I |].
  destruct (py_isspace x) eqn:E; [exact IH | exact E].
Qed.

Lemma lstrip_fixed (s : text) :
  match s with [] => True | c :: _ => py_isspace c = false end ->
  lstrip s = s.
Proof. destruct s as [|c s]; cbn; [reflexivity | now intros ->]. Qed.

Lemma lstrip_idem (s : text) : lstrip (lstrip s) = lstrip s.
Proof. apply lstrip_fixed, lstrip_head. Qed.

Lemma lstrip_snoc (l : text) (c : N) :
  py_isspace c = false -> lstrip (l ++ [c]) = lstrip l ++ [c].
Proof.
  intros Hc. induction l as [|x l IH]; cbn; [now rewrite Hc |].
  destruct (py_isspace x); [exact IH | reflexivity].
Qed.

Lemma rstrip_keeps_head (c : N) (s : text) :
  py_isspace c = false -> exists r, rstrip (c :: s) = c :: r.
Proof.
  intros Hc. unfold rstrip. cbn [rev].
  rewrite (lstrip_snoc _ _ Hc), rev_app_distr. cbn. now eexists.
Qed.

(** Stripping twice is stripping once. *)
Lemma strip_idem (s : text) : strip (strip s) = strip s.
Proof.
  unfold strip.
  assert (lstrip (rstrip (lstrip s)) = rstrip (lstrip s)) as ->.
  { pose proof (lstrip_head s) as Hh.
    destruct (lstrip s) as [|c y]; [reflexivity |].
    destruct (rstrip_keeps_head c y Hh) as [r ->].
    cbn. now rewrite Hh. }
  unfold rstrip. now rewrite rev_involutive, lstrip_idem.
Qed.

Lemma split_not_nil (sep : N) (s : text) : split sep s <> [].
Proof.
  destruct s as [|c s]; cbn; [discriminate |].
  destruct (c =? sep)%N; [discriminate |].
  destruct (split sep s); discriminate.
Qed.

Lemma split_pieces (sep : N) (s piece : text) :
  In piece (split sep s) ->
  ~ In sep piece /\ forall c, In c piece -> In c s.
Proof.
  revert piece. induction s as [|c s IH]; cbn; intros piece.
  - intros [<- | []]. split; [tauto | auto].
  - destruct (c =? sep)%N eqn:E.
    + intros [<- | Hin]; [split; [tauto | intros ? []] |].
      destruct (IH _ Hin) as [Hsep Hsub]. split; auto.
    + apply N.eqb_neq in E.
      destruct (split sep s) as [|p ps]; cbn.
      * intros [<- | []]. split; [| cbn; tauto].
        cbn. intros [Hc | []]. now apply E.
      * intros [<- | Hin].
        -- destruct (IH p (or_introl eq_refl)) as [Hsep Hsub]. split.
           ++ cbn. intros [Hc | Hc]; [now apply E | now apply Hsep].
           ++ cbn. intros c' [-> | Hc']; auto.
        -- destruct (IH piece (or_intror Hin)) as [Hsep Hsub].
           split; auto.
Qed.

Lemma replace_char_gone (a b : N) (s : text) :
  a <> b -> ~ In a (replace_char a b s).
Proof.
  intros Hab. unfold replace_char. rewrite in_map_iff.
  intros (c & Hc & _). destruct (c =? a)%N eqn:E.
  - now apply Hab.
  - apply N.eqb_neq in E. now apply E.
Qed.

(** X6. Every identifier read from the box is clean: it is not empty, it
    has no white space at either end, and it contains neither a comma nor a
    line break. *)
Theorem raw_ids_clean (input_text : text) :
  Forall clean_id (raw_ids input_text).
Proof.
  unfold raw_ids. apply Forall_forall. intros x Hx.
  apply in_map_iff in Hx as (piece & <- & Hpiece).
  apply filter_In in Hpiece as [Hpiece Hne].
  apply split_pieces in Hpiece as [Hcomma Hsub].
  repeat split.
  - intros Hnil. now rewrite Hnil in Hne.
  - apply strip_idem.
  - intros Hc. now apply strip_In in Hc.
  - intros Hc. apply strip_In, Hsub in Hc.
    now apply (replace_char_gone newline comma input_text) in Hc.
Qed.

Lemma split_piece_only (sep : N) (x : text) :
  ~ In sep x -> split sep x = [x].
Proof.
  induction x as [|c x IH]; cbn; [reflexivity |]. intros Hsep.
  destruct (c =? sep)%N eqn:E.
  - apply N.eqb_eq in E. exfalso. now apply Hsep; left.
  - rewrite IH by tauto. reflexivity.
Qed.

Lemma split_piece_first (sep : N) (x s : text) :
  ~ In sep x -> split sep (x ++ sep :: s) = x :: split sep s.
Proof.
  induction x as [|c x IH]; cbn; intros Hsep.
  - now rewrite N.eqb_refl.
  - destruct (c =? sep)%N eqn:E.
    + apply N.eqb_eq in E. exfalso. now apply Hsep; left.
    + rewrite IH by tauto. reflexivity.
Qed.

Lemma split_join (sep : N) (ids : list text) :
  ids <> [] ->
  Forall (fun x => ~ In sep x) ids ->
  split sep (join sep ids) = ids.
Proof.
  intros Hne Hall. induction Hall as [|x rest Hx Hrest IH]; [contradiction |].
  destruct rest as [|y rest].
  - cbn. now apply split_piece_only.
  - change (join sep (x :: y :: rest)) with (x ++ sep :: join sep (y :: rest)).
    rewrite split_piece_first by assumption.
    rewrite IH by discriminate. reflexivity.
Qed.

Lemma replace_char_join (a b sep : N) (ids : list text) :
  Forall (fun x => ~ In a x) ids ->
  replace_char a b (join sep ids)
  = join (if (sep =? a)%N then b else sep) ids.
Proof.
  assert (forall x, ~ In a x -> replace_char a b x = x) as Hid.
  { intros x Hx. unfold replace_char. rewrite <- (map_id x) at 2.
    apply map_ext_in. intros c Hc. destruct (c =? a)%N eqn:E; [| reflexivity].
    apply N.eqb_eq in E. subst c. contradiction. }
  induction 1 as [|x rest Hx Hrest IH]; [reflexivity |].
  destruct rest as [|y rest]; [now apply Hid |].
  change (join ?s (x :: y :: rest)) with (x ++ s :: join s (y :: rest)).
  unfold replace_char in *. rewrite map_app. cbn [map].
  rewrite IH. f_equal. now apply Hid.
Qed.

(** X7. Reading back what was written: clean identifiers joined by commas,
    or by line breaks, are read from the box as they were, in their
    order. *)
Theorem raw_ids_join (ids : list text) :
  Forall clean_id ids ->
  raw_ids (join comma ids) = ids /\ raw_ids (join newline ids) = ids.
Proof.
  intros Hclean.
  assert (forall sep, sep = comma \/ sep = newline ->
                      raw_ids (join sep ids) = ids) as Hboth;
    [| split; apply Hboth; auto].
  intros sep Hsep. unfold raw_ids.
  rewrite replace_char_join
    by (eapply Forall_impl; [| exact Hclean]; now intros x (_ & _ & _ & Hx)).
  assert ((if (sep =? newline)%N then comma else sep) = comma) as ->
    by (destruct Hsep as [-> | ->]; reflexivity).
  destruct ids as [|x rest]; [reflexivity |].
  rewrite split_join;
    [| discriminate
     | eapply Forall_impl; [| exact Hclean]; now intros y (_ & _ & Hy & _)].
  induction Hclean as [|y ys (Hne & Hstrip & _) _ IH]; [reflexivity |].
  cbn [filter map]. rewrite Hstrip.
  destruct y as [|c y]; [contradiction |]. cbn [is_empty negb map].
  now rewrite Hstrip, IH.
Qed.

Lemma text_eqb_eq (a b : text) : text_eqb a b = true <-> a = b.
Proof.
  unfold text_eqb. destruct (list_eq_dec N.eq_dec a b); split; auto.
  discriminate.
Qed.

(** X8. The selection made from the box never holds an identifier twice
    and holds only identifiers that were typed and that [kpi] has for the
    selected month; the confirmation message never counts more media found
    than identifiers typed, and without a message nothing is selected. *)
Theorem direct_selection_sound (kpi_keys : list (string * text))
    (selected_month : string) (input_text : text) :
  let sel := fst (direct_selection kpi_keys selected_month input_text) in
  let msg := snd (direct_selection kpi_keys selected_month input_text) in
  NoDup sel
  /\ (forall x, In x sel ->
                In x (raw_ids input_text)
                /\ In (selected_month, x) kpi_keys)
  /\ match msg with
     | Some (typed, found) =>
         typed = List.length (raw_ids input_text)
         /\ found = List.length sel
         /\ (0 < found <= typed)%nat
     | None => sel = []
     end.
Proof.
  cbv zeta. unfold direct_selection.
  set (ids := raw_ids input_text).
  set (found := found_ids kpi_keys selected_month ids).
  assert (NoDup found) as Hnd
    by apply (unique_NoDup text text_eqb text_eqb_eq).
  assert (forall x, In x found ->
                    In x ids /\ In (selected_month, x) kpi_keys) as Hin.
  { intros x Hx. unfold found, found_ids in Hx.
    apply (proj1 (unique_In text text_eqb text_eqb_eq _ _)) in Hx.
    apply in_map_iff in Hx as ([m y] & <- & Hk).
    apply filter_In in Hk as [Hk Hcond]. cbn [fst snd] in *.
    apply andb_prop in Hcond as [Hm Hy].
    apply String.eqb_eq in Hm. subst m.
    apply existsb_exists in Hy as (z & Hz & Hyz).
    apply text_eqb_eq in Hyz. subst z. auto. }
  destruct (negb (is_empty input_text) && negb (selected_month =? "")%string);
    [| cbn; split; [apply NoDup_nil | split; [intros ? [] | reflexivity]]].
  destruct (Nat.ltb_spec 0 (List.length found)) as [Hpos | Hzero];
    cbn [fst snd].
  - split; [exact Hnd |]. split.
    + exact Hin.
    + repeat split; auto.
      apply NoDup_incl_length; [exact Hnd |].
      intros x Hx. now apply Hin.
  - split; [apply NoDup_nil | split; [intros ? [] | reflexivity]].
Qed.

End IdentifierBox.

(** ** More on the demographic allocation *)

Section AllocationMore.

Local Open Scope num_scope.

Lemma allocate_app {num : Type} `{PyNum num} (td1 td2 : list (demo_row num))
    (final_df : list (merged_row num)) :
  allocate (td1 ++ td2) final_df
  = allocate td1 final_df ++ allocate td2 final_df.
Proof.
  unfold allocate, join_ratio. now rewrite flat_map_app, map_app.
Qed.

Lemma exact_mul_one (x : exact) : x * lit 1 = x.
Proof.
  destruct x as [q|]; [| reflexivity].
  change (Some (q * Q2Qc 1)%Qc = Some q). apply f_equal. ring.
Qed.

(** X9. A record of a unit that is not among the displayed rows, as
    happens under a top-N cut, stays in the allocation, once, at its place
    and with the ratio 1.0; in exact arithmetic its values enter the
    charts as they were measured. *)
Theorem undisplayed_unit_passes_through
    (td1 td2 : list (demo_row float)) (d : demo_row float)
    (final_df : list (merged_row float)) :
  Forall (fun r => (ftr_idn (base r) =? demo_ftr_idn d)%string = false)
         final_df ->
  allocate (td1 ++ d :: td2) final_df
  = allocate td1 final_df
    ++ {| demo := d; ratio := lit 1 |} :: allocate td2 final_df
  /\ adj_demo_reach {| demo := d; ratio := lit 1 |}
     = PrimFloat.mul (demo_reach d) 1%float
  /\ (forall d' : demo_row exact,
         adj_demo_reach {| demo := d'; ratio := lit 1 |} = demo_reach d'
         /\ adj_demo_rots {| demo := d'; ratio := lit 1 |} = demo_rots d').
Proof.
  intros Hnone. split; [| split; [reflexivity |]].
  - change (d :: td2) with ([d] ++ td2). rewrite !allocate_app.
    do 2 f_equal. unfold allocate, join_ratio, ratio_map. cbn [flat_map].
    rewrite filter_map_swap. cbn [fst].
    replace (filter _ final_df) with (@nil (merged_row float)).
    + reflexivity.
    + symmetry. induction Hnone as [|r l Hr _ IH]; [reflexivity |].
      cbn [filter]. now rewrite Hr.
  - intros d'. unfold adj_demo_reach, adj_demo_rots. cbn [demo ratio].
    split; apply exact_mul_one.
Qed.

Lemma joined_column_of_record (dcol : demo_row exact -> exact)
    (d : demo_row exact) (es : list (string * exact)) :
  qsum (map (fun j => val (dcol (demo j) * ratio j))
            (match es with
             | [] => [ {| demo := d; ratio := nan |} ]
             | e :: hits =>
                 map (fun e => {| demo := d; ratio := snd e |}) (e :: hits)
             end))
  = qsum (map (fun e => (val (dcol d) * val (snd e))%Qc) es).
Proof.
  destruct es as [|e hits].
  - cbn [map qsum demo ratio]. rewrite val_mul.
    change (val nan) with (Q2Qc 0). ring.
  - rewrite map_map. apply qsum_ext. intros e' _.
    cbn [demo ratio]. apply val_mul.
Qed.

(** The allocated total of a column of the records, unit by unit. *)
Lemma allocated_column_total (dcol : demo_row exact -> exact)
    (td : list (demo_row exact)) (final_df : list (merged_row exact)) :
  Forall (fun j => isnull (ratio j) = false)
         (join_ratio td (ratio_map final_df)) ->
  qsum (map (fun j => val (dcol (demo j) * ratio j)) (allocate td final_df))
  = qsum (map (fun r =>
                 (qsum (map (fun d => val (dcol d))
                            (filter (fun d => (ftr_idn (base r)
                                               =? demo_ftr_idn d)%string)
                                    td))
                  * val (calc_ratio r))%Qc)
              final_df).
Proof.
  intros Hjoin. unfold allocate.
  rewrite (fillna_ratio_noop _ Hjoin). unfold join_ratio.
  rewrite qsum_flat_map.
  rewrite (qsum_ext _
             (fun d => qsum (map (fun r => (val (dcol d)
                                            * val (calc_ratio r))%Qc)
                                 (filter (fun r => (ftr_idn (base r)
                                                    =? demo_ftr_idn d)%string)
                                         final_df)))).
  - rewrite (qsum_swap
               (fun d r => (ftr_idn (base r) =? demo_ftr_idn d)%string)
               (fun d r => (val (dcol d) * val (calc_ratio r))%Qc)).
    apply qsum_ext. intros r _.
    now rewrite (qsum_scale (val (calc_ratio r)) (fun d => val (dcol d))).
  - intros d _.
    etransitivity; [apply (joined_column_of_record dcol d) |].
    unfold ratio_map. rewrite filter_map_swap, map_map. reflexivity.
Qed.

(** Both adjusted values of a row come from its raw values in the same
    way. *)
Lemma adjusted_pair_cases {num : Type} `{PyNum num} (calc_mode : string)
    (row : kpi_row num) :
  let m := calculate_metrics_row calc_mode row in
  m = (rots row, reach row)
  \/ m = (rots row / lit 2, reach row / lit 2)
  \/ m = (time_factor (stay_time row) * rots row
            * share_used calc_mode row * lit 0.5,
          time_factor (stay_time row) * reach row
            * share_used calc_mode row * lit 0.5).
Proof.
  unfold calculate_metrics_row.
  destruct (calc_mode =? mode_no_digital_formula)%string; [now left |].
  destruct (_ && _); [now right; left |].
  destruct (apply_digital_formula row); [| now left].
  destruct (negb _); [now right; right | now left].
Qed.

(** On a row with a positive raw reach the ratio of the reach is also the
    ratio of the ROTS. *)
Lemma calc_ratio_rots (calc_mode : string) (row : kpi_row exact) :
  fgt (reach row) (lit 0) = true ->
  let r := {| base := row;
              adj_rots := fst (calculate_metrics_row calc_mode row);
              adj_reach := snd (calculate_metrics_row calc_mode row) |} in
  (val (calc_ratio r) * val (rots row))%Qc = val (adj_rots r).
Proof.
  intros Hpos r. unfold calc_ratio. subst r. cbn [base adj_reach adj_rots].
  rewrite Hpos.
  destruct (exact_gt_some _ Hpos) as (c & Hc & Hc0).
  pose proof (Qeq_bool_false_neq c Hc0) as Hcne.
  set (vr := val (rots row)).
  destruct (adjusted_pair_cases calc_mode row) as [-> | [-> | ->]];
    cbn [fst snd]; rewrite Hc.
  - rewrite exact_div_some by assumption. fold vr. cbn [val].
    field. assumption.
  - rewrite val_half. fold vr.
    change (Some c / lit 2) with (Some c / Some (Q2Qc 2) : exact).
    rewrite !exact_div_some by (assumption || reflexivity).
    cbn [val].
    replace (Q2Qc (1 # 2)) with (/ Q2Qc 2)%Qc
      by (apply Qc_is_canon; reflexivity).
    field. split; (assumption || discriminate).
  - destruct (time_factor (stay_time row)) as [tf|].
    + destruct (share_used calc_mode row) as [s|].
      * change (lit 0.5 : exact) with (Some (Q2Qc 0.5)).
        rewrite !exact_mul_some, exact_div_some by assumption.
        rewrite !val_mul. fold vr. cbn [val]. field. assumption.
      * replace (Some tf * Some c * None * lit 0.5 / Some c)
          with (None : exact) by reflexivity.
        rewrite !val_mul. change (val None) with (Q2Qc 0). ring.
    + replace (None * Some c * share_used calc_mode row * lit 0.5 / Some c)
        with (None : exact) by (now destruct (share_used calc_mode row)).
      rewrite !val_mul. change (val None) with (Q2Qc 0). ring.
Qed.

End AllocationMore.

Section GroupedTotals.

Local Open Scope num_scope.

Variables (K : Type) (keqb kleb : K -> K -> bool).
Hypothesis keqb_eq : forall x y, keqb x y = true <-> x = y.

(** The part of a grouped column that lies in the groups selected by [P]
    is the part of the column that lies in the rows of these groups. *)
Lemma qsum_groups_where (P : K -> bool) (key : joined_row exact -> K)
    (f : joined_row exact -> Qc) (df : list (joined_row exact)) :
  qsum (map (fun k => qsum (map f (filter (fun j => keqb (key j) k) df)))
            (filter P (sort_keys K kleb (unique K keqb (map key df)))))
  = qsum (map f (filter (fun j => P (key j)) df)).
Proof.
  destruct (group_keys_spec K keqb keqb_eq kleb (map key df)) as [Hnd Hin].
  rewrite <- (qsum_groups K _ keqb keqb_eq key f
                (sort_keys K kleb (unique K keqb (map key df)))
                (filter (fun j => P (key j)) df) Hnd).
  - rewrite qsum_filter. apply qsum_ext. intros k _.
    rewrite !qsum_filter.
    destruct (P k) eqn:HP.
    + apply qsum_ext. intros j _.
      destruct (keqb (key j) k) eqn:E.
      * apply keqb_eq in E. now rewrite E, HP.
      * now destruct (P (key j)).
    + symmetry. rewrite (qsum_ext _ (fun _ => Q2Qc 0)); [apply qsum_zero |].
      intros j _.
      destruct (P (key j)) eqn:HPj; [| reflexivity].
      destruct (keqb (key j) k) eqn:E; [| reflexivity].
      apply keqb_eq in E. congruence.
  - intros r Hr. apply filter_In in Hr as [Hr _].
    apply Hin. now apply in_map.
Qed.

Lemma grouped_reach_where (P : K -> bool) (key : joined_row exact -> K)
    (df : list (joined_row exact)) (correction : exact) :
  pd_sum (map sum_adj_demo_reach
              (filter (fun s => P (group s))
                      (apply_correction correction
                                        (groupby_sum K keqb kleb key df))))
  = Some (qsum (map (fun j => val (adj_demo_reach j))
                    (filter (fun j => P (key j)) df))
          * val correction)%Qc.
Proof.
  unfold apply_correction, groupby_sum. rewrite map_map.
  rewrite filter_map_swap, map_map. cbn [group sum_adj_demo_reach].
  rewrite pd_sum_exact, map_map. f_equal.
  rewrite <- (qsum_groups_where P key (fun j => val (adj_demo_reach j)) df).
  rewrite <- qsum_scale. apply qsum_ext. intros k _.
  rewrite val_mul, pd_sum_exact, map_map. reflexivity.
Qed.

Lemma grouped_rots_where (P : K -> bool) (key : joined_row exact -> K)
    (df : list (joined_row exact)) (correction : exact) :
  pd_sum (map sum_adj_demo_rots
              (filter (fun s => P (group s))
                      (apply_correction correction
                                        (groupby_sum K keqb kleb key df))))
  = Some (qsum (map (fun j => val (adj_demo_rots j))
                    (filter (fun j => P (key j)) df))).
Proof.
  unfold apply_correction, groupby_sum. rewrite map_map.
  rewrite filter_map_swap, map_map. cbn [group sum_adj_demo_rots].
  rewrite pd_sum_exact, map_map. f_equal.
  rewrite <- (qsum_groups_where P key (fun j => val (adj_demo_rots j)) df).
  apply qsum_ext. intros k _.
  rewrite pd_sum_exact, map_map. reflexivity.
Qed.

End GroupedTotals.

Lemma age_gender_eqb_eq (k1 k2 : Z * string) :
  age_gender_eqb k1 k2 = true <-> k1 = k2.
Proof.
  destruct k1 as [a1 g1], k2 as [a2 g2]. unfold age_gender_eqb. cbn [fst snd].
  rewrite andb_true_iff, Z.eqb_eq, String.eqb_eq. split.
  - now intros [-> ->].
  - now intros [= -> ->].
Qed.

Lemma filter_all {A : Type} (l : list A) : filter (fun _ => true) l = l.
Proof. induction l as [|a l IH]; cbn; [reflexivity | now rewrite IH]. Qed.

(** X11. In exact arithmetic the detail table by age and gender agrees
    with the two charts: its rows of one age bracket add up to the row of
    this bracket in the age chart, its rows of one gender to the row of
    this gender in the gender chart, for the corrected reach and for the
    ROTS, whatever the records, the displayed rows and the correction. *)
Theorem pivot_demo_marginals (td : list (demo_row exact))
    (final_df : list (merged_row exact)) (correction : exact) :
  (forall a : Z,
      pd_sum (map sum_adj_demo_reach
                  (filter (fun s => (fst (group s) =? a)%Z)
                          (pivot_demo td final_df correction)))
      = pd_sum (map sum_adj_demo_reach
                    (filter (fun s => (group s =? a)%Z)
                            (age_summ td final_df correction)))
      /\ pd_sum (map sum_adj_demo_rots
                     (filter (fun s => (fst (group s) =? a)%Z)
                             (pivot_demo td final_df correction)))
         = pd_sum (map sum_adj_demo_rots
                       (filter (fun s => (group s =? a)%Z)
                               (age_summ td final_df correction))))
  /\ (forall g : string,
         pd_sum (map sum_adj_demo_reach
                     (filter (fun s => (snd (group s) =? g)%string)
                             (pivot_demo td final_df correction)))
         = pd_sum (map sum_adj_demo_reach
                       (filter (fun s => (group s =? g)%string)
                               (gender_summ td final_df correction)))
         /\ pd_sum (map sum_adj_demo_rots
                        (filter (fun s => (snd (group s) =? g)%string)
                                (pivot_demo td final_df correction)))
            = pd_sum (map sum_adj_demo_rots
                          (filter (fun s => (group s =? g)%string)
                                  (gender_summ td final_df correction)))).
Proof.
  unfold pivot_demo, age_summ, gender_summ. split.
  - intros a.
    rewrite (grouped_reach_where (Z * string) age_gender_eqb age_gender_leb
               age_gender_eqb_eq (fun k => (fst k =? a)%Z)).
    rewrite (grouped_rots_where (Z * string) age_gender_eqb age_gender_leb
               age_gender_eqb_eq (fun k => (fst k =? a)%Z)).
    rewrite (grouped_reach_where Z Z.eqb Z.leb Z.eqb_eq
               (fun k => (k =? a)%Z)).
    rewrite (grouped_rots_where Z Z.eqb Z.leb Z.eqb_eq
               (fun k => (k =? a)%Z)).
    split; reflexivity.
  - intros g.
    rewrite (grouped_reach_where (Z * string) age_gender_eqb age_gender_leb
               age_gender_eqb_eq (fun k => (snd k =? g)%string)).
    rewrite (grouped_rots_where (Z * string) age_gender_eqb age_gender_leb
               age_gender_eqb_eq (fun k => (snd k =? g)%string)).
    rewrite (grouped_reach_where string String.eqb String.leb String.eqb_eq
               (fun k => (k =? g)%string)).
    rewrite (grouped_rots_where string String.eqb String.leb String.eqb_eq
               (fun k => (k =? g)%string)).
    split; reflexivity.
Qed.

Section RotsAndFilter.

Local Open Scope num_scope.

(** X10. In exact arithmetic the ROTS of the charts reconcile with the
    ROTS shown for the displayed rows when, besides every joined record
    having a ratio that is a number, the ROTS of the records of each
    displayed unit add up to its raw ROTS and every displayed unit has a
    positive raw reach: the ratio is taken from the reach and is the ratio
    of the ROTS as well. *)
Theorem demographic_rots_reconcile (calc_mode : string)
    (units : list (kpi_row exact)) (td : list (demo_row exact))
    (correction : exact) :
  let final_df := apply_metrics calc_mode units in
  Forall (fun j => isnull (ratio j) = false)
         (join_ratio td (ratio_map final_df)) ->
  Forall (fun u =>
            pd_sum (map demo_rots
                        (filter (fun d => (demo_ftr_idn d =? ftr_idn u)%string)
                                td))
            = rots u) units ->
  Forall (fun u => fgt (reach u) (lit 0) = true) units ->
  pd_sum (map sum_adj_demo_rots (gender_summ td final_df correction))
  = cur_rots final_df
  /\ pd_sum (map sum_adj_demo_rots (age_summ td final_df correction))
     = cur_rots final_df
  /\ pd_sum (map sum_adj_demo_rots (pivot_demo td final_df correction))
     = cur_rots final_df.
Proof.
  intros final_df Hjoin Hsum Hpos.
  assert (qsum (map (fun j => val (adj_demo_rots j)) (allocate td final_df))
          = qsum (map (fun r => val (adj_rots r)) final_df)) as Htotal.
  { unfold adj_demo_rots.
    rewrite (allocated_column_total demo_rots td final_df Hjoin).
    subst final_df. unfold apply_metrics. rewrite !map_map.
    apply qsum_ext. intros u Hu. cbn [base].
    rewrite Forall_forall in Hsum, Hpos.
    pose proof (Hsum u Hu) as Hu_sum.
    rewrite pd_sum_exact, map_map in Hu_sum.
    rewrite (filter_ext _ (fun d => (demo_ftr_idn d =? ftr_idn u)%string))
      by (intros d; apply String.eqb_sym).
    replace (qsum (map (fun d => val (demo_rots d)) _)) with (val (rots u))
      by (rewrite <- Hu_sum; reflexivity).
    rewrite Qcmult_comm. apply (calc_ratio_rots calc_mode u (Hpos u Hu)). }
  assert (cur_rots final_df
          = Some (qsum (map (fun j => val (adj_demo_rots j))
                            (allocate td final_df)))) as ->
    by (unfold cur_rots; now rewrite pd_sum_exact, map_map, Htotal).
  unfold gender_summ, age_summ, pivot_demo.
  rewrite <- (filter_all (apply_correction correction
                (groupby_sum string _ _ _ _))).
  rewrite <- (filter_all (apply_correction correction
                (groupby_sum Z _ _ _ _))).
  rewrite <- (filter_all (apply_correction correction
                (groupby_sum (Z * string) _ _ _ _))).
  rewrite (grouped_rots_where string String.eqb String.leb String.eqb_eq
             (fun _ => true)).
  rewrite (grouped_rots_where Z Z.eqb Z.leb Z.eqb_eq (fun _ => true)).
  rewrite (grouped_rots_where (Z * string) age_gender_eqb age_gender_leb
             age_gender_eqb_eq (fun _ => true)).
  rewrite !filter_all. repeat split.
Qed.

Lemma qsum_nonneg (l : list Qc) :
  Forall (fun q => (0 <= q)%Qc) l -> (0 <= qsum l)%Qc.
Proof.
  induction 1 as [|q l Hq _ IH]; cbn [qsum]; [apply Qcle_refl |].
  rewrite <- (Qcplus_0_l 0). now apply Qcplus_le_compat.
Qed.

Lemma exact_not_neg (x : exact) :
  fgt (lit 0) x = false <-> (0 <= val x)%Qc.
Proof.
  change (lit 0 : exact) with (Some (Q2Qc 0) : exact).
  destruct x as [q|]; cbn [val].
  - split.
    + intros Hgt. apply Qcnot_lt_le. intros Hlt.
      apply (exact_gt_iff 0 q) in Hlt. congruence.
    + intros Hle.
      destruct (fgt (Some (Q2Qc 0) : exact) (Some q)) eqn:E; [| reflexivity].
      apply (exact_gt_iff 0 q) in E. now apply Qcle_not_lt in Hle.
  - split; [intros _; apply Qcle_refl | reflexivity].
Qed.

(** X12. Under an active demographic filter the raw values of a unit are
    the sums of its filtered records, so the reconciliation of the reach
    needs no assumption on the data beyond records without a negative
    reach: in exact arithmetic, when every joined record has a ratio that
    is a number and the correction factor is a number, the corrected reach
    of the gender groups, of the age groups and of the detail table each
    add up to the corrected reach shown for the displayed rows. *)
Theorem filtered_reach_reconciles (calc_mode : string)
    (units : list (kpi_row exact)) (td : list (demo_row exact))
    (correction : exact) :
  let final_df :=
    apply_metrics calc_mode (map (with_demo_totals td) units) in
  Forall (fun j => isnull (ratio j) = false)
         (join_ratio td (ratio_map final_df)) ->
  Forall (fun d => fgt (lit 0) (demo_reach d) = false) td ->
  isnull correction = false ->
  pd_sum (map sum_adj_demo_reach (gender_summ td final_df correction))
  = final_cur_reach final_df correction
  /\ pd_sum (map sum_adj_demo_reach (age_summ td final_df correction))
     = final_cur_reach final_df correction
  /\ pd_sum (map sum_adj_demo_reach (pivot_demo td final_df correction))
     = final_cur_reach final_df correction.
Proof.
  intros final_df Hjoin Hdemo Hcorr. subst final_df.
  destruct (exact_notnull _ Hcorr) as [c ->].
  assert (Forall (fun u => fgt (lit 0) (reach u) = false)
                 (map (with_demo_totals td) units)) as Hneg.
  { apply Forall_forall. intros u Hu.
    apply in_map_iff in Hu as (u0 & <- & _). cbn [reach with_demo_totals].
    apply exact_not_neg. rewrite pd_sum_exact. cbn [val].
    apply qsum_nonneg. rewrite Forall_map, Forall_map.
    apply Forall_forall. intros d Hd. apply filter_In in Hd as [Hd _].
    rewrite Forall_forall in Hdemo. now apply exact_not_neg, Hdemo. }
  pose proof (allocated_reach_total calc_mode _ td Hjoin
                (demo_filter_sums_by_construction td units) Hneg) as Htotal.
  unfold final_cur_reach, cur_reach, gender_summ, age_summ, pivot_demo.
  rewrite (grouped_reach_total string String.eqb String.leb String.eqb_eq).
  rewrite (grouped_reach_total Z Z.eqb Z.leb Z.eqb_eq).
  rewrite (grouped_reach_total (Z * string) age_gender_eqb age_gender_leb
             age_gender_eqb_eq).
  rewrite pd_sum_exact, map_map, exact_mul_some, Htotal.
  repeat split.
Qed.

End RotsAndFilter.

(** ** The top-N view *)

Section TopNFacts.

Context {num : Type} `{PyNum num}.

Variable sort_values :
  (merged_row num -> num) -> list (merged_row num) -> list (merged_row num).

(** X13. Whatever order the sort returns, as long as it returns the rows
    it was given: the displayed rows together with the rows that are cut
    are the rows of the full selection, each as often as there, and their
    number is the smaller of N and the size of the selection (the size
    itself when N is 0). *)
Theorem displayed_rows (sort_col_ui : string) (top_n : nat)
    (merged : list (merged_row num)) :
  Permutation (sort_values (sort_target sort_col_ui) merged) merged ->
  let final_df := displayed sort_values sort_col_ui top_n merged in
  (exists cut, Permutation (final_df ++ cut) merged)
  /\ (forall r, In r final_df -> In r merged)
  /\ List.length final_df
     = (if (0 <? top_n)%nat then Nat.min top_n (List.length merged)
        else List.length merged).
Proof.
  intros Hperm final_df. subst final_df. unfold displayed.
  set (sorted := sort_values (sort_target sort_col_ui) merged) in *.
  destruct (0 <? top_n)%nat.
  - split; [| split].
    + exists (skipn top_n sorted). now rewrite firstn_skipn.
    + intros r Hr. apply (Permutation_in _ Hperm).
      rewrite <- (firstn_skipn top_n sorted). apply in_or_app. now left.
    + rewrite length_firstn. now rewrite (Permutation_length Hperm).
  - split; [| split].
    + exists []. now rewrite app_nil_r.
    + intros r Hr. now apply (Permutation_in _ Hperm).
    + now apply Permutation_length.
Qed.

Lemma StronglySorted_split {A : Type} (R : A -> A -> Prop) (n : nat)
    (l : list A) :
  StronglySorted R l ->
  forall x y, In x (firstn n l) -> In y (skipn n l) -> R x y.
Proof.
  intros Hs. revert n. induction Hs as [|a l Hs IH Ha]; intros n x y.
  - rewrite firstn_nil. intros [].
  - destruct n as [|n]; cbn [firstn skipn]; [intros [] |].
    intros [<- | Hx] Hy.
    + rewrite Forall_forall in Ha. apply Ha.
      rewrite <- (firstn_skipn n l). apply in_or_app. now right.
    + now apply (IH n).
Qed.

(** X15. The cut keeps the best rows: when the sort delivers the order of
    [sort_values(ascending=False)], no row that is cut has a greater sort
    key than a row that is displayed, and a displayed row without a key
    means that every row that is cut is without a key too. *)
Theorem displayed_rows_dominate (sort_col_ui : string) (top_n : nat)
    (merged : list (merged_row num)) (x y : merged_row num) :
  sorted_desc (sort_target sort_col_ui)
              (sort_values (sort_target sort_col_ui) merged) ->
  (0 < top_n)%nat ->
  In x (displayed sort_values sort_col_ui top_n merged) ->
  In y (skipn top_n (sort_values (sort_target sort_col_ui) merged)) ->
  fgt (sort_target sort_col_ui y) (sort_target sort_col_ui x) = false
  /\ (isnull (sort_target sort_col_ui x) = true ->
      isnull (sort_target sort_col_ui y) = true).
Proof.
  intros Hsorted Hn Hx Hy. unfold displayed in Hx.
  apply Nat.ltb_lt in Hn. rewrite Hn in Hx.
  exact (StronglySorted_split _ top_n _ Hsorted x y Hx Hy).
Qed.

End TopNFacts.

Section TopNExact.

Local Open Scope num_scope.

Variable sort_values :
  (merged_row exact -> exact) -> list (merged_row exact)
  -> list (merged_row exact).

Lemma qsum_perm (l l' : list Qc) : Permutation l l' -> qsum l = qsum l'.
Proof.
  induction 1 as [| x l l' _ IH | x y l | l l' l'' _ IH1 _ IH2]; cbn [qsum].
  - reflexivity.
  - now rewrite IH.
  - ring.
  - now rewrite IH1.
Qed.

Lemma pd_sum_perm (l l' : list exact) :
  Permutation l l' -> pd_sum l = pd_sum l'.
Proof.
  intros Hperm. rewrite !pd_sum_exact. f_equal.
  apply qsum_perm. now apply Permutation_map.
Qed.

(** X14. The view the script opens with shows the full selection: when N
    is left at the size of the selection (or is 0), the displayed count,
    the displayed ROTS and reach in exact arithmetic, the correction factor
    and the corrected reach are those of the full selection. *)
Theorem default_view_is_full_selection (sort_col_ui : string) (top_n : nat)
    (merged : list (merged_row exact))
    (filter_mode selected : string)
    (factor_df : option (list (factor_row exact))) (correction : exact) :
  Permutation (sort_values (sort_target sort_col_ui) merged) merged ->
  top_n = 0%nat \/ (List.length merged <= top_n)%nat ->
  let final_df := displayed sort_values sort_col_ui top_n merged in
  List.length final_df = List.length merged
  /\ cur_rots final_df = sum_adj_rots merged
  /\ cur_reach final_df = sum_adj_reach merged
  /\ cur_correction (List.length final_df) filter_mode selected factor_df
     = correction_val (List.length merged) filter_mode selected factor_df
  /\ final_cur_reach final_df correction
     = final_total_reach merged correction.
Proof.
  intros Hperm Hn final_df.
  assert (Permutation final_df merged) as Hfull.
  { subst final_df. unfold displayed.
    destruct (0 <? top_n)%nat eqn:E; [| exact Hperm].
    destruct Hn as [-> | Hlen]; [discriminate |].
    rewrite firstn_all2; [exact Hperm |].
    now rewrite (Permutation_length Hperm). }
  assert (List.length final_df = List.length merged) as Hlen
    by now apply Permutation_length.
  assert (cur_reach final_df = sum_adj_reach merged) as Hreach
    by (apply pd_sum_perm; now apply Permutation_map).
  split; [exact Hlen |]. split; [| split; [exact Hreach | split]].
  - apply pd_sum_perm. now apply Permutation_map.
  - rewrite Hlen. reflexivity.
  - unfold final_cur_reach, final_total_reach. now rewrite Hreach.
Qed.

Lemma qsum_firstn_le (n : nat) (l : list Qc) :
  Forall (fun q => (0 <= q)%Qc) l -> (qsum (firstn n l) <= qsum l)%Qc.
Proof.
  intros Hall. revert n. induction Hall as [|q l Hq Hl IH]; intros n.
  - rewrite firstn_nil. apply Qcle_refl.
  - destruct n as [|n]; cbn [firstn qsum].
    + rewrite <- (Qcplus_0_l 0). apply Qcplus_le_compat; [exact Hq |].
      now apply qsum_nonneg.
    + apply Qcplus_le_compat; [apply Qcle_refl | apply IH].
Qed.

(** X16. Cutting never adds: in exact arithmetic, when no adjusted value
    of the selection is negative, the displayed ROTS and the displayed
    reach are at most those of the full selection, whatever N is. *)
Theorem displayed_totals_bounded (sort_col_ui : string) (top_n : nat)
    (merged : list (merged_row exact)) :
  Permutation (sort_values (sort_target sort_col_ui) merged) merged ->
  Forall (fun r => fgt (lit 0) (adj_rots r) = false
                   /\ fgt (lit 0) (adj_reach r) = false) merged ->
  let final_df := displayed sort_values sort_col_ui top_n merged in
  fgt (cur_rots final_df) (sum_adj_rots merged) = false
  /\ fgt (cur_reach final_df) (sum_adj_reach merged) = false.
Proof.
  intros Hperm Hpos final_df. subst final_df. unfold displayed.
  set (sorted := sort_values (sort_target sort_col_ui) merged) in *.
  assert (forall col : merged_row exact -> exact,
             Forall (fun r => fgt (lit 0) (col r) = false) merged ->
             forall l, l = sorted \/ l = firstn top_n sorted ->
             fgt (pd_sum (map col l)) (pd_sum (map col merged)) = false)
    as Hcol.
  { intros col Hcolpos l Hl. rewrite !pd_sum_exact.
    destruct (fgt _ _) eqn:E; [| reflexivity].
    apply exact_gt_iff in E. exfalso. apply (Qclt_not_le _ _ E).
    rewrite <- (qsum_perm _ _ (Permutation_map val
                                  (Permutation_map col Hperm))).
    destruct Hl as [-> | ->]; [apply Qcle_refl |].
    rewrite <- !firstn_map. apply qsum_firstn_le.
    rewrite !Forall_map. apply Forall_forall. intros r Hr.
    apply exact_not_neg. rewrite Forall_forall in Hcolpos.
    apply Hcolpos. now apply (Permutation_in _ Hperm). }
  unfold cur_rots, cur_reach, sum_adj_rots, sum_adj_reach.
  split; apply Hcol;
    try (eapply Forall_impl; [| exact Hpos]; cbn; tauto);
    destruct (0 <? top_n)%nat; auto.
Qed.

End TopNExact.

(** ** The merge of the tables *)

Section LeftMerge.

Variables (L R O : Type) (on : L -> R -> bool)
          (combine : L -> option R -> O).

Lemma in_left_merge (left : list L) (right : list R) (o : O) :
  In o (left_merge on combine left right) <->
  exists l, In l left
            /\ ((filter (on l) right = [] /\ o = combine l None)
                \/ exists r, In r right /\ on l r = true
                             /\ o = combine l (Some r)).
Proof.
  unfold left_merge. rewrite in_flat_map. split.
  - intros (l & Hl & Ho). exists l. split; [exact Hl |].
    destruct (filter (on l) right) as [|r hits] eqn:Hf.
    + left. destruct Ho as [<- | []]. auto.
    + right. apply in_map_iff in Ho as (r' & <- & Hr').
      rewrite <- Hf in Hr'. apply filter_In in Hr' as [Hin Hon].
      now exists r'.
  - intros (l & Hl & [[Hf ->] | (r & Hr & Hon & ->)]); exists l;
      (split; [exact Hl |]).
    + rewrite Hf. now left.
    + assert (In r (filter (on l) right)) as Hin by now apply filter_In.
      destruct (filter (on l) right) as [|r0 hits]; [contradiction |].
      now apply (in_map (fun r' => combine l (Some r'))).
Qed.

(** With at most one row of [right] for every row of [left], the merge
    has the rows of [left], one for one. *)
Lemma left_merge_one_for_one (left : list L) (right : list R) :
  (forall l, In l left -> (List.length (filter (on l) right) <= 1)%nat) ->
  left_merge on combine left right
  = map (fun l => combine l (hd_error (filter (on l) right))) left.
Proof.
  induction left as [|l left IH]; intros Hone; [reflexivity |].
  change (left_merge on combine (l :: left) right)
    with (match filter (on l) right with
          | [] => [combine l None]
          | r :: hits => map (fun r' => combine l (Some r')) (r :: hits)
          end ++ left_merge on combine left right).
  rewrite IH by (intros; apply Hone; now right).
  specialize (Hone l (or_introl eq_refl)). cbn [map].
  destruct (filter (on l) right) as [|r [|r' hits]]; cbn in *;
    [reflexivity | reflexivity | lia].
Qed.

(** A key column without repetition gives at most one match. *)
Lemma unique_key_one_match {Key : Type} (key : R -> Key) (l : L)
    (k : Key) (right : list R) :
  NoDup (map key right) ->
  (forall r, on l r = true -> key r = k) ->
  (List.length (filter (on l) right) <= 1)%nat.
Proof.
  intros Hnd Hkey. induction right as [|r right IH]; cbn; [lia |].
  inversion Hnd as [|? ? Hnotin Hnd']; subst.
  destruct (on l r) eqn:E; [| now apply IH].
  cbn. assert (filter (on l) right = []) as ->; [| cbn; lia].
  destruct (filter (on l) right) as [|r' hits] eqn:Hf; [reflexivity |].
  exfalso. apply Hnotin.
  assert (In r' (filter (on l) right)) as Hin by (rewrite Hf; now left).
  apply filter_In in Hin as [Hin Hon].
  rewrite (Hkey r E), <- (Hkey r' Hon). now apply in_map.
Qed.

End LeftMerge.

Section MergedFacts.

Context {num : Type} `{PyNum num}.
Local Open Scope string_scope.

Variables (kpi : list (kpi_rec num)) (digital : list (digital_rec num))
          (shelter_info : list (shelter_rec num))
          (demographics : option (list (demo_row num)))
          (pkg_mapping : list (string * string))
          (selected_month : string) (final_selected_idns : list string)
          (selected_gender : string) (selected_age_code : Z).

(** The rows that enter the merge, after the substitution of the
    demographic totals: the units of [target_kpi], with their month. *)
Lemma merged_from_target (g : geo_row num) :
  In g (merged kpi digital shelter_info demographics pkg_mapping
             selected_month final_selected_idns selected_gender
             selected_age_code) ->
  exists k, In k (target_kpi kpi selected_month final_selected_idns)
            /\ ftr_idn (row g) = k_ftr_idn k
            /\ shelter_type (row g) = k_shelter_type k
            /\ media_type (row g) = k_media_type k
            /\ (stay_time (row g) = nan
                \/ exists d, In d digital
                             /\ dg_month d = selected_month
                             /\ dg_ftr_idn d = k_ftr_idn k
                             /\ stay_time (row g) = dg_stay_time d
                             /\ share_of_time (row g) = dg_share_of_time d).
Proof.
  unfold merged. intros Hg.
  apply in_left_merge in Hg as (rn & Hrn & Hg).
  assert (row g = fst rn) as -> by (destruct Hg as [[_ ->] | (s & _ & _ & ->)];
                                    reflexivity).
  clear Hg. apply in_left_merge in Hrn as (kp & Hkp & Hrn).
  apply in_left_merge in Hkp as (k' & Hk' & Hkp).
  assert (fst kp = k') as Hfst
    by (destruct Hkp as [[_ ->] | (p & _ & _ & ->)]; reflexivity).
  assert (exists k, In k (target_kpi kpi selected_month final_selected_idns)
                    /\ k_ftr_idn k' = k_ftr_idn k
                    /\ k_month k' = k_month k
                    /\ k_shelter_type k' = k_shelter_type k
                    /\ k_media_type k' = k_media_type k)
      as (k & Hk & Hid & Hm & Hs & Hmt).
  { destruct demographics as [demo|]; [| now exists k'].
    destruct (is_demo_filtered _ _); [| now exists k'].
    apply in_map_iff in Hk' as (k & <- & Hk). now exists k. }
  assert (k_month k = selected_month) as Hmonth.
  { apply filter_In in Hk as [_ Hc]. apply andb_prop in Hc as [Hc _].
    now apply String.eqb_eq. }
  exists k. split; [exact Hk |].
  destruct Hrn as [[_ ->] | (d & Hd & Hon & ->)]; cbn [fst ftr_idn
    shelter_type media_type stay_time share_of_time]; rewrite Hfst.
  - repeat split; auto.
  - repeat split; auto. right. exists d.
    apply andb_prop in Hon as [Hdm Hdi]. rewrite Hfst in Hdm, Hdi.
    apply String.eqb_eq in Hdm, Hdi.
    repeat split; auto; congruence.
Qed.

(** X18. The merge loses no unit, and with key columns without
    repetition it duplicates none: when no identifier occurs twice in
    [pkg_mapping] and in [shelter_info] and no pair of month and identifier
    twice in [digital], [merged] has exactly the rows of [target_kpi], one
    for one and in their order, so [total_shelters] is their number. *)
Theorem merged_one_row_per_unit :
  NoDup (map fst pkg_mapping) ->
  NoDup (map (fun d => (dg_month d, dg_ftr_idn d)) digital) ->
  NoDup (map sh_ftr_idn shelter_info) ->
  map (fun g => ftr_idn (row g))
      (merged kpi digital shelter_info demographics pkg_mapping
              selected_month final_selected_idns selected_gender
              selected_age_code)
  = map k_ftr_idn (target_kpi kpi selected_month final_selected_idns)
  /\ List.length
       (merged kpi digital shelter_info demographics pkg_mapping
               selected_month final_selected_idns selected_gender
               selected_age_code)
     = List.length (target_kpi kpi selected_month final_selected_idns).
Proof.
  intros Hpkg Hdig Hsh.
  assert (map (fun g => ftr_idn (row g))
              (merged kpi digital shelter_info demographics pkg_mapping
                      selected_month final_selected_idns selected_gender
                      selected_age_code)
          = map k_ftr_idn (target_kpi kpi selected_month final_selected_idns))
    as Hids.
  { unfold merged.
    rewrite (left_merge_one_for_one _ _ _ _ _ _ shelter_info)
      by (intros rn _;
          apply (unique_key_one_match _ _
                   (fun (rn : kpi_row num * string) s =>
                      ftr_idn (fst rn) =? sh_ftr_idn s)
                   sh_ftr_idn rn (ftr_idn (fst rn)) _ Hsh);
          intros s Hs; apply String.eqb_eq in Hs; now symmetry).
    rewrite (left_merge_one_for_one _ _ _ _ _ _ digital)
      by (intros kp _;
          apply (unique_key_one_match _ _
                   (fun (kp : kpi_rec num * option string) d =>
                      (k_month (fst kp) =? dg_month d)
                      && (k_ftr_idn (fst kp) =? dg_ftr_idn d))
                   (fun d => (dg_month d, dg_ftr_idn d)) kp
                   (k_month (fst kp), k_ftr_idn (fst kp)) _ Hdig);
          intros d Hd; apply andb_prop in Hd as [Hm Hi];
          apply String.eqb_eq in Hm, Hi; now rewrite Hm, Hi).
    rewrite (left_merge_one_for_one _ _ _ _ _ _ pkg_mapping)
      by (intros k _;
          apply (unique_key_one_match _ _
                   (fun (k : kpi_rec num) (p : string * string) =>
                      k_ftr_idn k =? fst p)
                   fst k (k_ftr_idn k) _ Hpkg);
          intros p Hp; apply String.eqb_eq in Hp; now symmetry).
    rewrite !map_map. cbn [row fst ftr_idn].
    destruct demographics as [demo|]; [| reflexivity].
    destruct (is_demo_filtered _ _); [| reflexivity].
    rewrite map_map. reflexivity. }
  split; [exact Hids |].
  rewrite <- (length_map (fun g => ftr_idn (row g))), Hids.
  apply length_map.
Qed.

End MergedFacts.

(** X19. A unit without a digital record for the selected month never
    gets the digital formula, whatever its package type and the
    calculation option: its stay time is missing in [merged], and its
    adjusted values are its raw values, or their halves for a poster on a
    tourist information board. *)
Theorem no_digital_record_no_formula
    (kpi : list (kpi_rec float)) (digital : list (digital_rec float))
    (shelter_info : list (shelter_rec float))
    (demographics : option (list (demo_row float)))
    (pkg_mapping : list (string * string))
    (selected_month : string) (final_selected_idns : list string)
    (selected_gender : string) (selected_age_code : Z)
    (calc_mode : string) (g : geo_row float) :
  In g (merged kpi digital shelter_info demographics pkg_mapping
               selected_month final_selected_idns selected_gender
               selected_age_code) ->
  Forall (fun d => ((dg_month d =? selected_month)
                    && (dg_ftr_idn d =? ftr_idn (row g)))%string = false)
         digital ->
  isnull (stay_time (row g)) = true
  /\ (calculate_metrics_row calc_mode (row g)
      = (rots (row g), reach (row g))
      \/ (shelter_type (row g) = "관광안내판"%string
          /\ media_type (row g) = "포스터"%string
          /\ calculate_metrics_row calc_mode (row g)
             = (fdiv (rots (row g)) (lit 2), fdiv (reach (row g)) (lit 2)))).
Proof.
  intros Hg Hnone.
  assert (isnull (stay_time (row g)) = true) as Hstay.
  { apply merged_from_target in Hg
      as (k & _ & Hid & _ & _ & [-> | (d & Hd & Hm & Hi & _)]);
      [reflexivity |].
    rewrite Forall_forall in Hnone. specialize (Hnone d Hd).
    rewrite Hm, Hi, <- Hid, !String.eqb_refl in Hnone. discriminate. }
  split; [exact Hstay |].
  destruct ((shelter_type (row g) =? "관광안내판")
            && (media_type (row g) =? "포스터"))%string eqn:HA.
  - apply andb_prop in HA as [Hs Hm].
    apply String.eqb_eq in Hs, Hm.
    destruct (String.eqb_spec calc_mode mode_no_digital_formula) as [-> | Hne].
    + now left.
    + right. repeat split; auto.
      unfold calculate_metrics_row.
      now rewrite (mode_other_than _ _ Hne), Hs, Hm.
  - left. now apply missing_stay_time_passes_through.
Qed.

(** ** Packages: choice, filters, storage *)

Section PackageFacts.

Context {num : Type} `{PyNum num}.
Local Open Scope string_scope.

Lemma unique_ids_In (l : list string) (x : string) :
  In x (unique string String.eqb l) <-> In x l.
Proof. apply (unique_In string String.eqb String.eqb_eq). Qed.

Lemma unique_ids_NoDup (l : list string) : NoDup (unique string String.eqb l).
Proof. apply (unique_NoDup string String.eqb String.eqb_eq). Qed.

Lemma drop_duplicates_In {A : Type} (key : A -> string) (l : list A)
    (a : A) :
  In a (drop_duplicates key l) -> In a l.
Proof.
  induction l as [|b l IH]; cbn; [tauto |].
  intros [-> | Ha]; [now left |].
  apply filter_In in Ha as [Ha _]. right. now apply IH.
Qed.

Lemma drop_duplicates_NoDup {A : Type} (key : A -> string) (l : list A) :
  NoDup (map key (drop_duplicates key l)).
Proof.
  induction l as [|b l IH]; cbn; constructor.
  - rewrite in_map_iff. intros (a & Hk & Ha).
    apply filter_In in Ha as [_ Hne].
    rewrite Hk, String.eqb_refl in Hne. discriminate.
  - revert IH. generalize (drop_duplicates key l) as d.
    induction d as [|a d IHd]; cbn; intros Hnd; [constructor |].
    inversion Hnd as [|? ? Hnotin Hnd']; subst.
    destruct (negb (key b =? key a)); cbn; [| now apply IHd].
    constructor; [| now apply IHd].
    rewrite in_map_iff. intros (a' & Hk & Ha').
    apply filter_In in Ha' as [Ha' _]. apply Hnotin.
    rewrite <- Hk. now apply in_map.
Qed.

Lemma dict_get_drop_duplicates {V : Type} (l : list (string * V))
    (k : string) :
  dict_get (drop_duplicates fst l) k = dict_get l k.
Proof.
  induction l as [|[k' v] l IH]; cbn; [reflexivity |].
  destruct (k' =? k) eqn:E; [reflexivity |].
  rewrite <- IH. generalize (drop_duplicates fst l) as d.
  induction d as [|[k2 v2] d IHd]; cbn; [reflexivity |].
  destruct (k' =? k2) eqn:E2; cbn.
  - apply String.eqb_eq in E2. subst k2. now rewrite E.
  - destruct (k2 =? k); [reflexivity | exact IHd].
Qed.

(** X21. In a stored package the first row of an identifier decides: the
    package type that [pkg_mapping] gives an identifier is the one of the
    first row of the table with the name of the package and this
    identifier, and no identifier occurs twice in [pkg_mapping]. *)
Theorem pkg_mapping_first_seen (kpi : list (kpi_rec num))
    (package : list package_rec) (selected_month selected : string)
    (id : string) :
  contains "전체 (" selected = false ->
  let pkg_mapping :=
    fst (package_context kpi package selected_month selected) in
  dict_get pkg_mapping id
  = option_map pkg_type
      (find (fun p => (package_name p =? selected) && (pkg_ftr_idn p =? id))
            package)
  /\ NoDup (map fst pkg_mapping).
Proof.
  intros Hstored pkg_mapping. subst pkg_mapping.
  unfold package_context. rewrite Hstored. cbn [fst]. split.
  - rewrite dict_get_drop_duplicates.
    induction package as [|p package IH]; cbn; [reflexivity |].
    destruct (package_name p =? selected); cbn; [| exact IH].
    destruct (pkg_ftr_idn p =? id); [reflexivity | exact IH].
  - apply drop_duplicates_NoDup.
Qed.

(** X20. The filters narrow and never widen.  The final selection of
    package mode holds no identifier twice, and each of its identifiers
    belongs to the package ([pkg_mapping] has it), has a row in [kpi] for
    the selected month that carries the chosen installation type and media
    type, and, when a keyword is typed, a row whose name the keyword
    matches. *)
Theorem package_selection_narrows
    (name_contains : string -> string -> bool)
    (kpi : list (kpi_rec num)) (package : list package_rec)
    (selected_month selected : string)
    (selected_shelter_type selected_media_type search_keyword : string) :
  let sel := package_selection name_contains kpi package selected_month
               selected selected_shelter_type selected_media_type
               search_keyword in
  NoDup (snd sel)
  /\ forall id, In id (snd sel) ->
       In id (map fst (fst sel))
       /\ (exists k, In k kpi /\ k_month k = selected_month
                     /\ k_ftr_idn k = id
                     /\ (selected_shelter_type <> "전체" ->
                         k_shelter_type k = selected_shelter_type)
                     /\ (selected_media_type <> "전체" ->
                         k_media_type k = selected_media_type))
       /\ (search_keyword <> "" ->
           exists k, In k kpi /\ k_month k = selected_month
                     /\ k_ftr_idn k = id
                     /\ name_contains search_keyword (k_shelter_name k)
                        = true).
Proof.
  cbv zeta. unfold package_selection. cbn [fst snd].
  set (ctx := package_context kpi package selected_month selected).
  assert (NoDup (snd ctx) /\ forall id, In id (snd ctx) ->
                                        In id (map fst (fst ctx)))
    as [Hnd0 Hin0].
  { subst ctx. unfold package_context.
    destruct (contains "전체 (" selected); cbn [fst snd].
    - split; [apply unique_ids_NoDup |].
      intros id Hid. rewrite map_map. cbn [fst]. now rewrite map_id.
    - split; [apply unique_ids_NoDup |].
      intros id Hid. exact (proj1 (unique_ids_In _ _) Hid). }
  set (typed := narrow_by_type kpi selected_month (snd ctx)
                               selected_shelter_type selected_media_type).
  assert (forall id, In id typed ->
            In id (snd ctx)
            /\ exists k, In k kpi /\ k_month k = selected_month
                         /\ k_ftr_idn k = id
                         /\ (selected_shelter_type <> "전체" ->
                             k_shelter_type k = selected_shelter_type)
                         /\ (selected_media_type <> "전체" ->
                             k_media_type k = selected_media_type))
    as Htyped.
  { subst typed. unfold narrow_by_type. intros id.
    destruct (0 <? List.length (snd ctx))%nat eqn:Hlen.
    - intros Hid. apply (proj1 (unique_ids_In _ _)) in Hid.
      apply in_map_iff in Hid as (k & <- & Hk).
      assert (In k kpi /\ k_month k = selected_month
              /\ In (k_ftr_idn k) (snd ctx)
              /\ (selected_shelter_type <> "전체" ->
                  k_shelter_type k = selected_shelter_type)
              /\ (selected_media_type <> "전체" ->
                  k_media_type k = selected_media_type))
        as (Hkpi & Hm & Hid & Hs & Hmt).
      { destruct (String.eqb_spec selected_media_type "전체") as [Em | Em];
          cbn [negb] in Hk;
          [| apply filter_In in Hk as [Hk Hmt];
             apply String.eqb_eq in Hmt];
          (destruct (String.eqb_spec selected_shelter_type "전체")
             as [Es | Es];
           cbn [negb] in Hk;
           [| apply filter_In in Hk as [Hk Hs];
              apply String.eqb_eq in Hs]);
          apply filter_In in Hk as [Hk Hc];
          apply andb_prop in Hc as [Hc1 Hc2];
          apply String.eqb_eq in Hc1;
          apply existsb_exists in Hc2 as (x & Hx & Hxe);
          apply String.eqb_eq in Hxe; subst x;
          repeat split; auto; intros; contradiction. }
      split; [exact Hid |]. exists k. auto.
    - intros Hid. exfalso.
      destruct (snd ctx); [contradiction | discriminate]. }
  assert (NoDup typed) as Hnd_typed.
  { subst typed. unfold narrow_by_type.
    destruct (0 <? List.length (snd ctx))%nat;
      [apply unique_ids_NoDup | exact Hnd0]. }
  unfold narrow_by_search. fold typed.
  destruct (String.eqb_spec search_keyword "") as [Ek | Ek]; cbn [negb andb].
  - split; [exact Hnd_typed |]. intros id Hid.
    destruct (Htyped id Hid) as [Hctx Hk].
    split; [now apply Hin0 |]. split; [exact Hk | contradiction].
  - destruct (0 <? List.length typed)%nat eqn:Hlen.
    + split; [apply unique_ids_NoDup |]. intros id Hid.
      apply (proj1 (unique_ids_In _ _)) in Hid.
      apply in_map_iff in Hid as (k & <- & Hk).
      apply filter_In in Hk as [Hkpi Hc].
      apply andb_prop in Hc as [Hc Hname].
      apply andb_prop in Hc as [Hm Hin].
      apply String.eqb_eq in Hm.
      apply existsb_exists in Hin as (x & Hx & Hxe).
      apply String.eqb_eq in Hxe. subst x.
      destruct (Htyped _ Hx) as [Hctx Hk].
      split; [now apply Hin0 |]. split; [exact Hk |].
      intros _. now exists k.
    + split; [exact Hnd_typed |]. intros id Hid. exfalso.
      destruct typed; [contradiction | discriminate].
Qed.

End PackageFacts.

Section PackageStorage.

Context {num : Type} `{PyNum num}.
Local Open Scope string_scope.

Lemma unique_of_NoDup (l : list string) :
  NoDup l -> unique string String.eqb l = l.
Proof.
  induction 1 as [|x l Hnotin _ IH]; cbn; [reflexivity |].
  rewrite IH. f_equal. apply forallb_filter_id. apply forallb_forall.
  intros y Hy. apply negb_true_iff, String.eqb_neq. intros ->.
  contradiction.
Qed.

Lemma drop_duplicates_of_NoDup {A : Type} (key : A -> string) (l : list A) :
  NoDup (map key l) -> drop_duplicates key l = l.
Proof.
  induction l as [|a l IH]; cbn; intros Hnd; [reflexivity |].
  inversion Hnd as [|? ? Hnotin Hnd']; subst.
  rewrite IH by assumption. f_equal.
  apply forallb_filter_id. apply forallb_forall.
  intros b Hb. apply negb_true_iff, String.eqb_neq. intros Hk.
  apply Hnotin. rewrite Hk. now apply in_map.
Qed.

Lemma filter_none {A : Type} (f : A -> bool) (l : list A) :
  (forall a, In a l -> f a = false) -> filter f l = [].
Proof.
  induction l as [|a l IH]; cbn; intros Hf; [reflexivity |].
  rewrite (Hf a) by now left. apply IH. intros; apply Hf; now right.
Qed.

(** What the form does to the table, case by case. *)
Lemma save_pkg_form_cases (package : option (list package_rec))
    (table : list package_rec) (job_ok save_submitted : bool)
    (new_pkg_name real_pkg_type : string) (found : list string) :
  let r := save_pkg_form package table job_ok save_submitted new_pkg_name
                         real_pkg_type found in
  (fst r = Saved
   /\ snd r = (table ++ map (fun id => {| package_name := new_pkg_name;
                                          pkg_type := real_pkg_type;
                                          pkg_ftr_idn := id |}) found)%list
   /\ save_submitted = true /\ job_ok = true /\ new_pkg_name <> ""
   /\ forall p, package = Some p -> ~ In new_pkg_name (map package_name p))
  \/ (fst r <> Saved /\ snd r = table).
Proof.
  cbv zeta. unfold save_pkg_form, save_package_to_bq.
  destruct save_submitted; [| right; split; [discriminate | reflexivity]].
  destruct (String.eqb_spec new_pkg_name "") as [E | E]; cbn [negb];
    [right; split; [discriminate | reflexivity] |].
  destruct (match package with Some p => _ | None => false end) eqn:Hex;
    [right; split; [discriminate | reflexivity] |].
  destruct job_ok; cbn [fst snd];
    [| right; split; [discriminate | reflexivity]].
  left. repeat split; auto.
  intros p -> Hin.
  assert (existsb (String.eqb new_pkg_name)
                  (unique string String.eqb (map package_name p)) = true)
    as Htrue; [| congruence].
  apply existsb_exists. exists new_pkg_name.
  split; [now apply unique_ids_In | apply String.eqb_refl].
Qed.

(** X23. The table of packages only grows, and only by a new name.  The
    form changes the table only when it is submitted with a name that is
    not empty and that the loaded copy of the table does not hold, and
    then by appending one row per identifier with this name and the chosen
    type; the rows of every other name stay as they were, and a name that
    the loaded copy holds is answered with the message that it exists. *)
Theorem save_pkg_form_append_only (package : option (list package_rec))
    (table : list package_rec) (job_ok save_submitted : bool)
    (new_pkg_name real_pkg_type : string) (found : list string) :
  let r := save_pkg_form package table job_ok save_submitted new_pkg_name
                         real_pkg_type found in
  (exists added, snd r = (table ++ added)%list
                 /\ Forall (fun p => package_name p = new_pkg_name
                                     /\ pkg_type p = real_pkg_type) added
                 /\ (added <> [] ->
                     fst r = Saved /\ map pkg_ftr_idn added = found
                     /\ new_pkg_name <> ""
                     /\ forall p, package = Some p ->
                                  ~ In new_pkg_name (map package_name p)))
  /\ (forall other, other <> new_pkg_name ->
        filter (fun p => package_name p =? other) (snd r)
        = filter (fun p => package_name p =? other) table)
  /\ (forall p, package = Some p -> In new_pkg_name (map package_name p) ->
        save_submitted = true -> new_pkg_name <> "" ->
        fst r = NameExists).
Proof.
  intros r.
  pose proof (save_pkg_form_cases package table job_ok save_submitted
                new_pkg_name real_pkg_type found) as Hcases.
  cbv zeta in Hcases. fold r in Hcases.
  destruct Hcases
    as [(Hout & Htab & Hsub & Hjob & Hname & Hfresh) | [Hout Htab]].
  - split; [| split].
    + eexists. split; [exact Htab |]. split.
      * apply Forall_forall. intros p Hp.
        apply in_map_iff in Hp as (id & <- & _). now split.
      * intros _. repeat split; auto.
        rewrite map_map. cbn [pkg_ftr_idn]. apply map_id.
    + intros other Hother. rewrite Htab, filter_app.
      rewrite (filter_none _ (map _ found)); [apply app_nil_r |].
      intros p Hp. apply in_map_iff in Hp as (id & <- & _).
      cbn [package_name]. apply String.eqb_neq. now intros ->.
    + intros p Hp Hin _ _. exfalso. now apply (Hfresh p Hp).
  - split; [| split].
    + exists []. rewrite app_nil_r. split; [exact Htab |].
      split; [constructor | intros Hne; now contradiction Hne].
    + intros other _. now rewrite Htab.
    + intros p -> Hin -> Hname. subst r. unfold save_pkg_form.
      apply String.eqb_neq in Hname. rewrite Hname. cbn [negb].
      assert (existsb (String.eqb new_pkg_name)
                      (unique string String.eqb (map package_name p))
              = true) as ->; [| reflexivity].
      apply existsb_exists. exists new_pkg_name.
      split; [now apply unique_ids_In | apply String.eqb_refl].
Qed.

(** X22. A package that was stored is found again.  After the form has
    stored identifiers, none twice, under a name that the table did not
    hold, choosing this name gives back exactly these identifiers, in
    their order, each with the type they were stored with; the choice of
    any other package is what it was before. *)
Theorem saved_package_is_selected (kpi : list (kpi_rec num))
    (table : list package_rec) (job_ok : bool)
    (new_pkg_name real_pkg_type : string) (found : list string)
    (selected_month : string) :
  let r := save_pkg_form (Some table) table job_ok true new_pkg_name
                         real_pkg_type found in
  fst r = Saved ->
  contains "전체 (" new_pkg_name = false ->
  NoDup found ->
  package_context kpi (snd r) selected_month new_pkg_name
  = (map (fun id => (id, real_pkg_type)) found, found)
  /\ forall other, other <> new_pkg_name ->
       package_context kpi (snd r) selected_month other
       = package_context kpi table selected_month other.
Proof.
  intros r Hsaved Hstored Hnd.
  pose proof (save_pkg_form_cases (Some table) table job_ok true
                new_pkg_name real_pkg_type found) as Hcases.
  cbv zeta in Hcases. fold r in Hcases.
  destruct Hcases as [(_ & Htab & _ & _ & _ & Hfresh) | [Hout _]];
    [| contradiction].
  specialize (Hfresh table eq_refl). split.
  - unfold package_context. rewrite Hstored, Htab, filter_app.
    rewrite (filter_none _ table).
    + cbn [app]. rewrite (forallb_filter_id _ (map _ found))
        by (apply forallb_forall; intros p Hp;
            apply in_map_iff in Hp as (id & <- & _);
            apply String.eqb_refl).
      rewrite map_map. cbn [pkg_ftr_idn pkg_type].
      rewrite drop_duplicates_of_NoDup
        by (rewrite map_map; cbn [fst]; now rewrite map_id).
      rewrite map_map. cbn [fst]. rewrite map_id.
      now rewrite unique_of_NoDup.
    + intros p Hp. apply String.eqb_neq. intros Hname. apply Hfresh.
      rewrite <- Hname. now apply in_map.
  - intros other Hother. unfold package_context.
    destruct (contains "전체 (" other); [reflexivity |].
    rewrite Htab, filter_app.
    rewrite (filter_none _ (map _ found)); [now rewrite app_nil_r |].
    intros p Hp. apply in_map_iff in Hp as (id & <- & _).
    cbn [package_name]. apply String.eqb_neq. now intros ->.
Qed.

End PackageStorage.

(** ** The header of the dashboard *)

Lemma cur_correction_ok {num : Type} `{PyNum num} (n : nat)
    (filter_mode selected : string)
    (factor_df : option (list (factor_row num))) :
  exists c, cur_correction n filter_mode selected factor_df = Ok c.
Proof.
  unfold cur_correction.
  destruct (0 <? n)%nat; [| now eexists].
  destruct ((filter_mode =? "패키지")%string
            && dict_mem region_pkg_weights_map selected) eqn:Hover.
  - apply andb_prop in Hover as [_ Hmem].
    destruct (dict_getitem_of_mem _ _ Hmem) as [v ->]. now exists v.
  - destruct factor_df as [df|]; [| now eexists]. cbv zeta.
    destruct (found_val df _); cbn; now eexists.
Qed.

(** X17. The header of the dashboard is always produced.  For all
    displayed rows, every filter mode, package name and correction table,
    in binary64 and in exact arithmetic, no step between the count and the
    frequency raises; the header holds the number of rows, the two sums,
    the resolved correction and the reach times the correction, and its
    frequency is the quotient of ROTS and corrected reach when that reach
    is positive and 0 otherwise. *)
Theorem metrics_header_total :
  (forall (final_df : list (merged_row float))
          (filter_mode selected : string)
          (factor_df : option (list (factor_row float))),
      exists h c,
        metrics_header final_df filter_mode selected factor_df = Ok h
        /\ cur_correction (List.length final_df) filter_mode selected
                          factor_df = Ok c
        /\ h_count h = List.length final_df
        /\ h_rots h = cur_rots final_df
        /\ h_correction h = c
        /\ h_reach h = fmul (cur_reach final_df) c
        /\ h_freq h = (if fgt (h_reach h) (lit 0)
                       then fdiv (h_rots h) (h_reach h) else lit 0))
  /\ (forall (final_df : list (merged_row exact))
             (filter_mode selected : string)
             (factor_df : option (list (factor_row exact))),
         exists h c,
           metrics_header final_df filter_mode selected factor_df = Ok h
           /\ cur_correction (List.length final_df) filter_mode selected
                             factor_df = Ok c
           /\ h_count h = List.length final_df
           /\ h_rots h = cur_rots final_df
           /\ h_correction h = c
           /\ h_reach h = fmul (cur_reach final_df) c
           /\ h_freq h = (if fgt (h_reach h) (lit 0)
                          then fdiv (h_rots h) (h_reach h) else lit 0)).
Proof.
  split; intros final_df filter_mode selected factor_df;
    destruct (cur_correction_ok (List.length final_df) filter_mode selected
                factor_df) as [c Hc];
    unfold metrics_header; rewrite Hc; unfold freq, py_truediv;
    destruct (fgt (final_cur_reach final_df c) (lit 0)) eqn:Hgt.
  - assert (fis0 (final_cur_reach final_df c) = false) as ->
      by exact (float_gt_zero_nonzero _ Hgt).
    eexists. exists c. split; [reflexivity |].
    cbn [h_count h_rots h_reach h_freq h_correction].
    rewrite Hgt. repeat split.
  - eexists. exists c. split; [reflexivity |].
    cbn [h_count h_rots h_reach h_freq h_correction].
    rewrite Hgt. repeat split.
  - rewrite (exact_gt_zero_nonzero _ Hgt).
    eexists. exists c. split; [reflexivity |].
    cbn [h_count h_rots h_reach h_freq h_correction].
    rewrite Hgt. repeat split.
  - eexists. exists c. split; [reflexivity |].
    cbn [h_count h_rots h_reach h_freq h_correction].
    rewrite Hgt. repeat split.
Qed.

(** ** The map: markers, centre and circles *)

Section MapCentre.

Local Open Scope Qc_scope.

Lemma count_lit_S (n : nat) :
  Q2Qc (inject_Z (Z.of_nat (S n))) = Q2Qc (inject_Z (Z.of_nat n)) + 1.
Proof.
  apply Qc_is_canon. cbn [this Qcplus Q2Qc].
  rewrite !Qred_correct, Nat2Z.inj_succ. unfold Z.succ.
  now rewrite inject_Z_plus.
Qed.

Lemma count_lit_pos (n : nat) : 0 < Q2Qc (inject_Z (Z.of_nat (S n))).
Proof.
  unfold Qclt. cbn [this Q2Qc].
  pose proof (Qred_correct (inject_Z (Z.of_nat (S n)))) as E.
  rewrite E. unfold Qlt. cbn. lia.
Qed.

(** A sum lies between its number of terms times a lower bound and times
    an upper bound of the terms. *)
Lemma qsum_between (lo hi : Qc) (l : list Qc) :
  Forall (fun q => lo <= q /\ q <= hi) l ->
  lo * Q2Qc (inject_Z (Z.of_nat (List.length l))) <= qsum l
  /\ qsum l <= hi * Q2Qc (inject_Z (Z.of_nat (List.length l))).
Proof.
  induction 1 as [|q l [Hlo Hhi] _ [IHlo IHhi]].
  - cbn. split; rewrite Qcmult_0_r; apply Qcle_refl.
  - cbn [List.length qsum]. rewrite count_lit_S. split.
    + replace (lo * (Q2Qc (inject_Z (Z.of_nat (List.length l))) + 1))
        with (lo + lo * Q2Qc (inject_Z (Z.of_nat (List.length l))))
        by ring.
      now apply Qcplus_le_compat.
    + replace (hi * (Q2Qc (inject_Z (Z.of_nat (List.length l))) + 1))
        with (hi + hi * Q2Qc (inject_Z (Z.of_nat (List.length l))))
        by ring.
      now apply Qcplus_le_compat.
Qed.

(** The mean of a column without a missing cell lies between the bounds
    of its cells. *)
Lemma pd_mean_between (lo hi : Qc) (col : list exact) :
  col <> [] ->
  Forall (fun x => isnull x = false) col ->
  Forall (fun x => lo <= val x /\ val x <= hi) col ->
  exists m, pd_mean col = Some m /\ lo <= m /\ m <= hi.
Proof.
  intros Hne Hpresent Hbounds. unfold pd_mean.
  assert (filter (fun x : exact => negb (isnull x)) col = col) as ->.
  { clear Hne Hbounds. induction Hpresent as [|x l Hx _ IH]; cbn [filter].
    - reflexivity.
    - rewrite Hx. cbn [negb]. now rewrite IH. }
  destruct col as [|x col]; [contradiction |]. cbn [is_empty].
  rewrite pd_sum_exact.
  set (n := Q2Qc (inject_Z (Z.of_nat (List.length (x :: col))))).
  assert (0 < n) as Hn by apply count_lit_pos.
  assert (Qeq_bool n 0 = false) as Hn0.
  { destruct (Qeq_bool n 0) eqn:E; [| reflexivity].
    apply Qeq_bool_iff in E. exfalso. unfold Qclt in Hn.
    rewrite E in Hn. exact (Qlt_irrefl _ Hn). }
  change (lit (inject_Z (Z.of_nat (List.length (x :: col)))) : exact)
    with (Some n : exact).
  rewrite (exact_div_some _ _ Hn0).
  eexists. split; [reflexivity |].
  assert (Forall (fun q => lo <= q /\ q <= hi) (map val (x :: col)))
    as Hvals by (apply Forall_map; exact Hbounds).
  destruct (qsum_between lo hi _ Hvals) as [Hlo Hhi].
  rewrite length_map in Hlo, Hhi. fold n in Hlo, Hhi.
  pose proof (Qeq_bool_false_neq n Hn0) as Hn'.
  split; apply (Qcmult_lt_0_le_reg_r _ _ n Hn).
  - replace (qsum (map val (x :: col)) / n * n)
      with (qsum (map val (x :: col))) by (field; exact Hn').
    exact Hlo.
  - replace (qsum (map val (x :: col)) / n * n)
      with (qsum (map val (x :: col))) by (field; exact Hn').
    exact Hhi.
Qed.

End MapCentre.

Lemma map_df_located {num : Type} `{PyNum num} (final_df : list (final_row num))
    (r : final_row num) :
  In r (map_df final_df) <->
  In r final_df /\ isnull (latitude (f_geo r)) = false
  /\ isnull (longitude (f_geo r)) = false.
Proof.
  unfold map_df. rewrite filter_In, andb_true_iff, !negb_true_iff. tauto.
Qed.

(** X24. In exact arithmetic the map is centred among its markers.  When
    some displayed row has a place, the zoom level is 7 and the centre is
    the pair of the means of the markers' coordinates, which lies in every
    box of latitudes and longitudes that holds all markers. *)
Theorem map_centre_within_markers (fmt : exact -> string)
    (final_df : list (final_row exact))
    (lat_lo lat_hi lon_lo lon_hi : Qc) :
  map_df final_df <> [] ->
  Forall (fun p => (lat_lo <= val (pos_lat p))%Qc
                   /\ (val (pos_lat p) <= lat_hi)%Qc
                   /\ (lon_lo <= val (pos_lng p))%Qc
                   /\ (val (pos_lng p) <= lon_hi)%Qc)
         (k_data fmt (map_df final_df)) ->
  exists la lo : Qc,
    clat final_df = Some la /\ clon final_df = Some lo
    /\ czoom final_df = 7%Z
    /\ (lat_lo <= la)%Qc /\ (la <= lat_hi)%Qc
    /\ (lon_lo <= lo)%Qc /\ (lo <= lon_hi)%Qc.
Proof.
  intros Hne Hbox. unfold clat, clon, czoom.
  assert (is_empty (map_df final_df) = false) as ->
      by (destruct (map_df final_df); [contradiction | reflexivity]).
  cbn [negb].
  assert (forall r, In r (map_df final_df) ->
                    isnull (latitude (f_geo r)) = false
                    /\ isnull (longitude (f_geo r)) = false) as Hloc
      by (intros r Hr; now apply map_df_located in Hr).
  unfold k_data in Hbox. rewrite Forall_map in Hbox. cbn in Hbox.
  rewrite Forall_forall in Hbox.
  destruct (pd_mean_between lat_lo lat_hi
              (map (fun r => latitude (f_geo r)) (map_df final_df)))
    as (la & Hla & Hla1 & Hla2).
  { destruct (map_df final_df); [contradiction | discriminate]. }
  { rewrite Forall_map, Forall_forall. intros r Hr. now apply Hloc. }
  { rewrite Forall_map, Forall_forall. intros r Hr.
    destruct (Hbox r Hr) as (? & ? & _). now split. }
  destruct (pd_mean_between lon_lo lon_hi
              (map (fun r => longitude (f_geo r)) (map_df final_df)))
    as (lo & Hlo & Hlo1 & Hlo2).
  { destruct (map_df final_df); [contradiction | discriminate]. }
  { rewrite Forall_map, Forall_forall. intros r Hr. now apply Hloc. }
  { rewrite Forall_map, Forall_forall. intros r Hr.
    destruct (Hbox r Hr) as (_ & _ & ? & ?). now split. }
  exists la, lo. repeat split; assumption.
Qed.

Lemma filter_length_lt {A : Type} (f : A -> bool) (l : list A) (a : A) :
  In a l -> f a = false ->
  (List.length (filter f l) < List.length l)%nat.
Proof.
  induction l as [|x l IH]; cbn [In filter List.length]; [contradiction |].
  intros [-> | Hin] Hf.
  - rewrite Hf. pose proof (filter_length_le f l). lia.
  - specialize (IH Hin Hf). destruct (f x); cbn [List.length]; lia.
Qed.

(** X25. A unit without a record in [shelter_info] is counted but not
    drawn: its row of [merged] has no coordinates, so no marker is made
    for it, the markers are fewer than the displayed rows, and every
    marker that is made has both coordinates and the colour and name of a
    displayed row. *)
Theorem unit_without_place_is_off_the_map (fmt : float -> string)
    (kpi : list (kpi_rec float)) (digital : list (digital_rec float))
    (shelter_info : list (shelter_rec float))
    (demographics : option (list (demo_row float)))
    (pkg_mapping : list (string * string))
    (selected_month : string) (final_selected_idns : list string)
    (selected_gender : string) (selected_age_code : Z)
    (final_df : list (final_row float)) (r : final_row float) :
  In r final_df ->
  In (f_geo r) (merged kpi digital shelter_info demographics pkg_mapping
                       selected_month final_selected_idns selected_gender
                       selected_age_code) ->
  Forall (fun s => (sh_ftr_idn s =? ftr_idn (row (f_geo r)))%string = false)
         shelter_info ->
  ~ In r (map_df final_df)
  /\ (List.length (k_data fmt (map_df final_df))
      < List.length final_df)%nat
  /\ Forall (fun p =>
               isnull (pos_lat p) = false /\ isnull (pos_lng p) = false
               /\ exists r', In r' final_df
                             /\ pos_name p = shelter_name (f_geo r')
                             /\ pos_color p
                                = get_color_by_type
                                    (shelter_type (row (f_geo r'))))
            (k_data fmt (map_df final_df)).
Proof.
  intros Hr Hg Hnone.
  assert (isnull (latitude (f_geo r)) = true) as Hlat.
  { unfold merged in Hg.
    apply in_left_merge in Hg. destruct Hg as (rn & _ & [[_ ->] | Hhit]).
    - reflexivity.
    - destruct Hhit as (s & Hs & Hon & E).
      rewrite Forall_forall in Hnone. specialize (Hnone s Hs).
      rewrite E in Hnone. cbn [row] in Hnone.
      rewrite String.eqb_sym in Hnone. congruence. }
  assert (~ In r (map_df final_df)) as Hoff.
  { intros Hin. apply map_df_located in Hin. destruct Hin as (_ & E & _).
    congruence. }
  split; [exact Hoff |]. split.
  - unfold k_data. rewrite length_map. unfold map_df.
    apply (filter_length_lt _ _ r Hr). now rewrite Hlat.
  - unfold k_data. rewrite Forall_map, Forall_forall. intros r' Hr'.
    apply map_df_located in Hr'. destruct Hr' as (Hin & E1 & E2).
    cbn. repeat split; try assumption. now exists r'.
Qed.

Lemma last_cons {A : Type} (a d : A) (l : list A) :
  last (a :: l) d = last l a.
Proof.
  revert a d. induction l as [|b l IH]; intros a d; [reflexivity |].
  change (last (a :: b :: l) d) with (last (b :: l) d).
  now rewrite (IH b d), (IH b a).
Qed.

(** X26. The circles follow the zoom.  After any sequence of changes of
    the zoom the page has the circles it was rendered with, at their
    places and in their colours, and each has the radius of the level the
    map is at. *)
Theorem circles_follow_zoom {num : Type} `{PyNum num} (lat lon : num)
    (zoom_level : Z) (data : list (position num)) (levels : list Z) :
  let page := zooms (render_kakao_map lat lon zoom_level data) levels in
  level page = last levels zoom_level
  /\ map center (circles page) = map (fun p => (pos_lat p, pos_lng p)) data
  /\ map fillColor (circles page) = map pos_color data
  /\ Forall (fun c => radius c = getRadiusByLevel (level page))
            (circles page).
Proof.
  cbv zeta. unfold zooms.
  set (page0 := render_kakao_map lat lon zoom_level data).
  assert (level page0 = zoom_level
          /\ map center (circles page0)
             = map (fun p => (pos_lat p, pos_lng p)) data
          /\ map fillColor (circles page0) = map pos_color data
          /\ Forall (fun c => radius c = getRadiusByLevel (level page0))
                    (circles page0)) as Hinv.
  { unfold page0, render_kakao_map. cbn [level circles].
    rewrite !map_map. cbn [center fillColor].
    repeat split. rewrite Forall_map, Forall_forall. now intros. }
  clearbody page0. revert page0 zoom_level Hinv.
  induction levels as [|l levels IH]; intros page0 z (Hl & Hc & Hf & Hr).
  - cbn [fold_left last]. repeat split; assumption.
  - cbn [fold_left].
    rewrite last_cons. apply IH. unfold zoom_to, zoom_changed.
    cbn [level circles map_center].
    rewrite !map_map. cbn [center fillColor].
    repeat split; try assumption.
    rewrite Forall_map, Forall_forall. now intros.
Qed.

(** ** The demographic filter and the charts *)

Section FilteredCharts.

Context {num : Type} `{PyNum num}.
Local Open Scope string_scope.

Lemma allocate_demo_In (td : list (demo_row num))
    (final_df : list (merged_row num)) (j : joined_row num) :
  In j (allocate td final_df) -> In (demo j) td.
Proof.
  unfold allocate, join_ratio. rewrite in_map_iff.
  intros (j0 & <- & Hj0). cbn [fillna_ratio demo].
  apply in_flat_map in Hj0. destruct Hj0 as (d & Hd & Hj0).
  destruct (filter _ _) as [|e hits].
  - destruct Hj0 as [<- | []]. exact Hd.
  - apply in_map_iff in Hj0. destruct Hj0 as (e' & <- & _). exact Hd.
Qed.

Section Groups.

Variables (K : Type) (keqb kleb : K -> K -> bool).
Hypothesis keqb_eq : forall x y, keqb x y = true <-> x = y.

(** The groups of a summary are values of the key, each once. *)
Lemma summary_groups (key : joined_row num -> K) (df : list (joined_row num))
    (correction : num) :
  let summ := apply_correction correction
                (groupby_sum K keqb kleb key df) in
  NoDup (map group summ)
  /\ forall s, In s summ -> exists j, In j df /\ group s = key j.
Proof.
  cbv zeta. unfold apply_correction, groupby_sum.
  rewrite !map_map. cbn [group]. rewrite map_id. split.
  - apply (group_keys_spec K keqb keqb_eq kleb (map key df)).
  - intros s Hs. apply in_map_iff in Hs. destruct Hs as (k & <- & Hk).
    cbn [group].
    apply (Permutation_in (l' := unique K keqb (map key df))) in Hk;
      [| apply sort_keys_perm].
    apply (proj1 (unique_In K keqb keqb_eq _ _)) in Hk.
    apply in_map_iff in Hk. destruct Hk as (j & <- & Hj). now exists j.
Qed.

Lemma one_group (k : K) (summ : list (summ_row num K)) :
  NoDup (map group summ) ->
  (forall s, In s summ -> group s = k) ->
  (List.length summ <= 1)%nat.
Proof.
  intros Hnd Hall. destruct summ as [|s1 [|s2 summ]]; cbn; try lia.
  exfalso. cbn [map] in Hnd. inversion Hnd as [|? ? Hnotin _]; subst.
  apply Hnotin. left.
  rewrite (Hall s1), (Hall s2); cbn; auto.
Qed.

End Groups.

Lemma target_demo_filtered (demographics : list (demo_row num))
    (selected_month : string) (final_selected_idns : list string)
    (selected_gender : string) (selected_age_code : Z) (d : demo_row num) :
  In d (target_demo demographics selected_month final_selected_idns
                    selected_gender selected_age_code) ->
  (selected_age_code <> 0%Z -> age d = selected_age_code)
  /\ (selected_gender <> "전체" -> gender d = selected_gender).
Proof.
  unfold target_demo, demo_mask. rewrite filter_In, !andb_true_iff.
  intros (_ & (_ & Hg) & Ha). split.
  - intros Hne. apply Z.eqb_neq in Hne. rewrite Hne in Ha. cbn in Ha.
    now apply Z.eqb_eq.
  - intros Hne. apply String.eqb_neq in Hne. rewrite Hne in Hg. cbn in Hg.
    now apply String.eqb_eq.
Qed.

End FilteredCharts.

(** X27. A filter leaves one group in its chart, under its own label.
    With an age bracket chosen in the filter the age chart has at most one
    bar, for the code of this bracket and shown under the label that was
    chosen, and the detail table holds this bracket only; with a gender
    chosen the gender chart has at most one slice, shown under the chosen
    label, and the detail table holds this gender only. *)
Theorem filter_leaves_one_group {num : Type} `{PyNum num}
    (demographics : list (demo_row num)) (selected_month : string)
    (final_selected_idns : list string)
    (selected_gender_label selected_age_label selected_gender : string)
    (selected_age_code : Z) (final_df : list (merged_row num))
    (correction : num) :
  dict_get gender_map selected_gender_label = Some selected_gender ->
  dict_get age_map_inv selected_age_label = Some selected_age_code ->
  let td := target_demo demographics selected_month final_selected_idns
                        selected_gender selected_age_code in
  (selected_age_label <> "전체"%string ->
   (List.length (age_summ td final_df correction) <= 1)%nat
   /\ Forall (fun s => group s = selected_age_code
                       /\ zdict_get age_map_disp (group s)
                          = Some selected_age_label)
             (age_summ td final_df correction)
   /\ Forall (fun s => fst (group s) = selected_age_code)
             (pivot_demo td final_df correction))
  /\ (selected_gender_label <> "전체"%string ->
      (List.length (gender_summ td final_df correction) <= 1)%nat
      /\ Forall (fun s => group s = selected_gender
                          /\ dict_get gender_map_disp (group s)
                             = Some selected_gender_label)
                (gender_summ td final_df correction)
      /\ Forall (fun s => snd (group s) = selected_gender)
                (pivot_demo td final_df correction)).
Proof.
  intros Hgender Hage td.
  assert (forall j, In j (allocate td final_df) ->
                    (selected_age_code <> 0%Z ->
                     age (demo j) = selected_age_code)
                    /\ (selected_gender <> "전체"%string ->
                        gender (demo j) = selected_gender)) as Hrows.
  { intros j Hj. apply allocate_demo_In in Hj.
    now apply target_demo_filtered in Hj. }
  destruct (summary_groups Z Z.eqb Z.leb Z.eqb_eq
              (fun j => age (demo j)) (allocate td final_df) correction)
    as [Hand Hag].
  destruct (summary_groups string String.eqb String.leb String.eqb_eq
              (fun j => gender (demo j)) (allocate td final_df) correction)
    as [Hgnd Hgg].
  destruct (summary_groups (Z * string) age_gender_eqb age_gender_leb
              age_gender_eqb_eq
              (fun j => (age (demo j), gender (demo j)))
              (allocate td final_df) correction)
    as [_ Hpg].
  fold (age_summ td final_df correction) in Hand, Hag.
  fold (gender_summ td final_df correction) in Hgnd, Hgg.
  fold (pivot_demo td final_df correction) in Hpg.
  apply dict_get_In in Hage, Hgender.
  split.
  - intros Hlabel.
    assert (selected_age_code <> 0%Z
            /\ zdict_get age_map_disp selected_age_code
               = Some selected_age_label) as [Hcode Hdisp].
    { cbv [age_map_inv In] in Hage.
      each_entry Hage; try (now elim Hlabel); split;
        (discriminate || reflexivity). }
    assert (forall s, In s (age_summ td final_df correction) ->
                      group s = selected_age_code) as Hall.
    { intros s Hs. destruct (Hag s Hs) as (j & Hj & ->).
      now apply (Hrows j Hj). }
    split; [exact (one_group Z selected_age_code _ Hand Hall) |]. split.
    + apply Forall_forall. intros s Hs. rewrite (Hall s Hs). now split.
    + apply Forall_forall. intros s Hs. destruct (Hpg s Hs) as (j & Hj & ->).
      cbn [fst]. now apply (Hrows j Hj).
  - intros Hlabel.
    assert (selected_gender <> "전체"%string
            /\ dict_get gender_map_disp selected_gender
               = Some selected_gender_label) as [Hcode Hdisp].
    { cbv [gender_map In] in Hgender.
      each_entry Hgender; try (now elim Hlabel); split;
        (discriminate || reflexivity). }
    assert (forall s, In s (gender_summ td final_df correction) ->
                      group s = selected_gender) as Hall.
    { intros s Hs. destruct (Hgg s Hs) as (j & Hj & ->).
      now apply (Hrows j Hj). }
    split; [exact (one_group string selected_gender _ Hgnd Hall) |]. split.
    + apply Forall_forall. intros s Hs. rewrite (Hall s Hs). now split.
    + apply Forall_forall. intros s Hs. destruct (Hpg s Hs) as (j & Hj & ->).
      cbn [snd]. now apply (Hrows j Hj).
Qed.

(** ** The properties on the sample data *)

Lemma sample_ids_clean : Forall clean_id sample_ids.
Proof.
  repeat constructor; try discriminate;
    cbv [In comma newline sample_ids]; intros Hin;
    repeat (destruct Hin as [Hin | Hin]; [discriminate |]); exact Hin.
Qed.

Lemma raw_ids_join_witness :
  raw_ids (join comma sample_ids) = sample_ids
  /\ raw_ids (join newline sample_ids) = sample_ids.
Proof. apply (raw_ids_join sample_ids). exact sample_ids_clean. Defined.

Lemma undisplayed_unit_passes_through_witness :
  allocate ([] ++ sample_cut_record :: []) sample_shown
  = allocate [] sample_shown
    ++ {| demo := sample_cut_record; ratio := lit 1 |}
       :: allocate [] sample_shown
  /\ adj_demo_reach {| demo := sample_cut_record; ratio := lit 1 |}
     = PrimFloat.mul (demo_reach sample_cut_record) 1%float
  /\ (forall d' : demo_row exact,
         adj_demo_reach {| demo := d'; ratio := lit 1 |} = demo_reach d'
         /\ adj_demo_rots {| demo := d'; ratio := lit 1 |} = demo_rots d').
Proof.
  apply (undisplayed_unit_passes_through [] [] sample_cut_record
           sample_shown).
  repeat constructor.
Defined.

Lemma demographic_rots_reconcile_witness :
  pd_sum (map sum_adj_demo_rots
              (gender_summ sample_target_demo sample_merged (lit 0.5)))
  = cur_rots sample_merged
  /\ pd_sum (map sum_adj_demo_rots
                 (age_summ sample_target_demo sample_merged (lit 0.5)))
     = cur_rots sample_merged
  /\ pd_sum (map sum_adj_demo_rots
                 (pivot_demo sample_target_demo sample_merged (lit 0.5)))
     = cur_rots sample_merged.
Proof.
  apply (demographic_rots_reconcile mode_default sample_units
           sample_target_demo (lit 0.5)); repeat constructor.
Defined.

Lemma filtered_reach_reconciles_witness :
  let final_df :=
    apply_metrics mode_default
                  (map (with_demo_totals sample_target_demo) sample_units) in
  pd_sum (map sum_adj_demo_reach
              (gender_summ sample_target_demo final_df (lit 0.5)))
  = final_cur_reach final_df (lit 0.5)
  /\ pd_sum (map sum_adj_demo_reach
                 (age_summ sample_target_demo final_df (lit 0.5)))
     = final_cur_reach final_df (lit 0.5)
  /\ pd_sum (map sum_adj_demo_reach
                 (pivot_demo sample_target_demo final_df (lit 0.5)))
     = final_cur_reach final_df (lit 0.5).
Proof.
  apply (filtered_reach_reconciles mode_default sample_units
           sample_target_demo (lit 0.5)).
  - repeat constructor.
  - repeat constructor.
  - reflexivity.
Defined.

Lemma insert_desc_perm {num : Type} `{PyNum num}
    (key : merged_row num -> num) (x : merged_row num)
    (l : list (merged_row num)) :
  Permutation (insert_desc key x l) (x :: l).
Proof.
  induction l as [|h l IH]; cbn; [reflexivity |].
  destruct (goes_before key x h); [reflexivity |].
  rewrite IH. apply perm_swap.
Qed.

(** The insertion sort returns the rows it was given. *)
Lemma sort_values_desc_perm {num : Type} `{PyNum num}
    (key : merged_row num -> num) (l : list (merged_row num)) :
  Permutation (sort_values_desc key l) l.
Proof.
  induction l as [|x l IH]; cbn; [reflexivity |].
  now rewrite insert_desc_perm, IH.
Qed.

Lemma displayed_rows_witness :
  (exists cut,
      Permutation (displayed sort_values_desc "Reach" 1 sample_merged ++ cut)
                  sample_merged)
  /\ (forall r, In r (displayed sort_values_desc "Reach" 1 sample_merged) ->
                In r sample_merged)
  /\ List.length (displayed sort_values_desc "Reach" 1 sample_merged)
     = (if (0 <? 1)%nat then Nat.min 1 (List.length sample_merged)
        else List.length sample_merged).
Proof.
  apply (displayed_rows sort_values_desc "Reach" 1 sample_merged).
  apply sort_values_desc_perm.
Defined.

Lemma default_view_is_full_selection_witness :
  List.length (displayed sort_values_desc "ROTS" 2 sample_merged)
  = List.length sample_merged
  /\ cur_rots (displayed sort_values_desc "ROTS" 2 sample_merged)
     = sum_adj_rots sample_merged
  /\ cur_reach (displayed sort_values_desc "ROTS" 2 sample_merged)
     = sum_adj_reach sample_merged
  /\ cur_correction
       (List.length (displayed sort_values_desc "ROTS" 2 sample_merged))
       "패키지" "뷰티" (Some sample_factor_df)
     = correction_val (List.length sample_merged) "패키지" "뷰티"
                      (Some sample_factor_df)
  /\ final_cur_reach (displayed sort_values_desc "ROTS" 2 sample_merged)
                     (lit 0.9)
     = final_total_reach sample_merged (lit 0.9).
Proof.
  apply (default_view_is_full_selection sort_values_desc "ROTS" 2
           sample_merged "패키지" "뷰티" (Some sample_factor_df) (lit 0.9)).
  - apply sort_values_desc_perm.
  - right. cbn. lia.
Defined.

Lemma displayed_rows_dominate_witness :
  fgt (sort_target "ROTS" (nth 1 sample_merged (hd_default sample_merged)))
      (sort_target "ROTS" (nth 0 sample_merged (hd_default sample_merged)))
  = false
  /\ (isnull (sort_target "ROTS"
                (nth 0 sample_merged (hd_default sample_merged))) = true ->
      isnull (sort_target "ROTS"
                (nth 1 sample_merged (hd_default sample_merged))) = true).
Proof.
  apply (displayed_rows_dominate sort_values_desc "ROTS" 1 sample_merged).
  - repeat constructor; discriminate.
  - lia.
  - left. reflexivity.
  - left. reflexivity.
Defined.

Lemma displayed_totals_bounded_witness :
  fgt (cur_rots (displayed sort_values_desc "Reach" 1 sample_merged))
      (sum_adj_rots sample_merged) = false
  /\ fgt (cur_reach (displayed sort_values_desc "Reach" 1 sample_merged))
         (sum_adj_reach sample_merged) = false.
Proof.
  apply (displayed_totals_bounded sort_values_desc "Reach" 1 sample_merged).
  - apply sort_values_desc_perm.
  - repeat constructor.
Defined.

Lemma merged_one_row_per_unit_witness :
  map (fun g => ftr_idn (row g)) sample_geo
  = map k_ftr_idn (target_kpi sample_kpi "202401" ["10567"; "10445"]%string)
  /\ List.length sample_geo
     = List.length (target_kpi sample_kpi "202401"
                               ["10567"; "10445"]%string).
Proof.
  apply (merged_one_row_per_unit sample_kpi sample_digital
           sample_shelter_info None sample_pkg_mapping "202401"
           ["10567"; "10445"]%string "전체" 0%Z).
  - repeat constructor; cbv [In map fst sample_pkg_mapping];
      intros Hin; repeat (destruct Hin as [Hin | Hin]; [discriminate |]);
      exact Hin.
  - repeat constructor. intros [].
  - repeat constructor. intros [].
Defined.

Lemma no_digital_record_no_formula_witness :
  isnull (stay_time (row (nth 1 sample_geo (hd_geo sample_geo)))) = true
  /\ (calculate_metrics_row mode_digital_full_slot
        (row (nth 1 sample_geo (hd_geo sample_geo)))
      = (rots (row (nth 1 sample_geo (hd_geo sample_geo))),
         reach (row (nth 1 sample_geo (hd_geo sample_geo))))
      \/ (shelter_type (row (nth 1 sample_geo (hd_geo sample_geo)))
          = "관광안내판"%string
          /\ media_type (row (nth 1 sample_geo (hd_geo sample_geo)))
             = "포스터"%string
          /\ calculate_metrics_row mode_digital_full_slot
               (row (nth 1 sample_geo (hd_geo sample_geo)))
             = (fdiv (rots (row (nth 1 sample_geo (hd_geo sample_geo))))
                     (lit 2),
                fdiv (reach (row (nth 1 sample_geo (hd_geo sample_geo))))
                     (lit 2)))).
Proof.
  apply (no_digital_record_no_formula sample_kpi sample_digital
           sample_shelter_info None sample_pkg_mapping "202401"
           ["10567"; "10445"]%string "전체" 0%Z mode_digital_full_slot).
  - right. left. reflexivity.
  - repeat constructor.
Defined.

Lemma pkg_mapping_first_seen_witness :
  dict_get (fst (package_context sample_kpi sample_package "202401" "강남D"))
           "10567"
  = option_map pkg_type
      (find (fun p => ((package_name p =? "강남D")
                       && (pkg_ftr_idn p =? "10567"))%string)
            sample_package)
  /\ NoDup (map fst (fst (package_context sample_kpi sample_package
                                          "202401" "강남D"))).
Proof.
  apply (pkg_mapping_first_seen sample_kpi sample_package "202401" "강남D"
           "10567").
  reflexivity.
Defined.

Lemma saved_package_is_selected_witness :
  package_context sample_kpi
    (snd (save_pkg_form (Some sample_package) sample_package true true
                        "시청" "P" ["10445"; "10567"]%string))
    "202401" "시청"
  = (map (fun id => (id, "P"%string)) ["10445"; "10567"]%string,
     ["10445"; "10567"]%string)
  /\ forall other, other <> "시청"%string ->
       package_context sample_kpi
         (snd (save_pkg_form (Some sample_package) sample_package true true
                             "시청" "P" ["10445"; "10567"]%string))
         "202401" other
       = package_context sample_kpi sample_package "202401" other.
Proof.
  apply (saved_package_is_selected sample_kpi sample_package true "시청" "P"
           ["10445"; "10567"]%string "202401").
  - reflexivity.
  - reflexivity.
  - repeat constructor; cbv [In]; intros Hin;
      repeat (destruct Hin as [Hin | Hin]; [discriminate |]); exact Hin.
Defined.

Lemma map_centre_within_markers_witness :
  exists la lo : Qc,
    clat (sample_final (num := exact)) = Some la
    /\ clon (sample_final (num := exact)) = Some lo
    /\ czoom (sample_final (num := exact)) = 7%Z
    /\ (Q2Qc 37 <= la)%Qc /\ (la <= Q2Qc 38)%Qc
    /\ (Q2Qc 126 <= lo)%Qc /\ (lo <= Q2Qc 127)%Qc.
Proof.
  apply (map_centre_within_markers (fun _ => EmptyString) sample_final
           (Q2Qc 37) (Q2Qc 38) (Q2Qc 126) (Q2Qc 127)).
  - discriminate.
  - repeat constructor; discriminate.
Defined.

Lemma unit_without_place_is_off_the_map_witness :
  ~ In (nth 1 sample_final_geo (hd_final sample_final_geo))
       (map_df sample_final_geo)
  /\ (List.length (k_data (fun _ => EmptyString) (map_df sample_final_geo))
      < List.length sample_final_geo)%nat
  /\ Forall (fun p =>
               isnull (pos_lat p) = false /\ isnull (pos_lng p) = false
               /\ exists r', In r' sample_final_geo
                             /\ pos_name p = shelter_name (f_geo r')
                             /\ pos_color p
                                = get_color_by_type
                                    (shelter_type (row (f_geo r'))))
            (k_data (fun _ => EmptyString) (map_df sample_final_geo)).
Proof.
  apply (unit_without_place_is_off_the_map (fun _ => EmptyString)
           sample_kpi sample_digital sample_shelter_info None
           sample_pkg_mapping "202401" ["10567"; "10445"]%string "전체" 0%Z
           sample_final_geo
           (nth 1 sample_final_geo (hd_final sample_final_geo))).
  - right. left. reflexivity.
  - right. left. reflexivity.
  - repeat constructor.
Defined.

Lemma filter_leaves_one_group_witness :
  let td := target_demo sample_demographics "202401"
                        ["10567"; "10445"]%string "F" 2 in
  ("20대" <> "전체" ->
   (List.length (age_summ td sample_merged (lit 0.5)) <= 1)%nat
   /\ Forall (fun s => group s = 2%Z
                       /\ zdict_get age_map_disp (group s) = Some "20대")
             (age_summ td sample_merged (lit 0.5))
   /\ Forall (fun s => fst (group s) = 2%Z)
             (pivot_demo td sample_merged (lit 0.5)))%string
  /\ ("여성" <> "전체" ->
      (List.length (gender_summ td sample_merged (lit 0.5)) <= 1)%nat
      /\ Forall (fun s => group s = "F"
                          /\ dict_get gender_map_disp (group s)
                             = Some "여성")
                (gender_summ td sample_merged (lit 0.5))
      /\ Forall (fun s => snd (group s) = "F")
                (pivot_demo td sample_merged (lit 0.5)))%string.
Proof.
  apply (filter_leaves_one_group sample_demographics "202401"
           ["10567"; "10445"]%string "여성" "20대" "F" 2%Z sample_merged
           (lit 0.5)); reflexivity.
Defined.
